(** * spi_eeprom: the AT93C86A driver of [spi_flash.c]

    A shallow embedding of the driver and the properties of its bit
    framing, chip-select sequencing and bulk operations.

    Conventions of the embedding.
    - C integers are [Z]; every conversion to a fixed-width type is written
      out ([u8], [u16], [u32]; [size_t] is 32 bits on the RP2040).  [char] is
      unsigned on the target (ARM EABI), so a character is a [Z] in 0..255.
    - The driver's effects on the outside world (GPIO writes, busy-wait
      delays, SPI transfers, sleeps) are recorded as a list of [event]s, in
      program order.  Console output ([printf]) is outside the bus model and
      is not recorded.
    - C arrays are [list Z]; an access outside the array is undefined
      behaviour in C and is the error [OutOfBounds] here.
    - The single SPI instance is implicit; the chip-select pin is kept. *)

From Stdlib Require Import ZArith List Bool Lia.
From stdpp Require Import base list.
From coqutil Require Import Z.bitblast.

Local Open Scope Z_scope.

(** ** Fixed-width integers *)

Definition u8 (x : Z) : Z := x mod 2 ^ 8.
Definition u16 (x : Z) : Z := x mod 2 ^ 16.
Definition u32 (x : Z) : Z := x mod 2 ^ 32.

(** ** Command opcodes (with start bit) *)

Definition EEPROM_CMD_READ : Z := 6.   (* 0b110 *)
Definition EEPROM_CMD_WRITE : Z := 5.  (* 0b101 *)
Definition EEPROM_CMD_ERASE : Z := 7.  (* 0b111 *)
Definition EEPROM_CMD_WEN : Z := 19.   (* 0b10011 *)
Definition EEPROM_CMD_WDS : Z := 16.   (* 0b10000 *)

(** ** Observable effects *)

Inductive event : Type :=
| GpioPut (pin : Z) (level : bool)     (* gpio_put(pin, level) *)
| Delay250ns                           (* delay_250ns() *)
| SpiWrite (bytes : list Z)            (* spi_write_blocking: bytes clocked out *)
| SpiRead (bytes : list Z)             (* spi_read_blocking: bytes clocked in *)
| SleepMs (ms : Z).                    (* sleep_ms(ms) *)

Definition event_eqb (e1 e2 : event) : bool :=
  match e1, e2 with
  | GpioPut p1 l1, GpioPut p2 l2 => (p1 =? p2) && Bool.eqb l1 l2
  | Delay250ns, Delay250ns => true
  | SpiWrite b1, SpiWrite b2 => bool_decide (b1 = b2)
  | SpiRead b1, SpiRead b2 => bool_decide (b1 = b2)
  | SleepMs m1, SleepMs m2 => m1 =? m2
  | _, _ => false
  end.

(** ** Program state: the driver's global and the attached device

    [dump_flag] is the driver's only global (line 23).  The other fields
    are the attached device: [mem] its word store, [raddr] the address
    latched by the last read command, [wen] its write-enable latch and
    [blank] the word an erased location holds.

    The device is the reference device of the specification: it decodes the
    frame layouts of the command set; an enable-writes command sets the
    latch and a disable-writes command clears it; while the latch is set, a
    write command stores its word at its address and an erase command
    leaves the erased word there; while it is clear, both are ignored; a
    read command is answered with a dummy bit followed by the stored words,
    most significant bit first. *)

Record state : Type := mkState {
  dump_flag : Z;
  mem : Z -> Z;
  raddr : Z;
  wen : bool;
  blank : Z
}.

Definition set_dump_flag (v : Z) (s : state) : state :=
  mkState v (mem s) (raddr s) (wen s) (blank s).

Definition upd (m : Z -> Z) (a w : Z) : Z -> Z :=
  fun x => if x =? a then w else m x.

(** Modelled from the spec: the device's response to a read command starts
    at the address of that command. *)
Definition latch_address (a : Z) (s : state) : state :=
  mkState (dump_flag s) (mem s) a (wen s) (blank s).

(** Modelled from the spec: the write-enable latch of the device (section
    4.3: enable-writes remains in effect until disable-writes; the note at
    line 378 of the source says the same of the part). *)
Definition set_latch (v : bool) (s : state) : state :=
  mkState (dump_flag s) (mem s) (raddr s) v (blank s).

(** Modelled from the spec: the location [a] is programmed with [w] while
    the write-enable latch is set, and left alone while it is clear. *)
Definition program (a w : Z) (s : state) : state :=
  mkState (dump_flag s) (if wen s then upd (mem s) a w else mem s)
          (raddr s) (wen s) (blank s).

(** Modelled from the spec: the attached device is hardware, reached through
    the SDK's bus primitives; its command layouts are those of the
    specification's Bit Framer, with the opcodes of the source.  What the
    device does with a frame it has received: a read command latches its
    address; an erase command programs its location with the erased word
    and a write command programs its location with its data word, both
    subject to the write-enable latch; an enable-writes command sets the
    latch and a disable-writes command clears it; any other frame changes
    nothing.  The specification names an erased device without giving the
    word an erased location holds, so that word is the device's own
    ([blank]). *)
Definition dev_rx (bytes : list Z) (s : state) : state :=
  match bytes with
  | [b0; b1] =>
      let cmd := Z.lor (Z.shiftl b0 8) b1 in
      if Z.shiftr cmd 10 =? EEPROM_CMD_READ then
        latch_address (Z.land cmd 0x3FF) s
      else if Z.shiftr cmd 13 =? EEPROM_CMD_ERASE then
        program (Z.land (Z.shiftr cmd 3) 0x3FF) (blank s) s
      else if Z.shiftr cmd 11 =? EEPROM_CMD_WEN then set_latch true s
      else if Z.shiftr cmd 11 =? EEPROM_CMD_WDS then set_latch false s
      else s
  | [b0; b1; b2; b3] =>
      let cmd := Z.lor (Z.lor (Z.shiftl b0 24) (Z.shiftl b1 16))
                       (Z.lor (Z.shiftl b2 8) b3) in
      if Z.shiftr cmd 26 =? EEPROM_CMD_WRITE then
        program (Z.land (Z.shiftr cmd 16) 0x3FF) (Z.land cmd 0xFFFF) s
      else s
  | _ => s
  end.

(** Modelled from the spec: the device's answer to a read command is one
    dummy bit followed by the stored words, most significant bit first.
    [dev_word_byte] is the [k]-th byte of the word stream that starts at
    address [a]: high byte, low byte, high byte of the next word, ... *)
Definition dev_word_byte (m : Z -> Z) (a : Z) (k : Z) : Z :=
  let w := m (Z.land (a + k / 2) 0x3FF) in
  if Z.even k then Z.land (Z.shiftr w 8) 0xFF else Z.land w 0xFF.

(** The [j]-th byte the device clocks out after a read command: the word
    stream delayed by the dummy bit. *)
Definition dev_tx_byte (m : Z -> Z) (a : Z) (j : Z) : Z :=
  Z.lor (if j =? 0 then 0 else Z.shiftl (Z.land (dev_word_byte m a (j - 1)) 1) 7)
        (Z.shiftr (dev_word_byte m a j) 1).

Definition dev_tx (s : state) (n : nat) : list Z :=
  map (fun j => dev_tx_byte (mem s) (raddr s) (Z.of_nat j)) (seq 0 n).

(** ** The error and trace monad *)

Inductive error : Type := OutOfBounds | OutOfFuel.

Inductive outcome (A : Type) : Type :=
| Ok (a : A) (s : state) (tr : list event)
| Err (e : error).
Arguments Ok {A} a s tr.
Arguments Err {A} e.

Definition M (A : Type) : Type := state -> outcome A.

Definition ret {A} (a : A) : M A := fun s => Ok a s [].

Definition bind {A B} (m : M A) (f : A -> M B) : M B := fun s =>
  match m s with
  | Ok a s1 t1 =>
      match f a s1 with
      | Ok b s2 t2 => Ok b s2 (t1 ++ t2)
      | Err e => Err e
      end
  | Err e => Err e
  end.

Definition raise {A} (e : error) : M A := fun _ => Err e.
Definition emit (e : event) : M unit := fun s => Ok tt s [e].
Definition get_dump_flag : M Z := fun s => Ok (dump_flag s) s [].
Definition put_dump_flag (v : Z) : M unit := fun s => Ok tt (set_dump_flag v s) [].

(** stdpp's monad notations: [x ← m; k] and [m ;; k]. *)
#[global] Instance M_ret : MRet M := @ret.
#[global] Instance M_bind : MBind M := fun A B f m => bind m f.

(** Array accesses. *)
Definition load (a : list Z) (i : Z) : M Z :=
  match a !! Z.to_nat i with
  | Some v => ret v
  | None => raise OutOfBounds
  end.

Definition store (a : list Z) (i v : Z) : M (list Z) :=
  if bool_decide (Z.to_nat i < length a)%nat
  then ret (<[Z.to_nat i := v]> a)
  else raise OutOfBounds.

(** ** SDK primitives *)

Definition gpio_put (pin : Z) (level : bool) : M unit := emit (GpioPut pin level).
Definition delay_250ns : M unit := emit Delay250ns.
Definition sleep_ms (ms : Z) : M unit := emit (SleepMs ms).

Definition spi_write_blocking (src : list Z) (len : Z) : M unit := fun s =>
  if bool_decide (Z.to_nat len <= length src)%nat
  then Ok tt (dev_rx (take (Z.to_nat len) src) s) [SpiWrite (take (Z.to_nat len) src)]
  else Err OutOfBounds.

Definition spi_read_blocking (repeated_tx_data : Z) (dst : list Z) (len : Z)
  : M (list Z) := fun s =>
  if bool_decide (Z.to_nat len <= length dst)%nat
  then let rx := dev_tx s (Z.to_nat len) in
       Ok (rx ++ drop (Z.to_nat len) dst) s [SpiRead rx]
  else Err OutOfBounds.

(** ** Chip select *)

Definition cs_select (cs_pin : Z) : M unit :=
  gpio_put cs_pin true ;;
  delay_250ns.

Definition cs_deselect (cs_pin : Z) : M unit :=
  gpio_put cs_pin false ;;
  delay_250ns.

(** ** Command frames and response decoding *)

Definition split16 (cmd : Z) : list Z :=
  [u8 (Z.shiftr cmd 8); u8 (Z.land cmd 0xFF)].

Definition wen_cmdbuf : list Z :=
  let cmd := u16 (Z.shiftl EEPROM_CMD_WEN 11) in split16 cmd.

Definition wds_cmdbuf : list Z :=
  let cmd := u16 (Z.shiftl EEPROM_CMD_WDS 11) in split16 cmd.

Definition read_cmdbuf (addr : Z) : list Z :=
  let cmd := u16 (Z.lor (Z.shiftl EEPROM_CMD_READ 10) (Z.land addr 0x03FF)) in
  split16 cmd.

Definition read_data (databuf0 databuf1 databuf2 : Z) : Z :=
  u16 (Z.lor (Z.lor (u16 (Z.shiftl databuf0 9)) (u16 (Z.shiftl databuf1 1)))
             (Z.land (Z.shiftr databuf2 7) 0x01)).

Definition write_cmdbuf (addr data : Z) : list Z :=
  let cmd := u32 (Z.lor (Z.lor (Z.shiftl (u32 EEPROM_CMD_WRITE) 26)
                               (Z.shiftl (Z.land addr 0x03FF) 16))
                        (Z.land data 0xFFFF)) in
  [ u8 (Z.land (Z.shiftr cmd 24) 0xFF);
    u8 (Z.land (Z.shiftr cmd 16) 0xFF);
    u8 (Z.land (Z.shiftr cmd 8) 0xFF);
    u8 (Z.land cmd 0xFF) ].

Definition erase_cmdbuf (addr : Z) : list Z :=
  let cmd := u16 (Z.lor (Z.shiftl EEPROM_CMD_ERASE 13)
                        (Z.shiftl (Z.land addr 0x03FF) 3)) in
  split16 cmd.

(** ** The five device operations *)

Definition eeprom_write_enable (cs_pin : Z) : M unit :=
  cs_deselect cs_pin ;;
  cs_select cs_pin ;;
  spi_write_blocking wen_cmdbuf 2 ;;
  cs_deselect cs_pin.

Definition eeprom_write_disable (cs_pin : Z) : M unit :=
  cs_deselect cs_pin ;;
  cs_select cs_pin ;;
  spi_write_blocking wds_cmdbuf 2 ;;
  cs_deselect cs_pin.

Definition unless_dump (m : M unit) : M unit :=
  f ← get_dump_flag;
  if f =? 0 then m else ret tt.

Definition eeprom_read (cs_pin : Z) (addr : Z) : M Z :=
  unless_dump (cs_deselect cs_pin ;; cs_select cs_pin) ;;
  spi_write_blocking (read_cmdbuf addr) 2 ;;
  databuf ← spi_read_blocking 0 [0; 0; 0] 3;
  d0 ← load databuf 0;
  d1 ← load databuf 1;
  d2 ← load databuf 2;
  let data := read_data d0 d1 d2 in
  unless_dump (cs_deselect cs_pin ;; cs_select cs_pin) ;;
  ret data.

Definition eeprom_write (cs_pin : Z) (addr data : Z) : M unit :=
  cs_deselect cs_pin ;;
  cs_select cs_pin ;;
  spi_write_blocking (write_cmdbuf addr data) 4 ;;
  sleep_ms 7 ;;
  cs_deselect cs_pin ;;
  cs_select cs_pin.

Definition eeprom_erase (cs_pin : Z) (addr : Z) : M unit :=
  cs_deselect cs_pin ;;
  cs_select cs_pin ;;
  spi_write_blocking (erase_cmdbuf addr) 2 ;;
  cs_deselect cs_pin ;;
  sleep_ms 4.

(** ** Bulk operations

    A C loop is a [Fixpoint] on a fuel counter that repeats the loop's test
    and body; a loop with a constant trip count is given exactly the fuel it
    needs, [eeprom_read_string], whose trip count depends on the device's
    contents, takes its fuel from the caller. *)

Fixpoint eeprom_write_buf_loop (fuel : nat) (cs_pin start_addr : Z)
    (buf : list Z) (len i : Z) : M unit :=
  match fuel with
  | O => raise OutOfFuel
  | S fuel' =>
      if i <? len then
        w ← load buf i;
        eeprom_write cs_pin (u16 (u32 (start_addr + i))) w ;;
        cs_select cs_pin ;;
        eeprom_write_buf_loop fuel' cs_pin start_addr buf len (u32 (i + 1))
      else ret tt
  end.

Definition eeprom_write_buf (cs_pin start_addr : Z) (buf : list Z) (len : Z)
  : M unit :=
  eeprom_write_buf_loop (S (Z.to_nat len)) cs_pin start_addr buf len 0.

Fixpoint eeprom_dump_loop (fuel : nat) (cs_pin addr : Z) : M unit :=
  match fuel with
  | O => raise OutOfFuel
  | S fuel' =>
      if addr <=? 0x03FF then
        cs_deselect cs_pin ;;
        cs_select cs_pin ;;
        data ← eeprom_read cs_pin addr;
        eeprom_dump_loop fuel' cs_pin (u16 (addr + 1))
      else ret tt
  end.

Definition eeprom_dump (cs_pin : Z) : M unit :=
  put_dump_flag 1 ;;
  eeprom_dump_loop 1025 cs_pin 0 ;;
  put_dump_flag 0.

Fixpoint eeprom_copy_loop (fuel : nat) (cs_pin addr : Z)
    (eeprom_buffer : list Z) : M (list Z) :=
  match fuel with
  | O => raise OutOfFuel
  | S fuel' =>
      if addr <=? 0x03FF then
        cs_deselect cs_pin ;;
        cs_select cs_pin ;;
        data ← eeprom_read cs_pin addr;
        eeprom_buffer ← store eeprom_buffer addr data;
        eeprom_copy_loop fuel' cs_pin (u16 (addr + 1)) eeprom_buffer
      else ret eeprom_buffer
  end.

Definition eeprom_copy (cs_pin : Z) (eeprom_buffer : list Z) : M (list Z) :=
  put_dump_flag 1 ;;
  eeprom_buffer ← eeprom_copy_loop 1025 cs_pin 0 eeprom_buffer;
  put_dump_flag 0 ;;
  ret eeprom_buffer.

Fixpoint eeprom_paste_loop (fuel : nat) (cs_pin addr : Z)
    (eeprom_buffer : list Z) : M unit :=
  match fuel with
  | O => raise OutOfFuel
  | S fuel' =>
      if addr <=? 0x03FF then
        w ← load eeprom_buffer addr;
        eeprom_write cs_pin addr w ;;
        eeprom_paste_loop fuel' cs_pin (u16 (addr + 1)) eeprom_buffer
      else ret tt
  end.

Definition eeprom_paste (cs_pin : Z) (eeprom_buffer : list Z) : M unit :=
  eeprom_paste_loop 1025 cs_pin 0 eeprom_buffer.

(** [str] is the storage the pointer refers to, from the pointer onwards. *)
Fixpoint eeprom_write_string_loop (fuel : nat) (cs_pin start_addr : Z)
    (str : list Z) (i : Z) : M unit :=
  match fuel with
  | O => raise OutOfFuel
  | S fuel' =>
      c ← load str i;
      if negb (c =? 0) then
        c1 ← load str (u32 (i + 1));
        let word := u16 (Z.lor (Z.shiftl c 8) (if negb (c1 =? 0) then c1 else 0)) in
        eeprom_write cs_pin start_addr word ;;
        eeprom_write_string_loop fuel' cs_pin (u16 (start_addr + 1)) str (u32 (i + 2))
      else ret tt
  end.

Definition eeprom_write_string (cs_pin start_addr : Z) (str : list Z) : M unit :=
  eeprom_write_string_loop (S (length str)) cs_pin start_addr str 0.

Fixpoint eeprom_read_string_loop (fuel : nat) (cs_pin start_addr : Z)
    (str : list Z) (max_len i : Z) : M (list Z * Z) :=
  match fuel with
  | O => raise OutOfFuel
  | S fuel' =>
      if i <? u32 (max_len - 1) then
        word ← eeprom_read cs_pin start_addr;
        let start_addr := u16 (start_addr + 1) in
        str ← store str i (u8 (Z.shiftr word 8));
        let i := u32 (i + 1) in
        '(str, i) ← (if i <? u32 (max_len - 1)
                     then str ← store str i (u8 (Z.land word 0xFF));
                          ret (str, u32 (i + 1))
                     else ret (str, i));
        if (u8 (Z.shiftr word 8) =? 0) || (u8 (Z.land word 0xFF) =? 0)
        then ret (str, i)
        else eeprom_read_string_loop fuel' cs_pin start_addr str max_len i
      else ret (str, i)
  end.

Definition eeprom_read_string (fuel : nat) (cs_pin start_addr : Z)
    (str : list Z) (max_len : Z) : M (list Z) :=
  '(str, i) ← eeprom_read_string_loop fuel cs_pin start_addr str max_len 0;
  store str i 0.

(** The two functions the source lists under "NON-WORKING FUNCTIONS".  The
    variable-length array [databuf] is filled entirely by the bus read. *)
Fixpoint sequential_read_length_loop (fuel : nat) (databuf buf : list Z)
    (length i : Z) : M (list Z) :=
  match fuel with
  | O => raise OutOfFuel
  | S fuel' =>
      if i <? length then
        let k := u32 (3 + (i - 1) * 2) in
        a ← load databuf k;
        b ← load databuf (u32 (k + 1));
        buf ← store buf i
                (u16 (Z.lor (Z.lor (u16 (Z.shiftl a 8))
                                   (Z.land (Z.shiftl b 1) 0xFF))
                            (Z.land (Z.shiftr b 7) 0x01)));
        sequential_read_length_loop fuel' databuf buf length (u32 (i + 1))
      else ret buf
  end.

Definition eeprom_sequential_read_length (cs_pin start_addr : Z)
    (buf : list Z) (length : Z) : M (list Z) :=
  if length =? 0 then ret buf
  else
    cs_deselect cs_pin ;;
    delay_250ns ;;
    cs_select cs_pin ;;
    spi_write_blocking (read_cmdbuf start_addr) 2 ;;
    let size := u32 (3 + (length - 1) * 2) in
    databuf ← spi_read_blocking 0 (repeat 0 (Z.to_nat size)) size;
    d0 ← load databuf 0;
    d1 ← load databuf 1;
    d2 ← load databuf 2;
    buf ← store buf 0 (read_data d0 d1 d2);
    buf ← sequential_read_length_loop (Z.to_nat length) databuf buf length 1;
    cs_deselect cs_pin ;;
    ret buf.

Fixpoint sequential_read_range_loop (fuel : nat) (databuf buf : list Z)
    (length i : Z) : M (list Z) :=
  match fuel with
  | O => raise OutOfFuel
  | S fuel' =>
      if i <? length then
        let k := u32 (3 + (i - 1) * 2) in
        a ← load databuf k;
        b ← load databuf (u32 (k + 1));
        buf ← store buf i (u16 (Z.lor (u16 (Z.shiftl a 8)) b));
        sequential_read_range_loop fuel' databuf buf length (u32 (i + 1))
      else ret buf
  end.

Definition eeprom_sequential_read_range (cs_pin start_addr end_addr : Z)
    (buf : list Z) : M (list Z) :=
  if start_addr >? end_addr then ret buf
  else
    let length := u32 (end_addr - start_addr + 1) in
    cs_deselect cs_pin ;;
    delay_250ns ;;
    cs_select cs_pin ;;
    spi_write_blocking (read_cmdbuf start_addr) 2 ;;
    let size := u32 (3 + (length - 1) * 2) in
    databuf ← spi_read_blocking 0 (repeat 0 (Z.to_nat size)) size;
    d0 ← load databuf 0;
    d1 ← load databuf 1;
    d2 ← load databuf 2;
    buf ← store buf 0 (read_data d0 d1 d2);
    buf ← sequential_read_range_loop (Z.to_nat length) databuf buf length 1;
    cs_deselect cs_pin ;;
    ret buf.

(** The public operations of the driver, with their arguments. *)
Inductive operation : Type :=
| WriteEnable
| WriteDisable
| Read (addr : Z)
| Write (addr data : Z)
| WriteBuf (start_addr : Z) (buf : list Z) (len : Z)
| Erase (addr : Z)
| Dump
| Copy (eeprom_buffer : list Z)
| Paste (eeprom_buffer : list Z)
| WriteString (start_addr : Z) (str : list Z)
| ReadString (fuel : nat) (start_addr : Z) (str : list Z) (max_len : Z)
| SequentialReadLength (start_addr : Z) (buf : list Z) (length : Z)
| SequentialReadRange (start_addr end_addr : Z) (buf : list Z).

Definition void {A} (m : M A) : M unit := m ;; ret tt.

Definition call (cs_pin : Z) (op : operation) : M unit :=
  match op with
  | WriteEnable => eeprom_write_enable cs_pin
  | WriteDisable => eeprom_write_disable cs_pin
  | Read addr => void (eeprom_read cs_pin addr)
  | Write addr data => eeprom_write cs_pin addr data
  | WriteBuf start_addr buf len => eeprom_write_buf cs_pin start_addr buf len
  | Erase addr => eeprom_erase cs_pin addr
  | Dump => eeprom_dump cs_pin
  | Copy eeprom_buffer => void (eeprom_copy cs_pin eeprom_buffer)
  | Paste eeprom_buffer => eeprom_paste cs_pin eeprom_buffer
  | WriteString start_addr str => eeprom_write_string cs_pin start_addr str
  | ReadString fuel start_addr str max_len =>
      void (eeprom_read_string fuel cs_pin start_addr str max_len)
  | SequentialReadLength start_addr buf length =>
      void (eeprom_sequential_read_length cs_pin start_addr buf length)
  | SequentialReadRange start_addr end_addr buf =>
      void (eeprom_sequential_read_range cs_pin start_addr end_addr buf)
  end.

Fixpoint calls (cs_pin : Z) (ops : list operation) : M unit :=
  match ops with
  | [] => ret tt
  | op :: rest => call cs_pin op ;; calls cs_pin rest
  end.

(** The text a C string holds: the characters before its first zero byte. *)
Fixpoint c_str (buf : list Z) : option (list Z) :=
  match buf with
  | [] => None
  | c :: rest => if c =? 0 then Some [] else cons c <$> c_str rest
  end.

(** ** Reading the trace *)

Definition frames (tr : list event) : list (list Z) :=
  flat_map (fun e => match e with SpiWrite b => [b] | _ => [] end) tr.

Definition trace_of {A} (o : outcome A) : list event :=
  match o with Ok _ _ tr => tr | Err _ => [] end.

Definition state_of {A} (s0 : state) (o : outcome A) : state :=
  match o with Ok _ s _ => s | Err _ => s0 end.

Definition erased : Z -> Z := fun _ => 0xFFFF.

(** The device as it powers up, here with every word 0xFFFF: the
    write-enable latch is clear. *)
Definition power_on_state : state := mkState 0 erased 0 false 0xFFFF.

(** The state in which [main] starts its work on the device: [dump_flag] is
    0 (line 23) and writes are enabled (the call of [eeprom_write_enable]
    at line 377). *)
Definition init_state : state := mkState 0 erased 0 true 0xFFFF.

(** ** Vocabulary of the properties *)

(** The decoding as the specification words it: assemble the three received
    bytes into a 24-bit buffer, shift right by 7, mask to 16 bits. *)
Definition spec_decode (b0 b1 b2 : Z) : Z :=
  Z.land (Z.shiftr (Z.lor (Z.lor (Z.shiftl b0 16) (Z.shiftl b1 8)) b2) 7) 0xFFFF.

(** The command words of the three addressed operations, before their
    conversion to the width of [cmd]. *)
Definition read_cmd (addr : Z) : Z :=
  Z.lor (Z.shiftl EEPROM_CMD_READ 10) (Z.land addr 0x03FF).

Definition erase_cmd (addr : Z) : Z :=
  Z.lor (Z.shiftl EEPROM_CMD_ERASE 13) (Z.shiftl (Z.land addr 0x03FF) 3).

Definition write_cmd (addr data : Z) : Z :=
  Z.lor (Z.lor (Z.shiftl (u32 EEPROM_CMD_WRITE) 26)
               (Z.shiftl (Z.land addr 0x03FF) 16))
        (Z.land data 0xFFFF).

(** The frames an action transmits when run from state [s]. *)
Definition sent {A} (m : M A) (s : state) : list (list Z) :=
  frames (trace_of (m s)).

(** The events of [cs_deselect] followed by [cs_select]. *)
Definition cs_toggle (cs_pin : Z) : list event :=
  [GpioPut cs_pin false; Delay250ns; GpioPut cs_pin true; Delay250ns].

(** The session events [eeprom_read] adds around its transfer. *)
Definition read_bracket (cs_pin : Z) (s : state) : list event :=
  if dump_flag s =? 0 then cs_toggle cs_pin else [].

(** The state a read command leaves: the address is latched. *)
Definition latched (addr : Z) (s : state) : state :=
  latch_address (Z.land addr 0x3FF) s.

(** The state a write command leaves: the word is stored if writes are
    enabled. *)
Definition stored (addr data : Z) (s : state) : state :=
  program (Z.land addr 0x3FF) (Z.land data 0xFFFF) s.

(** The state an erase command leaves. *)
Definition wiped (addr : Z) (s : state) : state :=
  program (Z.land addr 0x3FF) (blank s) s.

(** The command word and its serialisation as the specification words
    them. *)
Definition spec_write_cmd (addr data : Z) : Z :=
  Z.lor (Z.lor (Z.shiftl 5 26) (Z.shiftl addr 16)) data.

Definition msb_first4 (cmd : Z) : list Z :=
  [ (cmd / 2 ^ 24) mod 256; (cmd / 2 ^ 16) mod 256;
    (cmd / 2 ^ 8) mod 256; cmd mod 256 ].

Definition is_deassert (e : event) : bool :=
  match e with GpioPut _ false => true | _ => false end.

(** The events that follow the bus transfer. *)
Fixpoint after_transfer (tr : list event) : list event :=
  match tr with
  | [] => []
  | SpiWrite _ :: rest => rest
  | _ :: rest => after_transfer rest
  end.

(** The events before the first chip-select deassert of [tr], and the ones
    after it. *)
Fixpoint before_close (tr : list event) : list event :=
  match tr with
  | [] => []
  | e :: rest => if is_deassert e then [] else e :: before_close rest
  end.

Fixpoint after_close (tr : list event) : list event :=
  match tr with
  | [] => []
  | e :: rest => if is_deassert e then rest else after_close rest
  end.

Definition has_sleep (ms : Z) (tr : list event) : bool :=
  existsb (event_eqb (SleepMs ms)) tr.

(** The session closes after the transfer, and the settle delay of [ms]
    milliseconds lies between the transfer and that closing deassert. *)
Definition settle_before_close (ms : Z) (tr : list event) : bool :=
  existsb is_deassert (after_transfer tr)
  && has_sleep ms (before_close (after_transfer tr)).

(** The session closes after the transfer, and the settle delay of [ms]
    milliseconds follows the closing deassert. *)
Definition settle_after_close (ms : Z) (tr : list event) : bool :=
  existsb is_deassert (after_transfer tr)
  && negb (has_sleep ms (before_close (after_transfer tr)))
  && has_sleep ms (after_close (after_transfer tr)).

(** An action that does not write [dump_flag]. *)
Definition keeps_flag {A} (m : M A) : Prop :=
  forall s a s' tr, m s = Ok a s' tr -> dump_flag s' = dump_flag s.


Fixpoint addrs (a : Z) (n : nat) : list Z :=
  match n with
  | O => []
  | S n' => a :: addrs (a + 1) n'
  end.

(** The element of a C array, for an index inside it. *)
Definition word (buf : list Z) (i : Z) : Z := default 0 (buf !! Z.to_nat i).

(** The events of one [eeprom_write]. *)
Definition write_events (cs_pin addr data : Z) : list event :=
  cs_toggle cs_pin ++ [SpiWrite (write_cmdbuf addr data); SleepMs 7]
  ++ cs_toggle cs_pin.

(** The events of one [eeprom_read] transfer, without session events. *)
Definition read_events (m : Z -> Z) (addr : Z) : list event :=
  [SpiWrite (read_cmdbuf addr);
   SpiRead (map (fun j => dev_tx_byte m (Z.land addr 0x3FF) (Z.of_nat j)) (seq 0 3))].

Definition is_cs_event (e : event) : bool :=
  match e with
  | GpioPut _ _ | Delay250ns => true
  | _ => false
  end.

(** The trace without its chip-select events. *)
Definition bus_only (tr : list event) : list event :=
  List.filter (fun e => negb (is_cs_event e)) tr.

(** The word [eeprom_write_string] builds from two characters. *)
Definition pack_word (c0 c1 : Z) : Z := u16 (Z.lor (Z.shiftl c0 8) c1).

(** The words a text is packed into: two characters per word, high byte
    first, the last word of a text of odd length padded with a zero byte. *)
Fixpoint pack (s : list Z) : list Z :=
  match s with
  | c0 :: c1 :: rest => pack_word c0 c1 :: pack rest
  | [c0] => [pack_word c0 0]
  | [] => []
  end.

(** The device memory after the words [ws] were written from address [a]
    on, one address per word. *)
Fixpoint store_words (m : Z -> Z) (a : Z) (ws : list Z) : Z -> Z :=
  match ws with
  | [] => m
  | w :: rest => store_words (upd m (Z.land a 0x3FF) (Z.land w 0xFFFF)) (u16 (a + 1)) rest
  end.

Definition is_char (c : Z) : Prop := 1 <= c <= 255.

(** [eeprom_write_string] followed by [eeprom_read_string] at the same
    address, and the text the read buffer then holds. *)
Definition write_then_read (cs_pin start_addr : Z) (str buf : list Z)
    (max_len : Z) (fuel : nat) : M (list Z) :=
  eeprom_write_string cs_pin start_addr str ;;
  eeprom_read_string fuel cs_pin start_addr buf max_len.

Definition recovered_text (o : outcome (list Z)) : option (list Z) :=
  match o with
  | Ok buf _ _ => c_str buf
  | Err _ => None
  end.

(** A device none of whose words holds a zero byte. *)
Definition no_zero_byte (m : Z -> Z) : Prop :=
  forall a, u8 (Z.shiftr (u16 (m a)) 8) <> 0 /\ u8 (Z.land (u16 (m a)) 0xFF) <> 0.

(** The words a trace's read responses decode to, by the formula of
    [eeprom_read]. *)
Definition decoded (tr : list event) : list Z :=
  flat_map (fun e => match e with
                     | SpiRead [b0; b1; b2] => [read_data b0 b1 b2]
                     | _ => []
                     end) tr.

(** The write frames of the words [ws] for consecutive addresses from [a]
    on, the address incremented as a [uint16_t]. *)
Fixpoint word_frames (a : Z) (ws : list Z) : list (list Z) :=
  match ws with
  | [] => []
  | w :: rest => write_cmdbuf a w :: word_frames (u16 (a + 1)) rest
  end.

Definition is_word (w : Z) : Prop := 0 <= w < 65536.

(** The chip-select line as a trace drives it.  [CsFresh]: asserted after
    a deassert, no transfer yet in this session; [CsUsed]: asserted, a
    command frame was sent in this session.  The boolean tells whether a
    delay has passed since the last write to the line. *)
Inductive cs_level : Type := CsUnknown | CsLow | CsFresh | CsUsed.

Definition cs_state : Type := (cs_level * bool)%type.

(** One event: a write to the line needs the previous one to have settled;
    a command frame needs a fresh, settled session; a response is clocked
    in the session of its command. *)
Definition cs_step (c : cs_state) (e : event) : option cs_state :=
  let '(l, settled) := c in
  match e with
  | GpioPut _ level =>
      if settled
      then Some (if level
                 then match l with CsLow | CsFresh => CsFresh | other => other end
                 else CsLow, false)
      else None
  | Delay250ns | SleepMs _ => Some (l, true)
  | SpiWrite _ =>
      match l, settled with
      | CsFresh, true => Some (CsUsed, true)
      | _, _ => None
      end
  | SpiRead _ =>
      match l, settled with
      | CsUsed, true => Some (CsUsed, true)
      | _, _ => None
      end
  end.

Fixpoint cs_run (c : cs_state) (tr : list event) : option cs_state :=
  match tr with
  | [] => Some c
  | e :: rest =>
      match cs_step c e with
      | Some c' => cs_run c' rest
      | None => None
      end
  end.

Definition settled (c : cs_state) : Prop := snd c = true.

(** A trace that respects the protocol from any settled line state, and
    leaves the line settled. *)
Definition well_framed (tr : list event) : Prop :=
  forall c, settled c -> exists c', cs_run c tr = Some c' /\ settled c'.

(** An action whose trace, entered with [dump_flag = 0] and the line in a
    state of [P], respects the protocol and leaves the line in a state of
    [Q] and [dump_flag] 0. *)
Definition cs_triple {A} (P : cs_state -> Prop) (m : M A) (Q : cs_state -> Prop)
  : Prop :=
  forall s a s' tr c,
    dump_flag s = 0 -> P c -> m s = Ok a s' tr ->
    dump_flag s' = 0 /\ exists c', cs_run c tr = Some c' /\ Q c'.

Definition at_level (l : cs_level) (c : cs_state) : Prop := c = (l, true).

(** The events of one sequential read: a single session around the command
    frame and the response bytes [rx]. *)
Definition sequential_trace (cs_pin start_addr : Z) (rx : list Z) : list event :=
  [GpioPut cs_pin false; Delay250ns; Delay250ns; GpioPut cs_pin true; Delay250ns;
   SpiWrite (read_cmdbuf start_addr); SpiRead rx;
   GpioPut cs_pin false; Delay250ns].

(** The number a frame spells, most significant byte first. *)
Definition be_value (bytes : list Z) : Z :=
  fold_left (fun acc b => acc * 256 + b) bytes 0.

Definition is_byte (b : Z) : Prop := 0 <= b < 256.

(** The milliseconds a trace spends in [sleep_ms]. *)
Definition sleep_total (tr : list event) : Z :=
  fold_right (fun e acc => match e with SleepMs ms => ms + acc | _ => acc end) 0 tr.

(** What an action may do to the device when it does not enable or disable
    writes: the latch is as it was, and while it is clear no word
    changes. *)
Definition guarded (s s' : state) : Prop :=
  wen s' = wen s /\ (wen s = false -> mem s' = mem s).

Definition keeps_latch {A} (m : M A) : Prop :=
  forall s a s' tr, m s = Ok a s' tr -> guarded s s'.

Definition is_enable (op : operation) : bool :=
  match op with WriteEnable => true | _ => false end.

Definition is_disable (op : operation) : bool :=
  match op with WriteDisable => true | _ => false end.

(** * Properties *)

(** ** Arithmetic of masks and conversions *)

Lemma land_0xFF x : Z.land x 0xFF = x mod 2 ^ 8.
Proof. change 0xFF with (Z.ones 8). apply Z.land_ones. lia. Qed.

Lemma land_0x3FF x : Z.land x 0x3FF = x mod 2 ^ 10.
Proof. change 0x3FF with (Z.ones 10). apply Z.land_ones. lia. Qed.

Lemma land_0xFFFF x : Z.land x 0xFFFF = x mod 2 ^ 16.
Proof. change 0xFFFF with (Z.ones 16). apply Z.land_ones. lia. Qed.

Lemma land_1 x : Z.land x 1 = x mod 2 ^ 1.
Proof. change 1 with (Z.ones 1) at 1. apply Z.land_ones. lia. Qed.

Ltac unmask :=
  rewrite ?land_0xFF, ?land_0x3FF, ?land_0xFFFF, ?land_1.

(** Bit-by-bit equality of two expressions built from shifts, masks and
    conversions. *)
Ltac bits :=
  unmask; Z.bitblast;
  repeat (cbn [negb andb orb];
          rewrite ?Z.testbit_neg_r by lia;
          progress Z.bitblast_core);
  cbn [negb andb orb];
  rewrite ?Z.testbit_neg_r by lia;
  try reflexivity.

Lemma byte_mod b : 0 <= b < 256 -> b mod 2 ^ 8 = b.
Proof. intros. apply Z.mod_small. lia. Qed.

Lemma word_mod w : 0 <= w < 65536 -> w mod 2 ^ 16 = w.
Proof. intros. apply Z.mod_small. lia. Qed.

Lemma mask10_range a : 0 <= Z.land a 0x3FF < 1024.
Proof. rewrite land_0x3FF. apply Z.mod_pos_bound. lia. Qed.

Lemma mask16_range a : 0 <= Z.land a 0xFFFF < 65536.
Proof. rewrite land_0xFFFF. apply Z.mod_pos_bound. lia. Qed.

Lemma u16_range x : 0 <= u16 x < 65536.
Proof. unfold u16. apply Z.mod_pos_bound. lia. Qed.

Lemma u8_range x : 0 <= u8 x < 256.
Proof. unfold u8. apply Z.mod_pos_bound. lia. Qed.

Lemma mask10_u16 a : Z.land (u16 a) 0x3FF = Z.land a 0x3FF.
Proof.
  rewrite !land_0x3FF. unfold u16.
  apply Z.mod_mod_divide. exists (2 ^ 6). reflexivity.
Qed.

Lemma mask10_add_1024 a k : Z.land (a + 1024 * k) 0x3FF = Z.land a 0x3FF.
Proof.
  rewrite !land_0x3FF. change (2 ^ 10) with 1024.
  rewrite (Z.mul_comm 1024 k). apply Z_mod_plus_full.
Qed.

(** ** The read response (C1) *)

(** C1. For all received bytes b0, b1, b2 the word [eeprom_read] computes
    from them equals the 24-bit receive buffer shifted right by 7 and masked
    to 16 bits. *)
Theorem read_data_is_spec_decode (b0 b1 b2 : Z) :
  0 <= b0 < 256 -> 0 <= b1 < 256 -> 0 <= b2 < 256 ->
  read_data b0 b1 b2 = spec_decode b0 b1 b2.
Proof.
  intros H0 H1 H2. unfold read_data, spec_decode, u16. unmask.
  rewrite <- (byte_mod b2 H2).
  Z.bitblast.
Qed.

Lemma read_data_is_spec_decode_witness :
  read_data 0xAB 0xCD 0x80 = spec_decode 0xAB 0xCD 0x80.
Proof. apply read_data_is_spec_decode; lia. Defined.

(** ** The device decodes the driver's frames *)

Lemma reassemble16 c :
  Z.lor (Z.shiftl (u8 (Z.shiftr c 8)) 8) (u8 (Z.land c 0xFF)) = c mod 2 ^ 16.
Proof. unfold u8. bits. Qed.

Lemma reassemble32 c :
  Z.lor (Z.lor (Z.shiftl (u8 (Z.land (Z.shiftr c 24) 0xFF)) 24)
               (Z.shiftl (u8 (Z.land (Z.shiftr c 16) 0xFF)) 16))
        (Z.lor (Z.shiftl (u8 (Z.land (Z.shiftr c 8) 0xFF)) 8)
               (u8 (Z.land c 0xFF))) = c mod 2 ^ 32.
Proof. unfold u8. bits. Qed.

Lemma read_cmd_fits addr : (u16 (read_cmd addr)) mod 2 ^ 16 = read_cmd addr.
Proof.
  unfold u16, read_cmd. change EEPROM_CMD_READ with (6 mod 2 ^ 3).
  bits.
Qed.

Lemma read_cmd_opcode addr : Z.shiftr (read_cmd addr) 10 = EEPROM_CMD_READ.
Proof. unfold read_cmd. bits. Qed.

Lemma read_cmd_addr addr : Z.land (read_cmd addr) 0x3FF = Z.land addr 0x3FF.
Proof. unfold read_cmd. bits. Qed.

Lemma erase_cmd_fits addr : (u16 (erase_cmd addr)) mod 2 ^ 16 = erase_cmd addr.
Proof.
  unfold u16, erase_cmd. change EEPROM_CMD_ERASE with (7 mod 2 ^ 3).
  bits.
Qed.

Lemma erase_cmd_not_read addr :
  (Z.shiftr (erase_cmd addr) 10 =? EEPROM_CMD_READ) = false.
Proof.
  apply Z.eqb_neq. intros H.
  assert (Hb : Z.testbit (Z.shiftr (erase_cmd addr) 10) 5 = true).
  { unfold erase_cmd. unmask. rewrite Z.shiftr_spec, Z.lor_spec by lia.
    rewrite Z.shiftl_spec by lia. reflexivity. }
  rewrite H in Hb. discriminate Hb.
Qed.

Lemma erase_cmd_opcode addr : Z.shiftr (erase_cmd addr) 13 = EEPROM_CMD_ERASE.
Proof. unfold erase_cmd. bits. Qed.

Lemma erase_cmd_addr addr :
  Z.land (Z.shiftr (erase_cmd addr) 3) 0x3FF = Z.land addr 0x3FF.
Proof. unfold erase_cmd. bits. Qed.

Lemma write_cmd_fits addr data :
  (u32 (write_cmd addr data)) mod 2 ^ 32 = write_cmd addr data.
Proof.
  unfold write_cmd. change (u32 EEPROM_CMD_WRITE) with (5 mod 2 ^ 3).
  unfold u32. bits.
Qed.

Lemma write_cmd_opcode addr data :
  Z.shiftr (write_cmd addr data) 26 = EEPROM_CMD_WRITE.
Proof.
  unfold write_cmd. change (u32 EEPROM_CMD_WRITE) with EEPROM_CMD_WRITE. bits.
Qed.

Lemma write_cmd_addr addr data :
  Z.land (Z.shiftr (write_cmd addr data) 16) 0x3FF = Z.land addr 0x3FF.
Proof.
  unfold write_cmd. change (u32 EEPROM_CMD_WRITE) with EEPROM_CMD_WRITE. bits.
Qed.

Lemma write_cmd_data addr data :
  Z.land (write_cmd addr data) 0xFFFF = Z.land data 0xFFFF.
Proof.
  unfold write_cmd. change (u32 EEPROM_CMD_WRITE) with EEPROM_CMD_WRITE. bits.
Qed.

Lemma dev_rx_read addr s :
  dev_rx (read_cmdbuf addr) s = latched addr s.
Proof.
  unfold read_cmdbuf, split16, dev_rx. fold (read_cmd addr).
  rewrite reassemble16, read_cmd_fits, read_cmd_opcode, read_cmd_addr.
  reflexivity.
Qed.

Lemma dev_rx_erase addr s :
  dev_rx (erase_cmdbuf addr) s = wiped addr s.
Proof.
  unfold erase_cmdbuf, split16, dev_rx. fold (erase_cmd addr).
  rewrite reassemble16, erase_cmd_fits, erase_cmd_not_read,
    erase_cmd_opcode, erase_cmd_addr.
  reflexivity.
Qed.

Lemma dev_rx_write addr data s :
  dev_rx (write_cmdbuf addr data) s = stored addr data s.
Proof.
  unfold write_cmdbuf, dev_rx. fold (write_cmd addr data).
  rewrite reassemble32, write_cmd_fits, write_cmd_opcode, write_cmd_addr,
    write_cmd_data.
  reflexivity.
Qed.

Lemma dev_rx_wen s : dev_rx wen_cmdbuf s = set_latch true s.
Proof. reflexivity. Qed.

Lemma dev_rx_wds s : dev_rx wds_cmdbuf s = set_latch false s.
Proof. reflexivity. Qed.

(** The three bytes the device answers with decode to the stored word. *)
Lemma read_data_dev_tx m a :
  read_data (dev_tx_byte m a 0) (dev_tx_byte m a 1) (dev_tx_byte m a 2) =
  u16 (m (Z.land a 0x3FF)).
Proof.
  unfold read_data, dev_tx_byte, dev_word_byte.
  change (1 - 1) with 0. change (2 - 1) with 1.
  change (1 / 2) with 0. change (0 / 2) with 0. change (2 / 2) with 1.
  cbn [Z.eqb Z.even]. rewrite Z.add_0_r.
  generalize (m (Z.land a 0x3FF)) (m (Z.land (a + 1) 0x3FF)). intros w w'.
  unfold u16. bits.
Qed.

(** ** What one device operation does *)

Lemma eeprom_write_enable_run cs_pin s :
  eeprom_write_enable cs_pin s =
  Ok tt (dev_rx wen_cmdbuf s)
     (cs_toggle cs_pin ++ [SpiWrite wen_cmdbuf; GpioPut cs_pin false; Delay250ns]).
Proof. reflexivity. Qed.

Lemma eeprom_write_disable_run cs_pin s :
  eeprom_write_disable cs_pin s =
  Ok tt (dev_rx wds_cmdbuf s)
     (cs_toggle cs_pin ++ [SpiWrite wds_cmdbuf; GpioPut cs_pin false; Delay250ns]).
Proof. reflexivity. Qed.

Lemma eeprom_write_run cs_pin addr data s :
  eeprom_write cs_pin addr data s =
  Ok tt (dev_rx (write_cmdbuf addr data) s)
     (cs_toggle cs_pin ++ [SpiWrite (write_cmdbuf addr data); SleepMs 7]
      ++ cs_toggle cs_pin).
Proof. reflexivity. Qed.

Lemma eeprom_erase_run cs_pin addr s :
  eeprom_erase cs_pin addr s =
  Ok tt (dev_rx (erase_cmdbuf addr) s)
     (cs_toggle cs_pin ++
      [SpiWrite (erase_cmdbuf addr); GpioPut cs_pin false; Delay250ns; SleepMs 4]).
Proof. reflexivity. Qed.

(** Running a sequence: the traces of the two parts are concatenated. *)
Lemma bind_run {A B} (m : M A) (f : A -> M B) s a s1 t1 b s2 t2 tr :
  m s = Ok a s1 t1 -> f a s1 = Ok b s2 t2 -> tr = t1 ++ t2 ->
  (m ≫= f) s = Ok b s2 tr.
Proof.
  intros Hm Hf ->. unfold mbind, M_bind, bind. rewrite Hm, Hf. reflexivity.
Qed.

Lemma bind_err {A B} (m : M A) (f : A -> M B) s e :
  m s = Err e -> (m ≫= f) s = Err e.
Proof. intros Hm. unfold mbind, M_bind, bind. rewrite Hm. reflexivity. Qed.

Lemma bind_run_err {A B} (m : M A) (f : A -> M B) s a s1 t1 e :
  m s = Ok a s1 t1 -> f a s1 = Err e -> (m ≫= f) s = Err e.
Proof.
  intros Hm Hf. unfold mbind, M_bind, bind. rewrite Hm, Hf. reflexivity.
Qed.

Lemma cs_select_run cs_pin s :
  cs_select cs_pin s = Ok tt s [GpioPut cs_pin true; Delay250ns].
Proof. reflexivity. Qed.

Lemma cs_deselect_run cs_pin s :
  cs_deselect cs_pin s = Ok tt s [GpioPut cs_pin false; Delay250ns].
Proof. reflexivity. Qed.

Lemma land_0x3FF_idem a : Z.land (Z.land a 0x3FF) 0x3FF = Z.land a 0x3FF.
Proof. rewrite <- Z.land_assoc. reflexivity. Qed.

Lemma unless_dump_toggle cs_pin s :
  unless_dump (cs_deselect cs_pin ;; cs_select cs_pin) s =
  Ok tt s (read_bracket cs_pin s).
Proof.
  unfold unless_dump, read_bracket, mbind, M_bind, bind, get_dump_flag.
  destruct (dump_flag s =? 0); reflexivity.
Qed.

Lemma eeprom_read_run cs_pin addr s :
  eeprom_read cs_pin addr s =
  Ok (u16 (mem s (Z.land addr 0x3FF))) (latched addr s)
     (read_bracket cs_pin s
      ++ [SpiWrite (read_cmdbuf addr); SpiRead (dev_tx (latched addr s) 3)]
      ++ read_bracket cs_pin s).
Proof.
  unfold eeprom_read.
  eapply bind_run; [apply unless_dump_toggle | | reflexivity].
  eapply bind_run with (t1 := [SpiWrite (read_cmdbuf addr)])
                       (s1 := latched addr s); [ | | reflexivity].
  { unfold spi_write_blocking.
    change (take (Z.to_nat 2) (read_cmdbuf addr)) with (read_cmdbuf addr).
    rewrite dev_rx_read. reflexivity. }
  eapply bind_run with (t1 := [SpiRead (dev_tx (latched addr s) 3)]);
    [reflexivity | | reflexivity].
  eapply bind_run; [reflexivity | | reflexivity].
  eapply bind_run; [reflexivity | | reflexivity].
  eapply bind_run; [reflexivity | | reflexivity].
  eapply bind_run; [apply unless_dump_toggle | | ].
  - unfold ret. rewrite read_data_dev_tx. cbn [latched latch_address raddr mem].
    rewrite land_0x3FF_idem. reflexivity.
  - cbn [latched latch_address dump_flag]. unfold read_bracket. cbn [latched dump_flag].
    rewrite !app_nil_r. reflexivity.
Qed.

Lemma eeprom_write_stores cs_pin addr data s :
  eeprom_write cs_pin addr data s =
  Ok tt (stored addr data s)
     (cs_toggle cs_pin ++ [SpiWrite (write_cmdbuf addr data); SleepMs 7]
      ++ cs_toggle cs_pin).
Proof. rewrite eeprom_write_run, dev_rx_write. reflexivity. Qed.

Lemma eeprom_erase_erases cs_pin addr s :
  eeprom_erase cs_pin addr s =
  Ok tt (wiped addr s)
     (cs_toggle cs_pin ++
      [SpiWrite (erase_cmdbuf addr); GpioPut cs_pin false; Delay250ns; SleepMs 4]).
Proof. rewrite eeprom_erase_run, dev_rx_erase. reflexivity. Qed.

Lemma frames_app t1 t2 : frames (t1 ++ t2) = frames t1 ++ frames t2.
Proof. unfold frames. apply flat_map_app. Qed.

Lemma frames_cs_toggle cs_pin : frames (cs_toggle cs_pin) = [].
Proof. reflexivity. Qed.

Lemma frames_read_bracket cs_pin s : frames (read_bracket cs_pin s) = [].
Proof. unfold read_bracket. destruct (dump_flag s =? 0); reflexivity. Qed.

Lemma sent_eeprom_read cs_pin addr s :
  sent (eeprom_read cs_pin addr) s = [read_cmdbuf addr].
Proof.
  unfold sent. rewrite eeprom_read_run. cbn [trace_of].
  rewrite !frames_app, frames_read_bracket. reflexivity.
Qed.

Lemma sent_eeprom_write cs_pin addr data s :
  sent (eeprom_write cs_pin addr data) s = [write_cmdbuf addr data].
Proof. reflexivity. Qed.

Lemma sent_eeprom_erase cs_pin addr s :
  sent (eeprom_erase cs_pin addr) s = [erase_cmdbuf addr].
Proof. reflexivity. Qed.

(** ** The write frame of the scenario (C2) *)

(** C2, as stated, fails: the frame [eeprom_write] transmits for address
    0x10 and data 0xDEAD, and the MSB-first bytes of
    (0b101<<26) | (0x10<<16) | 0xDEAD, are not 0x94 0x10 0xDE 0xAD. *)
Lemma write_0x10_0xDEAD_is_not_0x94 :
  sent (eeprom_write 17 0x10 0xDEAD) init_state <> [[0x94; 0x10; 0xDE; 0xAD]]
  /\ msb_first4 (spec_write_cmd 0x10 0xDEAD) <> [0x94; 0x10; 0xDE; 0xAD].
Proof. split; intros H; discriminate H. Qed.

(** C2, amended. The frame [eeprom_write] transmits for address 0x10 and
    data 0xDEAD is the MSB-first byte sequence of
    (0b101<<26) | (0x10<<16) | 0xDEAD, and that sequence is
    0x14 0x10 0xDE 0xAD. *)
Theorem write_0x10_0xDEAD_frame (cs_pin : Z) (s : state) :
  sent (eeprom_write cs_pin 0x10 0xDEAD) s
    = [msb_first4 (spec_write_cmd 0x10 0xDEAD)]
  /\ msb_first4 (spec_write_cmd 0x10 0xDEAD) = [0x14; 0x10; 0xDE; 0xAD].
Proof. split; reflexivity. Qed.

(** ** Settle delay and the closing deassert (C3) *)

(** C3, as stated, fails for EraseWord: [eeprom_erase] deasserts chip
    select first and waits afterwards. *)
Lemma erase_settle_not_before_close :
  settle_before_close 4 (trace_of (eeprom_erase 17 0x10 init_state)) = false.
Proof. reflexivity. Qed.

(** C3, amended. In every WriteWord transaction the 7 ms settle delay lies
    after the bus transfer and before the closing chip-select deassert; in
    every EraseWord transaction the 4 ms settle delay lies after the bus
    transfer and after the closing chip-select deassert. *)
Theorem settle_delay_order (cs_pin addr data : Z) (s : state) :
  (trace_of (eeprom_write cs_pin addr data s)
     = cs_toggle cs_pin
       ++ [SpiWrite (write_cmdbuf addr data); SleepMs 7;
           GpioPut cs_pin false; Delay250ns; GpioPut cs_pin true; Delay250ns]
   /\ settle_before_close 7 (trace_of (eeprom_write cs_pin addr data s)) = true)
  /\
  (trace_of (eeprom_erase cs_pin addr s)
     = cs_toggle cs_pin
       ++ [SpiWrite (erase_cmdbuf addr);
           GpioPut cs_pin false; Delay250ns; SleepMs 4]
   /\ settle_after_close 4 (trace_of (eeprom_erase cs_pin addr s)) = true).
Proof. repeat split; reflexivity. Qed.

(** ** Address masking (C5) *)

Lemma read_cmdbuf_mask a b :
  Z.land a 0x3FF = Z.land b 0x3FF -> read_cmdbuf a = read_cmdbuf b.
Proof. unfold read_cmdbuf. intros ->. reflexivity. Qed.

Lemma write_cmdbuf_mask a b data :
  Z.land a 0x3FF = Z.land b 0x3FF -> write_cmdbuf a data = write_cmdbuf b data.
Proof. unfold write_cmdbuf. intros ->. reflexivity. Qed.

Lemma erase_cmdbuf_mask a b :
  Z.land a 0x3FF = Z.land b 0x3FF -> erase_cmdbuf a = erase_cmdbuf b.
Proof. unfold erase_cmdbuf. intros ->. reflexivity. Qed.

Lemma mask10_u16_add_1024 a k :
  Z.land (u16 (a + 1024 * k)) 0x3FF = Z.land (u16 a) 0x3FF.
Proof. rewrite !mask10_u16. apply mask10_add_1024. Qed.

(** C5. For every address, every k and each of ReadWord, WriteWord and
    EraseWord, the frame transmitted for address addr + 1024*k is the frame
    transmitted for addr; the same holds when the two addresses first pass
    through the conversion to the functions' [uint16_t] parameter. *)
Theorem frame_address_mod_1024 (cs_pin addr k data : Z) (s : state) :
  (sent (eeprom_read cs_pin (addr + 1024 * k)) s = sent (eeprom_read cs_pin addr) s
   /\ sent (eeprom_write cs_pin (addr + 1024 * k) data) s
      = sent (eeprom_write cs_pin addr data) s
   /\ sent (eeprom_erase cs_pin (addr + 1024 * k)) s
      = sent (eeprom_erase cs_pin addr) s)
  /\
  (sent (eeprom_read cs_pin (u16 (addr + 1024 * k))) s
     = sent (eeprom_read cs_pin (u16 addr)) s
   /\ sent (eeprom_write cs_pin (u16 (addr + 1024 * k)) data) s
      = sent (eeprom_write cs_pin (u16 addr) data) s
   /\ sent (eeprom_erase cs_pin (u16 (addr + 1024 * k))) s
      = sent (eeprom_erase cs_pin (u16 addr)) s).
Proof.
  rewrite !sent_eeprom_read, !sent_eeprom_write, !sent_eeprom_erase.
  pose proof (mask10_add_1024 addr k) as H1.
  pose proof (mask10_u16_add_1024 addr k) as H2.
  rewrite (read_cmdbuf_mask _ _ H1), (write_cmdbuf_mask _ _ data H1),
    (erase_cmdbuf_mask _ _ H1), (read_cmdbuf_mask _ _ H2),
    (write_cmdbuf_mask _ _ data H2), (erase_cmdbuf_mask _ _ H2).
  repeat split.
Qed.

(** ** Frame widths (C7) *)

(** C7. The frames transmitted by [eeprom_write_enable],
    [eeprom_write_disable], [eeprom_erase] and the command phase of
    [eeprom_read] are exactly 2 bytes long, and the frame transmitted by
    [eeprom_write] is exactly 4 bytes long, for every address, data value
    and state. *)
Theorem frame_widths (cs_pin addr data : Z) (s : state) :
  map length (sent (eeprom_write_enable cs_pin) s) = [2%nat]
  /\ map length (sent (eeprom_write_disable cs_pin) s) = [2%nat]
  /\ map length (sent (eeprom_erase cs_pin addr) s) = [2%nat]
  /\ map length (sent (eeprom_read cs_pin addr) s) = [2%nat]
  /\ map length (sent (eeprom_write cs_pin addr data) s) = [4%nat].
Proof.
  rewrite sent_eeprom_read, sent_eeprom_write, sent_eeprom_erase.
  repeat split.
Qed.

(** ** Actions that leave the dump flag alone *)

Lemma bind_inv {A B} (m : M A) (f : A -> M B) s b s2 tr :
  (m ≫= f) s = Ok b s2 tr ->
  exists a s1 t1 t2, m s = Ok a s1 t1 /\ f a s1 = Ok b s2 t2 /\ tr = t1 ++ t2.
Proof.
  unfold mbind, M_bind, bind. intros H.
  destruct (m s) as [a s1 t1 | e]; [ | discriminate H].
  destruct (f a s1) as [b' s2' t2 | e] eqn:Hf; [ | discriminate H].
  inversion H; subst. exists a, s1, t1, t2. auto.
Qed.

Lemma keeps_flag_ret {A} (a : A) : keeps_flag (ret a).
Proof. intros s a' s' tr H. inversion H; subst. reflexivity. Qed.

Lemma keeps_flag_raise {A} e : keeps_flag (@raise A e).
Proof. intros s a s' tr H. discriminate H. Qed.

Lemma keeps_flag_bind {A B} (m : M A) (f : A -> M B) :
  keeps_flag m -> (forall a, keeps_flag (f a)) -> keeps_flag (m ≫= f).
Proof.
  intros Hm Hf s b s2 tr H.
  apply bind_inv in H as (a & s1 & t1 & t2 & H1 & H2 & _).
  rewrite (Hf _ _ _ _ _ H2). exact (Hm _ _ _ _ H1).
Qed.

Lemma keeps_flag_emit e : keeps_flag (emit e).
Proof. intros s a s' tr H. inversion H; subst. reflexivity. Qed.

Lemma keeps_flag_get : keeps_flag get_dump_flag.
Proof. intros s a s' tr H. inversion H; subst. reflexivity. Qed.

Lemma keeps_flag_load a i : keeps_flag (load a i).
Proof.
  unfold load. destruct (a !! Z.to_nat i);
    [apply keeps_flag_ret | apply keeps_flag_raise].
Qed.

Lemma keeps_flag_store a i v : keeps_flag (store a i v).
Proof.
  unfold store. destruct (bool_decide _);
    [apply keeps_flag_ret | apply keeps_flag_raise].
Qed.

Lemma dev_rx_flag bytes s : dump_flag (dev_rx bytes s) = dump_flag s.
Proof.
  unfold dev_rx.
  repeat (destruct bytes as [ | ? bytes]; try reflexivity);
    repeat match goal with
           | |- context [if ?c then _ else _] => destruct c
           end; reflexivity.
Qed.

Lemma keeps_flag_spi_write src len : keeps_flag (spi_write_blocking src len).
Proof.
  intros s a s' tr H. unfold spi_write_blocking in H.
  destruct (bool_decide _); inversion H; subst. apply dev_rx_flag.
Qed.

Lemma keeps_flag_spi_read tx dst len : keeps_flag (spi_read_blocking tx dst len).
Proof.
  intros s a s' tr H. unfold spi_read_blocking in H.
  destruct (bool_decide _); inversion H; subst. reflexivity.
Qed.

(** Decompose an action into its parts. *)
Ltac keeps :=
  repeat first
    [ assumption
    | match goal with H : forall _, _ |- _ => apply H end
    | apply keeps_flag_ret | apply keeps_flag_raise | apply keeps_flag_emit
    | apply keeps_flag_get | apply keeps_flag_load | apply keeps_flag_store
    | apply keeps_flag_spi_write | apply keeps_flag_spi_read
    | apply keeps_flag_bind; [ | intros ? ]
    | match goal with
      | |- keeps_flag (if ?c then _ else _) => destruct c
      | |- keeps_flag (let '(_, _) := ?p in _) => destruct p
      | |- keeps_flag (match ?p with (_, _) => _ end) => destruct p
      end ].

Lemma keeps_flag_cs_select cs_pin : keeps_flag (cs_select cs_pin).
Proof. unfold cs_select, gpio_put, delay_250ns. keeps. Qed.

Lemma keeps_flag_cs_deselect cs_pin : keeps_flag (cs_deselect cs_pin).
Proof. unfold cs_deselect, gpio_put, delay_250ns. keeps. Qed.


Lemma keeps_flag_sleep ms : keeps_flag (sleep_ms ms).
Proof. apply keeps_flag_emit. Qed.



Lemma keeps_flag_read cs_pin addr : keeps_flag (eeprom_read cs_pin addr).
Proof.
  intros s a s' tr H. rewrite eeprom_read_run in H. inversion H; subst.
  reflexivity.
Qed.





Lemma keeps_flag_dump_loop fuel cs_pin addr :
  keeps_flag (eeprom_dump_loop fuel cs_pin addr).
Proof.
  revert addr. induction fuel as [ | fuel IH]; intros addr; cbn [eeprom_dump_loop].
  - keeps.
  - pose proof (keeps_flag_cs_select cs_pin).
    pose proof (keeps_flag_cs_deselect cs_pin).
    pose proof (fun a => keeps_flag_read cs_pin a). keeps.
Qed.

Lemma keeps_flag_copy_loop fuel cs_pin addr buf :
  keeps_flag (eeprom_copy_loop fuel cs_pin addr buf).
Proof.
  revert addr buf. induction fuel as [ | fuel IH]; intros addr buf;
    cbn [eeprom_copy_loop].
  - keeps.
  - pose proof (keeps_flag_cs_select cs_pin).
    pose proof (keeps_flag_cs_deselect cs_pin).
    pose proof (fun a => keeps_flag_read cs_pin a). keeps.
Qed.
















(** ** Running the bulk loops *)

Lemma load_run buf i w s : buf !! Z.to_nat i = Some w -> load buf i s = Ok w s [].
Proof. unfold load. intros ->. reflexivity. Qed.

Lemma load_word_run buf i s :
  (Z.to_nat i < length buf)%nat -> load buf i s = Ok (word buf i) s [].
Proof.
  intros H. destruct (lookup_lt_is_Some_2 buf _ H) as [w Hw].
  unfold word. rewrite (load_run _ _ _ _ Hw), Hw. reflexivity.
Qed.

Lemma store_run buf i v s :
  (Z.to_nat i < length buf)%nat ->
  store buf i v s = Ok (<[Z.to_nat i := v]> buf) s [].
Proof. unfold store. intros H. rewrite bool_decide_eq_true_2 by exact H. reflexivity. Qed.

Lemma mask10_small a : 0 <= a < 1024 -> Z.land a 0x3FF = a.
Proof. intros. rewrite land_0x3FF. apply Z.mod_small. lia. Qed.

Lemma u16_small a : 0 <= a < 65536 -> u16 a = a.
Proof. intros. unfold u16. apply Z.mod_small. lia. Qed.

Lemma u32_small a : 0 <= a < 4294967296 -> u32 a = a.
Proof. intros. unfold u32. apply Z.mod_small. lia. Qed.

Lemma upd_same m a w : upd m a w a = w.
Proof. unfold upd. rewrite Z.eqb_refl. reflexivity. Qed.

Lemma upd_other m a w x : x <> a -> upd m a w x = m x.
Proof. unfold upd. intros H. destruct (Z.eqb_spec x a); [contradiction | reflexivity]. Qed.

Section Loops.
Variable cs_pin : Z.

Lemma eeprom_paste_loop_run buf : forall n fuel addr s,
  (n < fuel)%nat -> addr = 1024 - Z.of_nat n -> (n <= 1024)%nat ->
  (1024 <= length buf)%nat ->
  exists s',
    eeprom_paste_loop fuel cs_pin addr buf s
      = Ok tt s' (flat_map (fun a => write_events cs_pin a (word buf a)) (addrs addr n))
    /\ dump_flag s' = dump_flag s /\ raddr s' = raddr s /\ wen s' = wen s
    /\ (forall a, addr <= a < 1024 ->
          mem s' a = if wen s then Z.land (word buf a) 0xFFFF else mem s a)
    /\ (forall a, ~ addr <= a < 1024 -> mem s' a = mem s a).
Proof.
  induction n as [ | n IH]; intros fuel addr s Hfuel Haddr Hn Hlen;
    (destruct fuel as [ | fuel]; [lia | ]); cbn [eeprom_paste_loop].
  - subst addr. exists s. cbn. repeat split; intros; lia.
  - rewrite (proj2 (Z.leb_le addr 0x3FF)) by lia.
    destruct (IH fuel (addr + 1) (stored addr (word buf addr) s))
      as (s' & Hrun & Hf & Hr & Hw & Hin & Hout); try lia.
    cbn [stored program wen] in Hw, Hin.
    exists s'. split; [ | repeat split].
    + eapply bind_run; [apply load_word_run; lia | | reflexivity].
      eapply bind_run; [apply eeprom_write_stores | | reflexivity].
      rewrite u16_small by lia. exact Hrun.
    + rewrite Hf. reflexivity.
    + rewrite Hr. reflexivity.
    + exact Hw.
    + intros a Ha. destruct (Z.eq_dec a addr) as [-> | Hne].
      * rewrite Hout by lia. cbn [stored program wen mem].
        destruct (wen s); [ | reflexivity].
        rewrite mask10_small by lia. apply upd_same.
      * rewrite Hin by lia. destruct (wen s); [reflexivity | ].
        cbn [stored program mem]. 
        match goal with |- context [if ?b then _ else _] => destruct b end;
          [apply upd_other; rewrite mask10_small by lia; lia | reflexivity].
    + intros a Ha. rewrite Hout by lia. cbn [stored program wen mem].
      destruct (wen s); [ | reflexivity].
      rewrite mask10_small by lia. apply upd_other. lia.
Qed.

Lemma eeprom_copy_loop_run : forall n fuel addr buf s,
  (n < fuel)%nat -> addr = 1024 - Z.of_nat n -> (n <= 1024)%nat ->
  (1024 <= length buf)%nat ->
  exists buf' s' tr,
    eeprom_copy_loop fuel cs_pin addr buf s = Ok buf' s' tr
    /\ dump_flag s' = dump_flag s /\ mem s' = mem s
    /\ length buf' = length buf
    /\ (forall a, addr <= a < 1024 -> buf' !! Z.to_nat a = Some (u16 (mem s a)))
    /\ (forall a, 0 <= a < addr -> buf' !! Z.to_nat a = buf !! Z.to_nat a).
Proof.
  induction n as [ | n IH]; intros fuel addr buf s Hfuel Haddr Hn Hlen;
    (destruct fuel as [ | fuel]; [lia | ]); cbn [eeprom_copy_loop].
  - subst addr. exists buf, s, []. cbn. repeat split; intros; lia.
  - rewrite (proj2 (Z.leb_le addr 0x3FF)) by lia.
    set (data := u16 (mem s addr)).
    destruct (IH fuel (addr + 1) (<[Z.to_nat addr := data]> buf) (latched addr s))
      as (buf' & s' & tr & Hrun & Hf & Hm & Hl & Hin & Hout);
      try lia; [rewrite length_insert; lia | ].
    exists buf', s'. eexists. split; [ | repeat split].
    + eapply bind_run; [apply cs_deselect_run | | reflexivity].
      eapply bind_run; [apply cs_select_run | | reflexivity].
      eapply bind_run; [apply eeprom_read_run | | reflexivity].
      rewrite mask10_small by lia. fold data.
      eapply bind_run; [apply store_run; lia | | reflexivity].
      rewrite u16_small by lia. exact Hrun.
    + rewrite Hf. reflexivity.
    + rewrite Hm. reflexivity.
    + rewrite Hl. apply length_insert.
    + intros a Ha. destruct (Z.eq_dec a addr) as [-> | Hne].
      * rewrite Hout by lia. apply list_lookup_insert_eq. lia.
      * rewrite Hin by lia. reflexivity.
    + intros a Ha. rewrite Hout by lia. apply list_lookup_insert_ne. lia.
Qed.
End Loops.


Section MoreLoops.
Variable cs_pin : Z.

Lemma eeprom_dump_loop_run : forall n fuel addr s,
  (n < fuel)%nat -> addr = 1024 - Z.of_nat n -> (n <= 1024)%nat ->
  dump_flag s <> 0 ->
  exists s',
    eeprom_dump_loop fuel cs_pin addr s
      = Ok tt s' (flat_map (fun a => cs_toggle cs_pin ++ read_events (mem s) a)
                           (addrs addr n))
    /\ mem s' = mem s.
Proof.
  induction n as [ | n IH]; intros fuel addr s Hfuel Haddr Hn Hflag;
    (destruct fuel as [ | fuel]; [lia | ]); cbn [eeprom_dump_loop].
  - subst addr. exists s. cbn. split; reflexivity.
  - rewrite (proj2 (Z.leb_le addr 0x3FF)) by lia.
    destruct (IH fuel (addr + 1) (latched addr s)) as (s' & Hrun & Hm);
      try lia; [exact Hflag | ].
    exists s'. split; [ | exact Hm].
    eapply bind_run; [apply cs_deselect_run | | reflexivity].
    eapply bind_run; [apply cs_select_run | | reflexivity].
    eapply bind_run; [apply eeprom_read_run | | ].
    + rewrite u16_small by lia. exact Hrun.
    + unfold read_bracket. rewrite (proj2 (Z.eqb_neq _ _) Hflag).
      cbn [addrs flat_map latched latch_address mem]. rewrite app_nil_r. reflexivity.
Qed.

Lemma eeprom_write_buf_loop_run start_addr buf len : forall n fuel i s,
  (n < fuel)%nat -> i = len - Z.of_nat n -> 0 <= i -> len < 2 ^ 32 ->
  (Z.to_nat len <= length buf)%nat ->
  exists s',
    eeprom_write_buf_loop fuel cs_pin start_addr buf len i s
      = Ok tt s'
           (flat_map (fun i => write_events cs_pin (u16 (u32 (start_addr + i)))
                                            (word buf i)
                               ++ [GpioPut cs_pin true; Delay250ns])
                     (addrs i n)).
Proof.
  induction n as [ | n IH]; intros fuel i s Hfuel Hi Hi0 Hlen Hbuf;
    (destruct fuel as [ | fuel]; [lia | ]); cbn [eeprom_write_buf_loop].
  - rewrite (proj2 (Z.ltb_ge i len)) by lia. exists s. reflexivity.
  - rewrite (proj2 (Z.ltb_lt i len)) by lia.
    destruct (IH fuel (i + 1)
                 (stored (u16 (u32 (start_addr + i))) (word buf i) s))
      as (s' & Hrun); try lia.
    exists s'.
    eapply bind_run; [apply load_word_run; lia | | reflexivity].
    eapply bind_run; [apply eeprom_write_stores | | ].
    + eapply bind_run; [apply cs_select_run | | reflexivity].
      rewrite u32_small by lia. exact Hrun.
    + cbn [addrs flat_map]. unfold write_events.
      rewrite <- !app_assoc. reflexivity.
Qed.
End MoreLoops.

Lemma eeprom_dump_run cs_pin s :
  exists s',
    eeprom_dump cs_pin s
      = Ok tt s' (flat_map (fun a => cs_toggle cs_pin ++ read_events (mem s) a)
                           (addrs 0 1024))
    /\ dump_flag s' = 0 /\ mem s' = mem s.
Proof.
  destruct (eeprom_dump_loop_run cs_pin 1024 1025 0 (set_dump_flag 1 s))
    as (s' & Hrun & Hm); try lia; [cbn; lia | ].
  exists (set_dump_flag 0 s'). split; [ | split; [reflexivity | exact Hm]].
  unfold eeprom_dump.
  eapply bind_run; [reflexivity | | reflexivity].
  eapply bind_run; [exact Hrun | reflexivity | ].
  rewrite app_nil_r. reflexivity.
Qed.

(** ** The dump flag across the public operations (C9) *)



(** ** Copy then paste (C6) *)

(** C6. Over the reference device, with every stored word a 16-bit value:
    [eeprom_copy] into a buffer of 1024 words followed by [eeprom_paste]
    from that buffer both return, and leave the word stored at every
    address unchanged. *)
Theorem copy_then_paste_preserves_memory (cs_pin : Z) (buf : list Z) (s : state) :
  (1024 <= length buf)%nat ->
  (forall a, 0 <= a < 1024 -> 0 <= mem s a < 65536) ->
  exists buf' s1 tr1 s2 tr2,
    eeprom_copy cs_pin buf s = Ok buf' s1 tr1
    /\ eeprom_paste cs_pin buf' s1 = Ok tt s2 tr2
    /\ forall a, mem s2 a = mem s a.
Proof.
  intros Hlen Hword.
  destruct (eeprom_copy_loop_run cs_pin 1024 1025 0 buf (set_dump_flag 1 s))
    as (buf' & s1 & tr1 & Hcopy & _ & Hm1 & Hl1 & Hin1 & _); try lia.
  destruct (eeprom_paste_loop_run cs_pin buf' 1024 1025 0 (set_dump_flag 0 s1))
    as (s2 & Hpaste & _ & _ & _ & Hin2 & Hout2); try lia.
  exists buf', (set_dump_flag 0 s1). do 3 eexists.
  split; [ | split; [exact Hpaste | ]].
  - unfold eeprom_copy.
    eapply bind_run; [reflexivity | | reflexivity].
    eapply bind_run; [exact Hcopy | | reflexivity].
    eapply bind_run; [reflexivity | reflexivity | reflexivity].
  - intros a. destruct (Z_le_gt_dec 0 a) as [H0 | H0];
      [destruct (Z_lt_ge_dec a 1024) as [H1 | H1] | ].
    + rewrite Hin2 by lia. cbn [set_dump_flag mem wen]. rewrite Hm1.
      destruct (wen s1); [ | reflexivity].
      unfold word. rewrite Hin1 by lia.
      cbn [default id set_dump_flag mem]. rewrite land_0xFFFF.
      rewrite (u16_small (mem s a)) by (apply Hword; lia).
      apply word_mod, Hword. lia.
    + rewrite Hout2 by lia. cbn [set_dump_flag mem]. rewrite Hm1. reflexivity.
    + rewrite Hout2 by lia. cbn [set_dump_flag mem]. rewrite Hm1. reflexivity.
Qed.

Lemma copy_then_paste_preserves_memory_witness :
  exists buf' s1 tr1 s2 tr2,
    eeprom_copy 17 (repeat 0 1024) init_state = Ok buf' s1 tr1
    /\ eeprom_paste 17 buf' s1 = Ok tt s2 tr2
    /\ forall a, mem s2 a = mem init_state a.
Proof.
  apply copy_then_paste_preserves_memory.
  - rewrite repeat_length. lia.
  - intros a _. unfold init_state, erased. simpl. lia.
Defined.

(** ** Paste and write-buffer (C10) *)

Lemma frames_flat_map {A} (f : A -> list event) (l : list A) :
  frames (flat_map f l) = flat_map (fun a => frames (f a)) l.
Proof.
  induction l as [ | a l IH]; [reflexivity | ].
  cbn [flat_map]. rewrite frames_app, IH. reflexivity.
Qed.

Lemma bus_only_flat_map {A} (f : A -> list event) (l : list A) :
  bus_only (flat_map f l) = flat_map (fun a => bus_only (f a)) l.
Proof.
  induction l as [ | a l IH]; [reflexivity | ].
  cbn [flat_map]. unfold bus_only in *. rewrite List.filter_app, IH. reflexivity.
Qed.

Lemma flat_map_singleton {A B} (f : A -> B) (l : list A) :
  flat_map (fun a => [f a]) l = map f l.
Proof. induction l as [ | a l IH]; [reflexivity | ]. cbn. rewrite IH. reflexivity. Qed.

Lemma write_events_mask cs_pin a b w :
  Z.land a 0x3FF = Z.land b 0x3FF -> write_events cs_pin a w = write_events cs_pin b w.
Proof. intros H. unfold write_events. rewrite (write_cmdbuf_mask a b w H). reflexivity. Qed.

Lemma mask10_u16_u32 a : Z.land (u16 (u32 a)) 0x3FF = Z.land a 0x3FF.
Proof.
  rewrite mask10_u16. rewrite !land_0x3FF. unfold u32.
  apply Z.mod_mod_divide. exists (2 ^ 22). reflexivity.
Qed.

Lemma addrs_length a n : length (addrs a n) = n.
Proof. revert a. induction n as [ | n IH]; intros a; cbn; [ | rewrite IH]; reflexivity. Qed.

(** C10. For every buffer of 1024 words, [eeprom_paste] and
    [eeprom_write_buf] from address 0 with length 1024 both return and
    transmit the same frames: the 1024 write frames of addresses 0 to 1023
    in ascending order, each 4 bytes long.  Their traces are the per-word
    traces of [eeprom_write], with one more chip-select assert after each
    word in [eeprom_write_buf]; without the chip-select events the two
    traces are equal. *)
Theorem paste_and_write_buf_same_frames (cs_pin : Z) (buf : list Z) (s : state) :
  length buf = 1024%nat ->
  exists sp tp sw tw,
    eeprom_paste cs_pin buf s = Ok tt sp tp
    /\ eeprom_write_buf cs_pin 0 buf 1024 s = Ok tt sw tw
    /\ frames tp = map (fun a => write_cmdbuf a (word buf a)) (addrs 0 1024)
    /\ frames tw = frames tp
    /\ length (frames tp) = 1024%nat
    /\ Forall (fun f => length f = 4%nat) (frames tp)
    /\ tp = flat_map (fun a => write_events cs_pin a (word buf a)) (addrs 0 1024)
    /\ tw = flat_map (fun a => write_events cs_pin a (word buf a)
                               ++ [GpioPut cs_pin true; Delay250ns])
                     (addrs 0 1024)
    /\ bus_only tw = bus_only tp.
Proof.
  intros Hlen.
  destruct (eeprom_paste_loop_run cs_pin buf 1024 1025 0 s)
    as (sp & Hp & _); try lia.
  destruct (eeprom_write_buf_loop_run cs_pin 0 buf 1024 1024 1025 0 s)
    as (sw & Hw); try lia.
  assert (Hmap : forall l : list Z,
    flat_map (fun i => write_events cs_pin (u16 (u32 (0 + i))) (word buf i)
                       ++ [GpioPut cs_pin true; Delay250ns]) l
    = flat_map (fun a => write_events cs_pin a (word buf a)
                         ++ [GpioPut cs_pin true; Delay250ns]) l).
  { intros l. apply flat_map_ext. intros a. f_equal.
    apply write_events_mask. rewrite mask10_u16_u32. reflexivity. }
  rewrite Hmap in Hw.
  assert (Hfp : frames (flat_map (fun a => write_events cs_pin a (word buf a))
                                 (addrs 0 1024))
                = map (fun a => write_cmdbuf a (word buf a)) (addrs 0 1024)).
  { rewrite frames_flat_map. apply flat_map_singleton. }
  do 4 eexists.
  split; [exact Hp | ]. split; [exact Hw | ].
  split; [exact Hfp | ].
  split; [rewrite Hfp, frames_flat_map; apply flat_map_singleton | ].
  split; [rewrite Hfp, length_map; apply addrs_length | ].
  split; [rewrite Hfp; apply Forall_map, Forall_forall; intros; reflexivity | ].
  split; [reflexivity | ]. split; [reflexivity | ].
  rewrite !bus_only_flat_map. reflexivity.
Qed.

Lemma paste_and_write_buf_same_frames_witness :
  exists sp tp sw tw,
    eeprom_paste 17 (repeat 0xBEEF 1024) init_state = Ok tt sp tp
    /\ eeprom_write_buf 17 0 (repeat 0xBEEF 1024) 1024 init_state = Ok tt sw tw
    /\ frames tp = map (fun a => write_cmdbuf a (word (repeat 0xBEEF 1024) a))
                       (addrs 0 1024)
    /\ frames tw = frames tp
    /\ length (frames tp) = 1024%nat
    /\ Forall (fun f => length f = 4%nat) (frames tp)
    /\ tp = flat_map (fun a => write_events 17 a (word (repeat 0xBEEF 1024) a))
                     (addrs 0 1024)
    /\ tw = flat_map (fun a => write_events 17 a (word (repeat 0xBEEF 1024) a)
                               ++ [GpioPut 17 true; Delay250ns])
                     (addrs 0 1024)
    /\ bus_only tw = bus_only tp.
Proof.
  apply paste_and_write_buf_same_frames. apply repeat_length.
Defined.

(** ** Strings (C4, C8) *)

Lemma pair_ind {A} (P : list A -> Prop) :
  P [] -> (forall a, P [a]) -> (forall a b l, P l -> P (a :: b :: l)) ->
  forall l, P l.
Proof.
  intros H0 H1 H2 l.
  enough (H : P l /\ forall a, P (a :: l)) by apply H.
  induction l as [ | b l [IH1 IH2]]; split; auto.
Qed.

Lemma unpack_hi c0 c1 :
  0 <= c0 < 256 -> 0 <= c1 < 256 ->
  u8 (Z.shiftr (u16 (Z.land (pack_word c0 c1) 0xFFFF)) 8) = c0.
Proof.
  intros H0 H1. unfold pack_word, u8, u16.
  rewrite <- (byte_mod c0 H0) at 2. rewrite <- (byte_mod c1 H1). bits.
Qed.

Lemma unpack_lo c0 c1 :
  0 <= c0 < 256 -> 0 <= c1 < 256 ->
  u8 (Z.land (u16 (Z.land (pack_word c0 c1) 0xFFFF)) 0xFF) = c1.
Proof.
  intros H0 H1. unfold pack_word, u8, u16.
  rewrite <- (byte_mod c1 H1) at 2. bits.
Qed.

Lemma mask10_u16_add a j : Z.land (u16 a + j) 0x3FF = Z.land (a + j) 0x3FF.
Proof.
  rewrite !land_0x3FF. unfold u16.
  rewrite (Z.add_mod (a mod 2 ^ 16) j), (Z.add_mod a j) by lia.
  rewrite (Z.mod_mod_divide a (2 ^ 16) (2 ^ 10)); [reflexivity | ].
  exists (2 ^ 6). reflexivity.
Qed.

Lemma mask10_distinct a j :
  0 < j < 1024 -> Z.land (a + j) 0x3FF <> Z.land a 0x3FF.
Proof.
  intros Hj. rewrite !land_0x3FF. change (2 ^ 10) with 1024.
  intros H. Z.div_mod_to_equations. lia.
Qed.

Lemma store_words_other ws : forall m a x,
  (forall j, 0 <= j < Z.of_nat (length ws) -> Z.land (a + j) 0x3FF <> x) ->
  store_words m a ws x = m x.
Proof.
  induction ws as [ | w ws IH]; intros m a x Hx; cbn [store_words]; [reflexivity | ].
  rewrite IH.
  - apply upd_other. specialize (Hx 0). rewrite Z.add_0_r in Hx.
    intros ->. apply Hx; [ | reflexivity]. cbn [length]. lia.
  - intros j Hj. rewrite mask10_u16_add.
    replace (a + 1 + j) with (a + (j + 1)) by lia. apply Hx. cbn [length]. lia.
Qed.

Lemma store_words_lookup ws : forall m a j,
  (length ws <= 1024)%nat -> (j < length ws)%nat ->
  store_words m a ws (Z.land (a + Z.of_nat j) 0x3FF)
  = Z.land (nth j ws 0) 0xFFFF.
Proof.
  induction ws as [ | w ws IH]; intros m a j Hlen Hj; cbn [length] in *; [lia | ].
  cbn [store_words]. destruct j as [ | j].
  - cbn [nth Z.of_nat]. rewrite Z.add_0_r, store_words_other; [apply upd_same | ].
    intros j Hj'. rewrite mask10_u16_add.
    replace (a + 1 + j) with (a + (j + 1)) by lia. apply mask10_distinct. lia.
  - cbn [nth]. rewrite <- (IH (upd m (Z.land a 0x3FF) (Z.land w 0xFFFF)) (u16 (a + 1)) j)
      by lia.
    f_equal. rewrite mask10_u16_add. f_equal. lia.
Qed.

Lemma pack_length s : (length (pack s) <= length s)%nat
                      /\ (2 * length (pack s) <= length s + 1)%nat.
Proof.
  induction s as [ | | a b l IH] using pair_ind; cbn [pack length]; lia.
Qed.

Lemma load_middle pre x rest i st :
  Z.of_nat (length pre) = i -> load (pre ++ x :: rest) i st = Ok x st [].
Proof.
  intros <-. apply load_run. rewrite Nat2Z.id. apply list_lookup_middle. reflexivity.
Qed.

Lemma load_middle2 pre x y rest i st :
  Z.of_nat (length pre) = i -> i + 1 < 2 ^ 32 ->
  load (pre ++ x :: y :: rest) (u32 (i + 1)) st = Ok y st [].
Proof.
  intros Hi Hlt. rewrite u32_small by lia.
  replace (pre ++ x :: y :: rest) with ((pre ++ [x]) ++ y :: rest)
    by (rewrite <- app_assoc; reflexivity).
  apply load_middle. rewrite length_app. cbn [length]. lia.
Qed.

Lemma is_char_nonzero c : is_char c -> (c =? 0) = false.
Proof. unfold is_char. intros H. apply Z.eqb_neq. lia. Qed.

Lemma mem_stored addr data s :
  mem (stored addr data s)
  = if wen s then upd (mem s) (Z.land addr 0x3FF) (Z.land data 0xFFFF) else mem s.
Proof. reflexivity. Qed.

Lemma wen_stored addr data s : wen (stored addr data s) = wen s.
Proof. reflexivity. Qed.

Lemma eeprom_write_string_loop_run cs_pin (s : list Z) :
  forall fuel i start_addr st pre pad,
    Forall is_char s ->
    Z.of_nat (length pre) = i ->
    i + Z.of_nat (length s) + 2 < 2 ^ 32 ->
    Nat.even (length s) = true \/ (exists pad', pad = 0 :: pad') ->
    (length s < fuel)%nat ->
    exists st' tr,
      eeprom_write_string_loop fuel cs_pin start_addr (pre ++ s ++ 0 :: pad) i st
        = Ok tt st' tr
      /\ mem st' = (if wen st then store_words (mem st) start_addr (pack s)
                    else mem st)
      /\ dump_flag st' = dump_flag st
      /\ wen st' = wen st.
Proof.
  induction s as [ | c | c0 c1 r IH] using pair_ind;
    intros fuel i start_addr st pre pad Hs Hi Hlt Hpad Hfuel;
    (destruct fuel as [ | fuel]; [cbn [length] in Hfuel; lia | ]);
    cbn [eeprom_write_string_loop app].
  - exists st, []. split; [ | split; [ | split; reflexivity]].
    + eapply bind_run; [apply load_middle; exact Hi | | reflexivity]. reflexivity.
    + cbn [pack store_words]. destruct (wen st); reflexivity.
  - destruct Hpad as [Hpad | [pad' ->]]; [discriminate Hpad | ].
    apply Forall_cons in Hs as [Hc _].
    destruct fuel as [ | fuel]; [cbn [length] in Hfuel; lia | ].
    cbn [length] in Hlt.
    exists (stored start_addr (pack_word c 0) st). eexists.
    split; [ | split; [ | split; reflexivity]].
    + eapply bind_run; [apply load_middle; exact Hi | | reflexivity].
      rewrite (is_char_nonzero c Hc). cbn [negb].
      eapply bind_run; [apply load_middle2; [exact Hi | lia] | | reflexivity].
      cbn [Z.eqb negb]. fold (pack_word c 0).
      eapply bind_run; [apply eeprom_write_stores | | reflexivity].
      cbn [eeprom_write_string_loop].
      assert (Hend : load (pre ++ c :: 0 :: 0 :: pad') (u32 (i + 2))
                          (stored start_addr (pack_word c 0) st)
                     = Ok 0 (stored start_addr (pack_word c 0) st) []).
      { rewrite u32_small by lia.
        replace (pre ++ c :: 0 :: 0 :: pad') with ((pre ++ [c; 0]) ++ 0 :: pad')
          by (rewrite <- app_assoc; reflexivity).
        apply load_middle. rewrite length_app. cbn [length]. lia. }
      eapply bind_run; [exact Hend | reflexivity | reflexivity].
    + rewrite mem_stored. cbn [pack store_words]. reflexivity.
  - apply Forall_cons in Hs as [Hc0 Hs]. apply Forall_cons in Hs as [Hc1 Hs].
    cbn [length] in Hlt, Hfuel, Hpad.
    destruct (IH fuel (i + 2) (u16 (start_addr + 1))
                 (stored start_addr (pack_word c0 c1) st) (pre ++ [c0; c1]) pad)
      as (st' & tr & Hrun & Hm & Hf & Hw); try assumption; try lia.
    { rewrite length_app. cbn [length]. lia. }
    exists st'. eexists. split; [ | split; [ | split; [exact Hf | exact Hw]]].
    + eapply bind_run; [apply load_middle; exact Hi | | reflexivity].
      rewrite (is_char_nonzero c0 Hc0). cbn [negb].
      eapply bind_run; [apply load_middle2; [exact Hi | lia] | | reflexivity].
      rewrite (is_char_nonzero c1 Hc1). cbn [negb]. fold (pack_word c0 c1).
      eapply bind_run; [apply eeprom_write_stores | | reflexivity].
      rewrite u32_small by lia.
      replace (pre ++ c0 :: c1 :: r ++ 0 :: pad)
        with ((pre ++ [c0; c1]) ++ r ++ 0 :: pad)
        by (rewrite <- app_assoc; reflexivity).
      exact Hrun.
    + rewrite Hm, wen_stored, mem_stored. cbn [pack store_words].
      destruct (wen st); reflexivity.
Qed.

Lemma c_str_lookup (s : list Z) : forall b : list Z,
  Forall is_char s ->
  (forall j, (j < length s)%nat -> b !! j = s !! j) ->
  b !! length s = Some 0 ->
  c_str b = Some s.
Proof.
  induction s as [ | c r IH]; intros b Hs Hb Hend.
  - destruct b as [ | x b]; [discriminate Hend | ].
    cbn in Hend. inversion Hend; subst. reflexivity.
  - apply Forall_cons in Hs as [Hc Hs].
    destruct b as [ | x b]; [discriminate Hend | ].
    pose proof (Hb 0%nat ltac:(cbn [length]; lia)) as H0. cbn in H0.
    inversion H0; subst x. cbn [c_str]. rewrite (is_char_nonzero c Hc).
    rewrite (IH b); [reflexivity | exact Hs | | exact Hend].
    intros j Hj. apply (Hb (S j)). cbn [length]. lia.
Qed.

Section ReadString.
Variables (cs_pin max_len : Z).
Hypothesis Hmax : 0 < max_len < 2 ^ 32.

Lemma read_string_bound : u32 (max_len - 1) = max_len - 1.
Proof. apply u32_small. lia. Qed.

Lemma eeprom_read_string_loop_run (s : list Z) :
  forall fuel i start_addr st buf,
    Forall is_char s ->
    (forall j, (j < length (pack s))%nat ->
       mem st (Z.land (start_addr + Z.of_nat j) 0x3FF)
       = Z.land (nth j (pack s) 0) 0xFFFF) ->
    0 <= i ->
    i + Z.of_nat (length s) <= max_len - 1 ->
    (Nat.even (length s) = true -> i + Z.of_nat (length s) = max_len - 1) ->
    (Z.to_nat max_len <= length buf)%nat ->
    (length s < fuel)%nat ->
    exists buf' i' st' tr,
      eeprom_read_string_loop fuel cs_pin start_addr buf max_len i st
        = Ok (buf', i') st' tr
      /\ length buf' = length buf
      /\ (forall j, (j < Z.to_nat i)%nat -> buf' !! j = buf !! j)
      /\ (forall j, (j < length s)%nat -> buf' !! (Z.to_nat i + j)%nat = s !! j)
      /\ (i' = i + Z.of_nat (length s)
          \/ (i' = i + Z.of_nat (length s) + 1
              /\ buf' !! (Z.to_nat i + length s)%nat = Some 0))
      /\ 0 <= i' <= max_len - 1.
Proof.
  induction s as [ | c | c0 c1 r IH] using pair_ind;
    intros fuel i start_addr st buf Hs Hmem Hi Hle Heven Hbuf Hfuel;
    (destruct fuel as [ | fuel]; [cbn [length] in Hfuel; lia | ]);
    cbn [eeprom_read_string_loop]; rewrite read_string_bound;
    cbn [length] in *.
  - rewrite (proj2 (Z.ltb_ge i (max_len - 1))) by (specialize (Heven eq_refl); lia).
    exists buf, i, st, []. split; [reflexivity | ].
    repeat split; try lia.
  - apply Forall_cons in Hs as [Hc _].
    assert (Hc' : 0 <= c < 256) by (unfold is_char in Hc; lia).
    rewrite (proj2 (Z.ltb_lt i (max_len - 1))) by lia.
    pose proof (Hmem 0%nat ltac:(cbn; lia)) as Hw. cbn [pack nth Z.of_nat] in Hw.
    rewrite Z.add_0_r in Hw.
    destruct (Z.ltb_spec (i + 1) (max_len - 1)) as [Hlt | Hge].
    + exists (<[Z.to_nat (i + 1) := 0]> (<[Z.to_nat i := c]> buf)), (i + 2).
      do 2 eexists. split; [ | split; [ | split; [ | split; [ | split]]]].
      * eapply bind_run; [apply eeprom_read_run | | reflexivity].
        cbv beta zeta. rewrite Hw, unpack_hi, unpack_lo by lia.
        eapply bind_run; [apply store_run; lia | | reflexivity].
        rewrite u32_small by lia.
        rewrite (proj2 (Z.ltb_lt (i + 1) (max_len - 1))) by lia.
        eapply bind_run; [ | | reflexivity].
        { eapply bind_run; [apply store_run; rewrite length_insert; lia | reflexivity | reflexivity]. }
        cbv beta iota. rewrite (is_char_nonzero c Hc). cbn [Z.eqb orb].
        rewrite u32_small by lia. replace (i + 1 + 1) with (i + 2) by lia.
        reflexivity.
      * rewrite !length_insert. reflexivity.
      * intros j Hj. rewrite !list_lookup_insert_ne by lia. reflexivity.
      * intros j Hj. assert (j = 0%nat) by lia. subst j. rewrite Nat.add_0_r.
        rewrite list_lookup_insert_ne by lia.
        rewrite list_lookup_insert_eq by lia. reflexivity.
      * right. split; [lia | ].
        replace (Z.to_nat i + 1)%nat with (Z.to_nat (i + 1)) by lia.
        apply list_lookup_insert_eq. rewrite length_insert. lia.
      * lia.
    + exists (<[Z.to_nat i := c]> buf), (i + 1).
      do 2 eexists. split; [ | split; [ | split; [ | split; [ | split]]]].
      * eapply bind_run; [apply eeprom_read_run | | reflexivity].
        cbv beta zeta. rewrite Hw, unpack_hi, unpack_lo by lia.
        eapply bind_run; [apply store_run; lia | | reflexivity].
        rewrite u32_small by lia.
        rewrite (proj2 (Z.ltb_ge (i + 1) (max_len - 1))) by lia.
        eapply bind_run; [reflexivity | | reflexivity].
        cbv beta iota. rewrite (is_char_nonzero c Hc). cbn [Z.eqb orb].
        reflexivity.
      * rewrite !length_insert. reflexivity.
      * intros j Hj. rewrite !list_lookup_insert_ne by lia. reflexivity.
      * intros j Hj. assert (j = 0%nat) by lia. subst j. rewrite Nat.add_0_r.
        rewrite list_lookup_insert_eq by lia. reflexivity.
      * left. lia.
      * lia.
  - apply Forall_cons in Hs as [Hc0 Hs]. apply Forall_cons in Hs as [Hc1 Hs].
    assert (Hc0' : 0 <= c0 < 256) by (unfold is_char in Hc0; lia).
    assert (Hc1' : 0 <= c1 < 256) by (unfold is_char in Hc1; lia).
    rewrite (proj2 (Z.ltb_lt i (max_len - 1))) by lia.
    pose proof (Hmem 0%nat ltac:(cbn; lia)) as Hw. cbn [pack nth Z.of_nat] in Hw.
    rewrite Z.add_0_r in Hw.
    set (buf2 := <[Z.to_nat (i + 1) := c1]> (<[Z.to_nat i := c0]> buf)).
    destruct (IH fuel (i + 2) (u16 (start_addr + 1)) (latched start_addr st) buf2)
      as (buf' & i' & st' & tr & Hrun & Hl & Hlow & Hin & Hend & Hi');
      try assumption; try lia.
    { intros j Hj. cbn [latched latch_address mem]. rewrite mask10_u16_add.
      replace (start_addr + 1 + Z.of_nat j) with (start_addr + Z.of_nat (S j)) by lia.
      apply (Hmem (S j)). cbn [pack length]. lia. }
    { intros He. specialize (Heven He). lia. }
    { unfold buf2. rewrite !length_insert. exact Hbuf. }
    exists buf', i', st'. eexists.
    split; [ | split; [ | split; [ | split; [ | split]]]].
    + eapply bind_run; [apply eeprom_read_run | | reflexivity].
      cbv beta zeta. rewrite Hw, unpack_hi, unpack_lo by lia.
      eapply bind_run; [apply store_run; lia | | reflexivity].
      rewrite u32_small by lia.
      rewrite (proj2 (Z.ltb_lt (i + 1) (max_len - 1))) by lia.
      eapply bind_run; [ | | reflexivity].
      { eapply bind_run; [apply store_run; rewrite length_insert; lia | reflexivity | reflexivity]. }
      cbv beta iota. rewrite (is_char_nonzero c0 Hc0), (is_char_nonzero c1 Hc1).
      cbn [orb]. rewrite u32_small by lia.
      replace (i + 1 + 1) with (i + 2) by lia. exact Hrun.
    + rewrite Hl. unfold buf2. rewrite !length_insert. reflexivity.
    + intros j Hj. rewrite Hlow by lia. unfold buf2.
      rewrite !list_lookup_insert_ne by lia. reflexivity.
    + intros j Hj. destruct j as [ | [ | j]].
      * rewrite Nat.add_0_r, Hlow by lia. unfold buf2.
        rewrite list_lookup_insert_ne by lia.
        rewrite list_lookup_insert_eq by lia. reflexivity.
      * rewrite Hlow by lia. unfold buf2.
        replace (Z.to_nat i + 1)%nat with (Z.to_nat (i + 1)) by lia.
        rewrite list_lookup_insert_eq by (rewrite length_insert; lia). reflexivity.
      * replace (Z.to_nat i + S (S j))%nat with (Z.to_nat (i + 2) + j)%nat by lia.
        rewrite Hin by lia. reflexivity.
    + replace (Z.to_nat i + S (S (length r)))%nat
        with (Z.to_nat (i + 2) + length r)%nat by lia.
      destruct Hend as [Hend | [Hend Hz]]; [left; lia | right; split; [lia | exact Hz]].
    + lia.
Qed.
End ReadString.

(** C4.  The code does not keep the claim: [eeprom_write_string] writes a
    zero byte to the device only inside the last word of a text of odd
    length, so a text of even length is stored without its end, and
    [eeprom_read_string] with room to spare runs on into the words that
    follow.  On a device with writes enabled and every other word 0xFFFF,
    the text of the usage comment, "Hello, EEPROM!" (14 characters), read
    back with [max_len] 32 is followed by seventeen characters 0xFF, and
    "hi" read back with [max_len] 8 is followed by five. *)
Theorem write_then_read_string_even_length :
  recovered_text
    (write_then_read 17 0x100
       [72; 101; 108; 108; 111; 44; 32; 69; 69; 80; 82; 79; 77; 33; 0]
       (repeat 0 32) 32 32 init_state)
  = Some ([72; 101; 108; 108; 111; 44; 32; 69; 69; 80; 82; 79; 77; 33]
          ++ repeat 255 17)
  /\ recovered_text
       (write_then_read 17 0x100 [104; 105; 0] (repeat 0 8) 8 8 init_state)
     = Some ([104; 105] ++ repeat 255 5).
Proof. split; vm_compute; reflexivity. Qed.

(** The round trip where the code does keep it.  For every text [s] of at
    most 2048 non-zero characters, stored with its terminating zero byte,
    every start address, every device state with writes enabled and every
    [max_len] greater than the length of [s]: [eeprom_write_string]
    followed by [eeprom_read_string] at the same address returns and
    recovers exactly [s], if either [s] has odd length and a further zero
    byte follows its terminator (the last word then carries the zero byte
    and the writer's scan ends on a zero), or [s] has even length and
    [max_len] is the length of [s] plus one (the count guard then ends the
    read). *)
Lemma write_then_read_string_run (cs_pin start_addr : Z) (s pad buf : list Z)
    (max_len : Z) (fuel : nat) (st : state) :
  wen st = true ->
  Forall is_char s ->
  (length s <= 2048)%nat ->
  Z.of_nat (length s) < max_len < 2 ^ 32 ->
  (Z.to_nat max_len <= length buf)%nat ->
  (Z.to_nat max_len <= fuel)%nat ->
  (Nat.even (length s) = false /\ (exists pad', pad = 0 :: pad'))
  \/ (Nat.even (length s) = true /\ max_len = Z.of_nat (length s) + 1) ->
  recovered_text
    (write_then_read cs_pin start_addr (s ++ 0 :: pad) buf max_len fuel st)
  = Some s.
Proof.
  intros Hwen Hs Hlen Hmax Hbuf Hfuel Hcase.
  destruct (eeprom_write_string_loop_run cs_pin s (S (length (s ++ 0 :: pad)))
              0 start_addr st [] pad)
    as (st1 & tr1 & Hw & Hm1 & _); try assumption; try reflexivity.
  { change (2 ^ 32) with 4294967296. lia. }
  { destruct Hcase as [[_ Hp] | [He _]]; [right; exact Hp | left; exact He]. }
  { rewrite length_app. cbn [length]. lia. }
  rewrite Hwen in Hm1.
  destruct (eeprom_read_string_loop_run cs_pin max_len ltac:(lia) s fuel 0
              start_addr st1 buf)
    as (buf' & i' & st2 & tr2 & Hr & Hl & _ & Hin & Hend & Hi');
    try assumption; try lia.
  { intros j Hj. rewrite Hm1. apply store_words_lookup; [ | exact Hj].
    pose proof (pack_length s). lia. }
  { intros He. destruct Hcase as [[Ho _] | [_ ->]]; [congruence | lia]. }
  unfold write_then_read, recovered_text.
  erewrite bind_run; [ | exact Hw | | reflexivity].
  2:{ unfold eeprom_read_string.
      eapply bind_run; [exact Hr | | reflexivity].
      cbv beta iota. apply store_run. lia. }
  apply c_str_lookup; [exact Hs | | ].
  - intros j Hj. rewrite list_lookup_insert_ne by lia. apply (Hin j Hj).
  - destruct Hend as [-> | [-> Hz]].
    + rewrite Z.add_0_l, Nat2Z.id. apply list_lookup_insert_eq. lia.
    + rewrite list_lookup_insert_ne by lia. exact Hz.
Qed.

(** ** The bound of [eeprom_read_string] (C8) *)

Lemma store_fault buf i v s :
  (length buf <= Z.to_nat i)%nat -> store buf i v s = Err OutOfBounds.
Proof.
  unfold store. intros H. rewrite bool_decide_eq_false_2 by lia. reflexivity.
Qed.

Lemma nat_pair_ind (P : nat -> Prop) :
  P 0%nat -> P 1%nat -> (forall n, P n -> P (S (S n))) -> forall n, P n.
Proof.
  intros H0 H1 H2 n.
  enough (H : P n /\ P (S n)) by apply H.
  induction n as [ | n [IH1 IH2]]; split; auto.
Qed.

(** One iteration of the read loop: the bus read and the store of the high
    byte, then the low byte, stored or skipped. *)
Ltac read_and_store :=
  eapply bind_run; [apply eeprom_read_run | | reflexivity];
  cbv beta zeta;
  eapply bind_run; [apply store_run; lia | | reflexivity];
  rewrite (u32_small (_ + 1)) by lia.

Ltac store_low :=
  rewrite (proj2 (Z.ltb_lt _ _)) by lia;
  eapply bind_run;
    [ eapply bind_run;
        [apply store_run; rewrite ?length_insert; lia | reflexivity | reflexivity]
    | | reflexivity ];
  cbv beta iota; rewrite (u32_small (_ + 1 + 1)) by lia.

Ltac skip_low :=
  rewrite (proj2 (Z.ltb_ge _ _)) by lia;
  eapply bind_run; [reflexivity | | reflexivity];
  cbv beta iota.

Section ReadStringSafe.
Variables (cs_pin max_len : Z).
Hypothesis Hmax : 1 <= max_len < 2 ^ 32.

(** With [max_len >= 1] the loop keeps [i] at or below [max_len - 1] and
    stores only inside a buffer of [max_len] characters. *)
Lemma eeprom_read_string_loop_in_bounds : forall fuel i start_addr st str,
  0 <= i <= max_len - 1 ->
  (Z.to_nat max_len <= length str)%nat ->
  (Z.to_nat (max_len - 1 - i) < fuel)%nat ->
  exists str' i' st' tr,
    eeprom_read_string_loop fuel cs_pin start_addr str max_len i st
      = Ok (str', i') st' tr
    /\ length str' = length str /\ 0 <= i' <= max_len - 1.
Proof.
  induction fuel as [ | fuel IH]; intros i start_addr st str Hi Hlen Hfuel; [lia | ].
  cbn [eeprom_read_string_loop]. rewrite (read_string_bound max_len) by lia.
  destruct (Z.ltb_spec i (max_len - 1)) as [Hlt | Hge].
  2:{ exists str, i, st, []. split; [reflexivity | split; [reflexivity | lia]]. }
  destruct ((u8 (Z.shiftr (u16 (mem st (Z.land start_addr 0x3FF))) 8) =? 0)
            || (u8 (Z.land (u16 (mem st (Z.land start_addr 0x3FF))) 0xFF) =? 0))
    eqn:Hbrk;
    destruct (Z.ltb_spec (i + 1) (max_len - 1)) as [Hlt1 | Hge1].
  - do 4 eexists. split; [ | split].
    + read_and_store. store_low. rewrite Hbrk. reflexivity.
    + rewrite !length_insert. reflexivity.
    + lia.
  - do 4 eexists. split; [ | split].
    + read_and_store. skip_low. rewrite Hbrk. reflexivity.
    + rewrite !length_insert. reflexivity.
    + lia.
  - edestruct (IH (i + 1 + 1)) as (str' & i' & st' & tr & Hrun & Hl & Hi');
      [ | | | exists str', i', st'; eexists; split; [ | split; [ | exact Hi']]].
    4:{ read_and_store. store_low. rewrite Hbrk. exact Hrun. }
    + lia.
    + rewrite !length_insert. exact Hlen.
    + lia.
    + rewrite Hl, !length_insert. reflexivity.
  - edestruct (IH (i + 1)) as (str' & i' & st' & tr & Hrun & Hl & Hi');
      [ | | | exists str', i', st'; eexists; split; [ | split; [ | exact Hi']]].
    4:{ read_and_store. skip_low. rewrite Hbrk. exact Hrun. }
    + lia.
    + rewrite !length_insert. exact Hlen.
    + lia.
    + rewrite Hl, !length_insert. reflexivity.
Qed.

Lemma eeprom_read_string_in_bounds fuel start_addr st str :
  (Z.to_nat max_len <= length str)%nat ->
  (Z.to_nat max_len <= fuel)%nat ->
  exists str' i' st' tr,
    eeprom_read_string fuel cs_pin start_addr str max_len st = Ok str' st' tr
    /\ length str' = length str
    /\ 0 <= i' < max_len /\ str' !! Z.to_nat i' = Some 0.
Proof.
  intros Hlen Hfuel.
  destruct (eeprom_read_string_loop_in_bounds fuel 0 start_addr st str)
    as (str1 & i' & st' & tr & Hrun & Hl & Hi'); try lia.
  exists (<[Z.to_nat i' := 0]> str1), i', st'. eexists.
  split; [ | split; [ | split]].
  - unfold eeprom_read_string.
    eapply bind_run; [exact Hrun | | reflexivity].
    cbv beta iota. apply store_run. lia.
  - rewrite length_insert. exact Hl.
  - lia.
  - apply list_lookup_insert_eq. lia.
Qed.
End ReadStringSafe.

Section ReadStringUnbounded.
Variable cs_pin : Z.

Lemma read_string_bound_0 : u32 (0 - 1) = 4294967295.
Proof. reflexivity. Qed.

(** With [max_len = 0] and a device that holds no zero byte, the loop runs
    past the end of [str], however long [str] is. *)
Lemma eeprom_read_string_loop_overrun (n : nat) :
  forall fuel i start_addr st str,
    no_zero_byte (mem st) ->
    0 <= i ->
    Z.of_nat (length str) = i + Z.of_nat n ->
    Z.of_nat (length str) < 4294967295 ->
    (n < fuel)%nat ->
    eeprom_read_string_loop fuel cs_pin start_addr str 0 i st = Err OutOfBounds.
Proof.
  induction n as [ | | n IH] using nat_pair_ind;
    intros fuel i start_addr st str Hnz Hi Hlen Hmax Hfuel;
    (destruct fuel as [ | fuel]; [lia | ]);
    cbn [eeprom_read_string_loop]; rewrite read_string_bound_0;
    rewrite (proj2 (Z.ltb_lt i 4294967295)) by lia.
  - eapply bind_run_err; [apply eeprom_read_run | ]. cbv beta zeta.
    apply bind_err, store_fault. lia.
  - eapply bind_run_err; [apply eeprom_read_run | ]. cbv beta zeta.
    eapply bind_run_err; [apply store_run; lia | ].
    rewrite (u32_small (i + 1)) by lia.
    rewrite (proj2 (Z.ltb_lt (i + 1) 4294967295)) by lia.
    apply bind_err, bind_err, store_fault. rewrite length_insert. lia.
  - destruct (Hnz (Z.land start_addr 0x3FF)) as [Hhi Hlo].
    eapply bind_run_err; [apply eeprom_read_run | ]. cbv beta zeta.
    eapply bind_run_err; [apply store_run; lia | ].
    rewrite (u32_small (i + 1)) by lia.
    rewrite (proj2 (Z.ltb_lt (i + 1) 4294967295)) by lia.
    eapply bind_run_err;
      [ eapply bind_run;
          [apply store_run; rewrite length_insert; lia | reflexivity | reflexivity]
      | ].
    cbv beta iota.
    rewrite (proj2 (Z.eqb_neq _ _) Hhi), (proj2 (Z.eqb_neq _ _) Hlo). cbn [orb].
    rewrite (u32_small (i + 1 + 1)) by lia.
    apply IH; try lia; try exact Hnz.
    all: rewrite !length_insert; lia.
Qed.
End ReadStringUnbounded.

(** C8. [eeprom_read_string] needs [max_len >= 1].  With [max_len = 0] the
    loop bound [max_len - 1] is the largest [size_t] value; the function
    then stores outside a zero-length buffer whatever the device holds,
    and, when the device holds no zero byte, outside a buffer of any
    length, so the count guard does not limit the loop.  With
    [max_len >= 1] and a buffer of exactly [max_len] characters every store
    is inside the buffer, that is at an index below [max_len]: the function
    returns, and the result holds a zero byte at some index below
    [max_len]. *)
Theorem read_string_max_len_precondition (cs_pin start_addr : Z) :
  u32 (0 - 1) = 2 ^ 32 - 1
  /\ (forall fuel st,
        eeprom_read_string (S fuel) cs_pin start_addr [] 0 st = Err OutOfBounds)
  /\ (forall fuel st str,
        no_zero_byte (mem st) ->
        Z.of_nat (length str) < 2 ^ 32 - 1 ->
        (length str < fuel)%nat ->
        eeprom_read_string fuel cs_pin start_addr str 0 st = Err OutOfBounds)
  /\ (forall max_len fuel st str,
        1 <= max_len < 2 ^ 32 ->
        length str = Z.to_nat max_len ->
        (Z.to_nat max_len <= fuel)%nat ->
        exists str' i' st' tr,
          eeprom_read_string fuel cs_pin start_addr str max_len st = Ok str' st' tr
          /\ length str' = length str
          /\ 0 <= i' < max_len /\ str' !! Z.to_nat i' = Some 0).
Proof.
  split; [reflexivity | ]. split; [ | split].
  - intros fuel st. unfold eeprom_read_string. apply bind_err.
    cbn [eeprom_read_string_loop]. rewrite read_string_bound_0.
    change (0 <? 4294967295) with true. cbv iota.
    eapply bind_run_err; [apply eeprom_read_run | ]. cbv beta zeta.
    apply bind_err, store_fault. cbn [length]. lia.
  - intros fuel st str Hnz Hlen Hfuel. unfold eeprom_read_string. apply bind_err.
    apply (eeprom_read_string_loop_overrun cs_pin (length str)); try lia.
    exact Hnz.
  - intros max_len fuel st str Hmax Hlen Hfuel.
    apply eeprom_read_string_in_bounds; lia.
Qed.

Lemma read_string_max_len_precondition_witness :
  eeprom_read_string 9 17 0x300 (repeat 0 8) 0 init_state = Err OutOfBounds
  /\ exists str' i' st' tr,
       eeprom_read_string 8 17 0x300 (repeat 0 8) 8 init_state = Ok str' st' tr
       /\ length str' = length (repeat 0 8)
       /\ 0 <= i' < 8 /\ str' !! Z.to_nat i' = Some 0.
Proof.
  destruct (read_string_max_len_precondition 17 0x300) as (_ & _ & H0 & H1).
  split.
  - apply H0.
    + intros a. unfold init_state, erased. simpl. split; intros H; discriminate H.
    + simpl. lia.
    + simpl. lia.
  - apply H1.
    + lia.
    + reflexivity.
    + simpl. lia.
Defined.

(** ** Concrete runs *)

(** The frame of the erase scenario: (0b111<<13) | (0x11<<3). *)
Example erase_0x11_frame : erase_cmdbuf 0x11 = [0xE0; 0x88].
Proof. reflexivity. Qed.

(** A word written is the word read back. *)
Example write_then_read_word :
  (eeprom_write 17 0x220 0xF1C2 ;; eeprom_read 17 0x220) init_state
  = Ok 0xF1C2 (latched 0x220 (stored 0x220 0xF1C2 init_state))
       (write_events 17 0x220 0xF1C2
        ++ cs_toggle 17 ++ read_events (upd erased 0x220 0xF1C2) 0x220
        ++ cs_toggle 17).
Proof. reflexivity. Qed.

(** A write sent after [eeprom_write_disable] is ignored by the device, and
    one sent after a further [eeprom_write_enable] is stored. *)
Example write_after_disable_is_ignored :
  (eeprom_write_disable 17 ;; eeprom_write 17 0x10 0xDEAD ;; eeprom_read 17 0x10)
    init_state
  = Ok 0xFFFF (latched 0x10 (set_latch false init_state))
       (trace_of ((eeprom_write_disable 17 ;; eeprom_write 17 0x10 0xDEAD ;;
                   eeprom_read 17 0x10) init_state)).
Proof. reflexivity. Qed.

Example write_after_enable_is_stored :
  (eeprom_write_enable 17 ;; eeprom_write 17 0x10 0xDEAD ;; eeprom_read 17 0x10)
    power_on_state
  = Ok 0xDEAD (latched 0x10 (stored 0x10 0xDEAD init_state))
       (trace_of ((eeprom_write_enable 17 ;; eeprom_write 17 0x10 0xDEAD ;;
                   eeprom_read 17 0x10) power_on_state)).
Proof. reflexivity. Qed.

(** A text of odd length stored with a single terminating zero byte: the
    writer's scan steps over the terminator and reads past the storage. *)
Example write_string_reads_past_terminator :
  eeprom_write_string 17 0x300 [97; 98; 99; 0] init_state = Err OutOfBounds.
Proof. reflexivity. Qed.

(** A text of more than 2048 characters wraps around the 1024 words of the
    device and overwrites its own beginning: 2048 times 'A' followed by
    "BB" reads back starting with 'B'. *)
Example write_string_wraps_past_2048_characters :
  (fun o => match o with Some (c :: _) => c | _ => 0 end)
    (recovered_text
       (write_then_read 17 0 ((repeat 65 2048 ++ [66; 66]) ++ [0])
                        (repeat 0 2051) 2051 2051 init_state))
  = 66.
Proof. vm_compute. reflexivity. Qed.

(** * Further properties of the driver *)

(** ** Single words: write, erase, read *)

Lemma u16_mask16 x : u16 (Z.land x 0xFFFF) = u16 x.
Proof. rewrite land_0xFFFF. unfold u16. apply Zmod_mod. Qed.

Lemma mem_wiped addr s :
  mem (wiped addr s)
  = if wen s then upd (mem s) (Z.land addr 0x3FF) (blank s) else mem s.
Proof. reflexivity. Qed.

(** X1. On a device with writes enabled, a read that follows a write
    returns the low 16 bits of the written data when the two addresses
    agree in their low 10 bits, and the word the device held before
    otherwise; the write changes no other word and leaves writes
    enabled. *)
Theorem write_then_read_word_at (cs_pin addr addr' data : Z) (s : state) :
  wen s = true ->
  exists s' tr,
    (eeprom_write cs_pin addr data ;; eeprom_read cs_pin addr') s
      = Ok (if Z.land addr' 0x3FF =? Z.land addr 0x3FF
            then u16 data else u16 (mem s (Z.land addr' 0x3FF))) s' tr
    /\ (forall x, x <> Z.land addr 0x3FF -> mem s' x = mem s x)
    /\ mem s' (Z.land addr 0x3FF) = Z.land data 0xFFFF
    /\ wen s' = true.
Proof.
  intros Hwen. do 2 eexists. split; [ | split; [ | split]].
  - eapply bind_run; [apply eeprom_write_stores | | reflexivity].
    rewrite eeprom_read_run, mem_stored, Hwen. unfold upd.
    destruct (Z.land addr' 0x3FF =? Z.land addr 0x3FF);
      [rewrite u16_mask16 | ]; reflexivity.
  - intros x Hx. cbn [latched latch_address mem]. rewrite mem_stored, Hwen.
    apply upd_other. exact Hx.
  - cbn [latched latch_address mem]. rewrite mem_stored, Hwen. apply upd_same.
  - exact Hwen.
Qed.

Lemma write_then_read_word_at_witness :
  exists s' tr,
    (eeprom_write 17 0x410 0x1DEAD ;; eeprom_read 17 0x10) init_state
      = Ok (if Z.land 0x10 0x3FF =? Z.land 0x410 0x3FF
            then u16 0x1DEAD else u16 (mem init_state (Z.land 0x10 0x3FF))) s' tr
    /\ (forall x, x <> Z.land 0x410 0x3FF -> mem s' x = mem init_state x)
    /\ mem s' (Z.land 0x410 0x3FF) = Z.land 0x1DEAD 0xFFFF
    /\ wen s' = true.
Proof. apply write_then_read_word_at. reflexivity. Defined.

(** X2. On a device with writes enabled, a read that follows an erase
    returns the device's erased word when the two addresses agree in their
    low 10 bits, and the word the device held before otherwise; the erase
    changes no other word. *)
Theorem erase_then_read_word_at (cs_pin addr addr' : Z) (s : state) :
  wen s = true ->
  exists s' tr,
    (eeprom_erase cs_pin addr ;; eeprom_read cs_pin addr') s
      = Ok (if Z.land addr' 0x3FF =? Z.land addr 0x3FF
            then u16 (blank s) else u16 (mem s (Z.land addr' 0x3FF))) s' tr
    /\ (forall x, x <> Z.land addr 0x3FF -> mem s' x = mem s x).
Proof.
  intros Hwen. do 2 eexists. split.
  - eapply bind_run; [apply eeprom_erase_erases | | reflexivity].
    rewrite eeprom_read_run, mem_wiped, Hwen. unfold upd.
    destruct (Z.land addr' 0x3FF =? Z.land addr 0x3FF); reflexivity.
  - intros x Hx. cbn [latched latch_address mem]. rewrite mem_wiped, Hwen.
    apply upd_other. exact Hx.
Qed.

Lemma erase_then_read_word_at_witness :
  exists s' tr,
    (eeprom_erase 17 0x411 ;; eeprom_read 17 0x11) init_state
      = Ok (if Z.land 0x11 0x3FF =? Z.land 0x411 0x3FF
            then u16 (blank init_state)
            else u16 (mem init_state (Z.land 0x11 0x3FF))) s' tr
    /\ (forall x, x <> Z.land 0x411 0x3FF -> mem s' x = mem init_state x).
Proof. apply erase_then_read_word_at. reflexivity. Defined.

(** X3. [eeprom_read] changes no stored word, and a second read of the same
    address returns the same value as the first. *)
Theorem read_is_repeatable (cs_pin addr : Z) (s : state) :
  exists w s1 tr1 s2 tr2,
    eeprom_read cs_pin addr s = Ok w s1 tr1
    /\ eeprom_read cs_pin addr s1 = Ok w s2 tr2
    /\ mem s1 = mem s /\ mem s2 = mem s
    /\ 0 <= w < 65536.
Proof.
  do 5 eexists. split; [apply eeprom_read_run | ].
  split; [rewrite eeprom_read_run; reflexivity | ].
  split; [reflexivity | ]. split; [reflexivity | ]. apply u16_range.
Qed.

(** ** [eeprom_write_buf] *)

Lemma load_fault buf i s :
  (length buf <= Z.to_nat i)%nat -> load buf i s = Err OutOfBounds.
Proof.
  intros H. unfold load. rewrite (lookup_ge_None_2 buf _ H). reflexivity.
Qed.

Lemma Ok_inj {A} (a b : A) s1 s2 t1 t2 :
  Ok a s1 t1 = Ok b s2 t2 -> a = b /\ s1 = s2 /\ t1 = t2.
Proof. intros H. inversion H. auto. Qed.

Section WriteBuf.
Variables (cs_pin start_addr : Z) (buf : list Z) (len : Z).

Lemma eeprom_write_buf_loop_mem : forall n fuel i s,
  (n < fuel)%nat -> i = len - Z.of_nat n -> 0 <= i -> len < 2 ^ 32 ->
  (Z.to_nat len <= length buf)%nat -> (n <= 1024)%nat ->
  wen s = true ->
  exists s' tr,
    eeprom_write_buf_loop fuel cs_pin start_addr buf len i s = Ok tt s' tr
    /\ (forall j, i <= j < len ->
          mem s' (Z.land (start_addr + j) 0x3FF) = Z.land (word buf j) 0xFFFF)
    /\ (forall x, (forall j, i <= j < len -> Z.land (start_addr + j) 0x3FF <> x) ->
          mem s' x = mem s x).
Proof.
  induction n as [ | n IH]; intros fuel i s Hfuel Hi Hi0 Hlen Hbuf Hn Hwen;
    (destruct fuel as [ | fuel]; [lia | ]); cbn [eeprom_write_buf_loop].
  - rewrite (proj2 (Z.ltb_ge i len)) by lia. exists s, [].
    split; [reflexivity | ]. split; [intros; lia | reflexivity].
  - rewrite (proj2 (Z.ltb_lt i len)) by lia.
    destruct (IH fuel (i + 1)
                 (stored (u16 (u32 (start_addr + i))) (word buf i) s))
      as (s' & tr & Hrun & Hin & Hout); try lia; [exact Hwen | ].
    exists s'. eexists. split; [ | split].
    + eapply bind_run; [apply load_word_run; lia | | reflexivity].
      eapply bind_run; [apply eeprom_write_stores | | reflexivity].
      eapply bind_run; [apply cs_select_run | | reflexivity].
      rewrite u32_small by lia. exact Hrun.
    + intros j Hj. destruct (Z.eq_dec j i) as [-> | Hne]; [ | apply Hin; lia].
      rewrite Hout.
      * rewrite mem_stored, Hwen, mask10_u16_u32. apply upd_same.
      * intros j Hj'. replace (start_addr + j) with (start_addr + i + (j - i)) by lia.
        apply mask10_distinct. lia.
    + intros x Hx. rewrite Hout by (intros j Hj; apply Hx; lia).
      rewrite mem_stored, Hwen, mask10_u16_u32. apply upd_other.
      intros ->. apply (Hx i); [lia | reflexivity].
Qed.

Lemma eeprom_write_buf_loop_overrun : forall n fuel i s,
  (n < fuel)%nat -> i = Z.of_nat (length buf) - Z.of_nat n -> 0 <= i ->
  Z.of_nat (length buf) < len -> len < 2 ^ 32 ->
  eeprom_write_buf_loop fuel cs_pin start_addr buf len i s = Err OutOfBounds.
Proof.
  induction n as [ | n IH]; intros fuel i s Hfuel Hi Hi0 Hlen Hmax;
    (destruct fuel as [ | fuel]; [lia | ]); cbn [eeprom_write_buf_loop];
    rewrite (proj2 (Z.ltb_lt i len)) by lia.
  - apply bind_err, load_fault. lia.
  - eapply bind_run_err; [apply load_word_run; lia | ].
    eapply bind_run_err; [apply eeprom_write_stores | ].
    eapply bind_run_err; [apply cs_select_run | ].
    rewrite u32_small by lia. apply IH; lia.
Qed.
End WriteBuf.

(** X4. [eeprom_write_buf] of at most 1024 words that the buffer holds
    returns; it transmits the write frame of word [j] for address
    [start_addr + j], in ascending order of [j]; if the device has writes
    enabled, it afterwards holds the low 16 bits of word [j] at address
    [(start_addr + j) mod 1024] and every other address keeps its word. *)
Theorem write_buf_stores_words (cs_pin start_addr : Z) (buf : list Z) (len : Z)
    (s : state) :
  wen s = true ->
  0 <= len <= 1024 ->
  (Z.to_nat len <= length buf)%nat ->
  exists s' tr,
    eeprom_write_buf cs_pin start_addr buf len s = Ok tt s' tr
    /\ frames tr = map (fun j => write_cmdbuf (start_addr + j) (word buf j))
                       (addrs 0 (Z.to_nat len))
    /\ (forall j, 0 <= j < len ->
          mem s' (Z.land (start_addr + j) 0x3FF) = Z.land (word buf j) 0xFFFF)
    /\ (forall x, (forall j, 0 <= j < len -> Z.land (start_addr + j) 0x3FF <> x) ->
          mem s' x = mem s x).
Proof.
  intros Hwen Hlen Hbuf.
  destruct (eeprom_write_buf_loop_mem cs_pin start_addr buf len (Z.to_nat len)
              (S (Z.to_nat len)) 0 s)
    as (s' & tr & Hrun & Hin & Hout); try lia; [exact Hwen | ].
  destruct (eeprom_write_buf_loop_run cs_pin start_addr buf len (Z.to_nat len)
              (S (Z.to_nat len)) 0 s) as (s2 & Hrun2); try lia.
  exists s', tr. split; [exact Hrun | ]. split; [ | split; assumption].
  rewrite Hrun in Hrun2. apply Ok_inj in Hrun2 as (_ & _ & ->).
  rewrite frames_flat_map.
  erewrite flat_map_ext; [apply flat_map_singleton | ].
  intros j. cbn beta. rewrite frames_app. cbn [frames flat_map app].
  rewrite app_nil_r. unfold write_events. rewrite !frames_app, frames_cs_toggle.
  cbn [frames flat_map app]. f_equal.
  apply write_cmdbuf_mask, mask10_u16_u32.
Qed.

Lemma write_buf_stores_words_witness :
  exists s' tr,
    eeprom_write_buf 17 0x3FE [0xFEED; 0x5731; 0xDEAD] 3 init_state = Ok tt s' tr
    /\ frames tr = map (fun j => write_cmdbuf (0x3FE + j) (word [0xFEED; 0x5731; 0xDEAD] j))
                       (addrs 0 (Z.to_nat 3))
    /\ (forall j, 0 <= j < 3 ->
          mem s' (Z.land (0x3FE + j) 0x3FF)
          = Z.land (word [0xFEED; 0x5731; 0xDEAD] j) 0xFFFF)
    /\ (forall x, (forall j, 0 <= j < 3 -> Z.land (0x3FE + j) 0x3FF <> x) ->
          mem s' x = mem init_state x).
Proof.
  apply write_buf_stores_words.
  - reflexivity.
  - lia.
  - simpl. lia.
Defined.

(** X5. [eeprom_write_buf] with [len = 0] transmits nothing and changes
    nothing; with [len] greater than the number of words in [buf] it reads
    [buf] out of bounds. *)
Theorem write_buf_bounds (cs_pin start_addr : Z) (buf : list Z) (s : state) :
  eeprom_write_buf cs_pin start_addr buf 0 s = Ok tt s []
  /\ (forall len,
        Z.of_nat (length buf) < len < 2 ^ 32 ->
        eeprom_write_buf cs_pin start_addr buf len s = Err OutOfBounds).
Proof.
  split; [reflexivity | ].
  intros len Hlen. unfold eeprom_write_buf.
  apply (eeprom_write_buf_loop_overrun cs_pin start_addr buf len (length buf));
    lia.
Qed.

Lemma write_buf_bounds_witness :
  eeprom_write_buf 17 0x100 [0xAAAA; 0xAAAA] 4 init_state = Err OutOfBounds.
Proof.
  apply (proj2 (write_buf_bounds 17 0x100 [0xAAAA; 0xAAAA] init_state)).
  simpl. lia.
Defined.

(** ** [eeprom_dump], [eeprom_copy] and [eeprom_paste] *)

Section CopyImage.
Variable cs_pin : Z.

Lemma eeprom_copy_loop_image : forall n fuel addr buf s,
  (n < fuel)%nat -> addr = 1024 - Z.of_nat n -> (n <= 1024)%nat ->
  (1024 <= length buf)%nat -> dump_flag s <> 0 ->
  exists buf' s',
    eeprom_copy_loop fuel cs_pin addr buf s
      = Ok buf' s' (flat_map (fun a => cs_toggle cs_pin ++ read_events (mem s) a)
                             (addrs addr n))
    /\ mem s' = mem s /\ length buf' = length buf
    /\ (forall a, addr <= a < 1024 -> buf' !! Z.to_nat a = Some (u16 (mem s a)))
    /\ (forall j : nat, ~ addr <= Z.of_nat j < 1024 -> buf' !! j = buf !! j).
Proof.
  induction n as [ | n IH]; intros fuel addr buf s Hfuel Haddr Hn Hlen Hflag;
    (destruct fuel as [ | fuel]; [lia | ]); cbn [eeprom_copy_loop].
  - subst addr. exists buf, s. cbn. repeat split; intros; lia.
  - rewrite (proj2 (Z.leb_le addr 0x3FF)) by lia.
    set (data := u16 (mem s addr)).
    destruct (IH fuel (addr + 1) (<[Z.to_nat addr := data]> buf) (latched addr s))
      as (buf' & s' & Hrun & Hm & Hl & Hin & Hout);
      try lia; [rewrite length_insert; lia | exact Hflag | ].
    exists buf', s'. split; [ | repeat split].
    + eapply bind_run; [apply cs_deselect_run | | reflexivity].
      eapply bind_run; [apply cs_select_run | | reflexivity].
      eapply bind_run; [apply eeprom_read_run | | ].
      * rewrite mask10_small by lia. fold data.
        eapply bind_run; [apply store_run; lia | | reflexivity].
        rewrite u16_small by lia. exact Hrun.
      * unfold read_bracket. rewrite (proj2 (Z.eqb_neq _ _) Hflag).
        cbn [addrs flat_map latched latch_address mem]. rewrite app_nil_r. reflexivity.
    + rewrite Hm. reflexivity.
    + rewrite Hl. apply length_insert.
    + intros a Ha. destruct (Z.eq_dec a addr) as [-> | Hne].
      * rewrite Hout by lia. apply list_lookup_insert_eq. lia.
      * rewrite Hin by lia. reflexivity.
    + intros j Hj. rewrite Hout by lia. apply list_lookup_insert_ne. lia.
Qed.

Lemma eeprom_copy_loop_overrun : forall n fuel addr buf s,
  (n < fuel)%nat -> addr = Z.of_nat (length buf) - Z.of_nat n -> 0 <= addr ->
  (length buf < 1024)%nat ->
  eeprom_copy_loop fuel cs_pin addr buf s = Err OutOfBounds.
Proof.
  induction n as [ | n IH]; intros fuel addr buf s Hfuel Haddr Hi Hlen;
    (destruct fuel as [ | fuel]; [lia | ]); cbn [eeprom_copy_loop];
    rewrite (proj2 (Z.leb_le addr 0x3FF)) by lia.
  - eapply bind_run_err; [apply cs_deselect_run | ].
    eapply bind_run_err; [apply cs_select_run | ].
    eapply bind_run_err; [apply eeprom_read_run | ].
    apply bind_err, store_fault. lia.
  - eapply bind_run_err; [apply cs_deselect_run | ].
    eapply bind_run_err; [apply cs_select_run | ].
    eapply bind_run_err; [apply eeprom_read_run | ].
    eapply bind_run_err; [apply store_run; lia | ].
    rewrite u16_small by lia. apply IH; rewrite ?length_insert; lia.
Qed.
End CopyImage.

Lemma decoded_app t1 t2 : decoded (t1 ++ t2) = decoded t1 ++ decoded t2.
Proof. unfold decoded. apply flat_map_app. Qed.

Lemma decoded_flat_map {A} (f : A -> list event) (l : list A) :
  decoded (flat_map f l) = flat_map (fun a => decoded (f a)) l.
Proof.
  induction l as [ | a l IH]; [reflexivity | ].
  cbn [flat_map]. rewrite decoded_app, IH. reflexivity.
Qed.

Lemma addrs_range a n x : In x (addrs a n) -> a <= x < a + Z.of_nat n.
Proof.
  revert a. induction n as [ | n IH]; intros a; cbn [addrs In]; [tauto | ].
  intros [<- | H]; [lia | ]. apply IH in H. lia.
Qed.

Lemma flat_map_agree {A B} (f g : A -> list B) (l : list A) :
  (forall a, In a l -> f a = g a) -> flat_map f l = flat_map g l.
Proof.
  induction l as [ | a l IH]; intros H; [reflexivity | ].
  cbn [flat_map]. rewrite (H a) by (left; reflexivity).
  rewrite IH; [reflexivity | ]. intros b Hb. apply H. right. exact Hb.
Qed.

(** X6. [eeprom_dump] returns from every state; it transmits the read
    command frames of addresses 0 to 1023 in ascending order, the responses
    decode to the stored words in that order, no stored word changes and
    [dump_flag] is 0 afterwards. *)
Theorem dump_scans_all_addresses (cs_pin : Z) (s : state) :
  exists s' tr,
    eeprom_dump cs_pin s = Ok tt s' tr
    /\ frames tr = map read_cmdbuf (addrs 0 1024)
    /\ decoded tr = map (fun a => u16 (mem s a)) (addrs 0 1024)
    /\ mem s' = mem s /\ dump_flag s' = 0.
Proof.
  destruct (eeprom_dump_run cs_pin s) as (s' & Hrun & Hf & Hm).
  do 2 eexists. split; [exact Hrun | ]. split; [ | split; [ | split; assumption]].
  - rewrite frames_flat_map. apply flat_map_singleton.
  - rewrite decoded_flat_map. rewrite <- flat_map_singleton.
    apply flat_map_agree. intros a Ha. apply addrs_range in Ha.
    unfold read_events. cbn [decoded flat_map app cs_toggle map seq Z.of_nat].
    rewrite read_data_dev_tx, land_0x3FF_idem, mask10_small by lia. reflexivity.
Qed.

Lemma eeprom_copy_run (cs_pin : Z) (buf : list Z) (s : state) :
  (1024 <= length buf)%nat ->
  exists buf' s',
    eeprom_copy cs_pin buf s = Ok buf' s' (trace_of (eeprom_dump cs_pin s))
    /\ length buf' = length buf
    /\ (forall a, 0 <= a < 1024 -> buf' !! Z.to_nat a = Some (u16 (mem s a)))
    /\ (forall j, (1024 <= j)%nat -> buf' !! j = buf !! j)
    /\ mem s' = mem s /\ dump_flag s' = 0.
Proof.
  intros Hlen.
  destruct (eeprom_copy_loop_image cs_pin 1024 1025 0 buf (set_dump_flag 1 s))
    as (buf' & s1 & Hrun & Hm & Hl & Hin & Hout); try lia; [cbn; lia | ].
  destruct (eeprom_dump_run cs_pin s) as (sd & Hd & _). rewrite Hd. cbn [trace_of].
  exists buf', (set_dump_flag 0 s1).
  split; [ | split; [exact Hl | split; [exact Hin | split; [ | split]]]].
  - unfold eeprom_copy.
    eapply bind_run; [reflexivity | | reflexivity].
    eapply bind_run; [exact Hrun | | ].
    + eapply bind_run; [reflexivity | reflexivity | reflexivity].
    + cbn [set_dump_flag mem app]. rewrite app_nil_r. reflexivity.
  - intros j Hj. apply Hout. lia.
  - exact Hm.
  - reflexivity.
Qed.

(** X7. [eeprom_copy] into a buffer of at least 1024 words returns; the
    first 1024 words of the buffer are then the stored words of addresses
    0 to 1023, the rest of the buffer and the device are unchanged,
    [dump_flag] is 0, and the bus trace is that of [eeprom_dump]. *)
Theorem copy_reads_image (cs_pin : Z) (buf : list Z) (s : state) :
  (1024 <= length buf)%nat ->
  exists buf' s',
    eeprom_copy cs_pin buf s = Ok buf' s' (trace_of (eeprom_dump cs_pin s))
    /\ length buf' = length buf
    /\ (forall a, 0 <= a < 1024 -> buf' !! Z.to_nat a = Some (u16 (mem s a)))
    /\ (forall j, (1024 <= j)%nat -> buf' !! j = buf !! j)
    /\ mem s' = mem s /\ dump_flag s' = 0.
Proof. exact (eeprom_copy_run cs_pin buf s). Qed.

Lemma copy_reads_image_witness :
  exists buf' s',
    eeprom_copy 17 (repeat 0 1025) init_state
      = Ok buf' s' (trace_of (eeprom_dump 17 init_state))
    /\ length buf' = length (repeat 0 1025)
    /\ (forall a, 0 <= a < 1024 -> buf' !! Z.to_nat a = Some (u16 (mem init_state a)))
    /\ (forall j, (1024 <= j)%nat -> buf' !! j = repeat 0 1025 !! j)
    /\ mem s' = mem init_state /\ dump_flag s' = 0.
Proof.
  apply copy_reads_image. rewrite repeat_length. lia.
Defined.

Lemma eeprom_copy_overrun (cs_pin : Z) (buf : list Z) (s : state) :
  (length buf < 1024)%nat ->
  eeprom_copy cs_pin buf s = Err OutOfBounds.
Proof.
  intros Hlen. unfold eeprom_copy.
  eapply bind_run_err; [reflexivity | ]. apply bind_err.
  apply (eeprom_copy_loop_overrun cs_pin (length buf)); lia.
Qed.

(** X8. [eeprom_copy] into a buffer of fewer than 1024 words stores past
    the end of the buffer. *)
Theorem copy_needs_1024_words (cs_pin : Z) (buf : list Z) (s : state) :
  (length buf < 1024)%nat ->
  eeprom_copy cs_pin buf s = Err OutOfBounds.
Proof. exact (eeprom_copy_overrun cs_pin buf s). Qed.

Lemma copy_needs_1024_words_witness :
  eeprom_copy 17 (repeat 0 1023) init_state = Err OutOfBounds.
Proof. apply copy_needs_1024_words. rewrite repeat_length. lia. Defined.

Lemma eeprom_paste_loop_overrun cs_pin : forall n fuel addr buf s,
  (n < fuel)%nat -> addr = Z.of_nat (length buf) - Z.of_nat n -> 0 <= addr ->
  (length buf < 1024)%nat ->
  eeprom_paste_loop fuel cs_pin addr buf s = Err OutOfBounds.
Proof.
  induction n as [ | n IH]; intros fuel addr buf s Hfuel Haddr Hi Hlen;
    (destruct fuel as [ | fuel]; [lia | ]); cbn [eeprom_paste_loop];
    rewrite (proj2 (Z.leb_le addr 0x3FF)) by lia.
  - apply bind_err, load_fault. lia.
  - eapply bind_run_err; [apply load_word_run; lia | ].
    eapply bind_run_err; [apply eeprom_write_stores | ].
    rewrite u16_small by lia. apply IH; lia.
Qed.

Lemma word_lookup buf a w : buf !! Z.to_nat a = Some w -> word buf a = w.
Proof. unfold word. intros ->. reflexivity. Qed.

(** X9. On a device with writes enabled, [eeprom_paste] from an image of
    1024 16-bit words followed by [eeprom_copy] into a buffer of 1024 words
    both return, and the buffer is then equal to the image. *)
Theorem paste_then_copy_recovers_image (cs_pin : Z) (image buf : list Z) (s : state) :
  wen s = true ->
  length image = 1024%nat ->
  Forall is_word image ->
  length buf = 1024%nat ->
  exists s1 tr1 s2 tr2,
    eeprom_paste cs_pin image s = Ok tt s1 tr1
    /\ eeprom_copy cs_pin buf s1 = Ok image s2 tr2.
Proof.
  intros Hwen Hli Hw Hlb.
  destruct (eeprom_paste_loop_run cs_pin image 1024 1025 0 s)
    as (s1 & Hp & _ & _ & _ & Hin & _); try lia.
  rewrite Hwen in Hin.
  destruct (eeprom_copy_run cs_pin buf s1) as (buf' & s2 & Hc & Hl & Himg & _);
    [lia | ].
  assert (Heq : buf' = image).
  { apply list_eq. intros j. destruct (Nat.lt_ge_cases j 1024) as [Hj | Hj].
    - pose proof (Himg (Z.of_nat j) ltac:(lia)) as Hb. rewrite Nat2Z.id in Hb.
      rewrite Hb, Hin by lia.
      destruct (lookup_lt_is_Some_2 image j ltac:(lia)) as [w Hwj].
      rewrite (word_lookup image (Z.of_nat j) w) by (rewrite Nat2Z.id; exact Hwj).
      pose proof (proj1 (Forall_lookup _ _) Hw j w Hwj) as Hr. unfold is_word in Hr.
      rewrite land_0xFFFF, word_mod, u16_small by lia. symmetry. exact Hwj.
    - rewrite !lookup_ge_None_2 by lia. reflexivity. }
  subst buf'. exists s1. do 3 eexists. split; [exact Hp | exact Hc].
Qed.

Lemma paste_then_copy_recovers_image_witness :
  exists s1 tr1 s2 tr2,
    eeprom_paste 17 (repeat 0x1234 1024) init_state = Ok tt s1 tr1
    /\ eeprom_copy 17 (repeat 0 1024) s1 = Ok (repeat 0x1234 1024) s2 tr2.
Proof.
  apply paste_then_copy_recovers_image.
  - reflexivity.
  - apply repeat_length.
  - apply Forall_forall. intros w Hw. apply list_elem_of_In, repeat_spec in Hw.
    subst w.
    unfold is_word. lia.
  - apply repeat_length.
Defined.

(** X10. [eeprom_paste] from a buffer of fewer than 1024 words reads past
    the end of the buffer. *)
Theorem paste_needs_1024_words (cs_pin : Z) (buf : list Z) (s : state) :
  (length buf < 1024)%nat ->
  eeprom_paste cs_pin buf s = Err OutOfBounds.
Proof.
  intros Hlen. unfold eeprom_paste.
  apply (eeprom_paste_loop_overrun cs_pin (length buf)); lia.
Qed.

Lemma paste_needs_1024_words_witness :
  eeprom_paste 17 (repeat 0 0x3FF) init_state = Err OutOfBounds.
Proof. apply paste_needs_1024_words. rewrite repeat_length. lia. Defined.

(** ** [eeprom_write_string] and [eeprom_read_string] *)

Lemma eeprom_write_string_loop_frames cs_pin (s : list Z) :
  forall fuel i start_addr st pre pad,
    Forall is_char s ->
    Z.of_nat (length pre) = i ->
    i + Z.of_nat (length s) + 2 < 2 ^ 32 ->
    Nat.even (length s) = true \/ (exists pad', pad = 0 :: pad') ->
    (length s < fuel)%nat ->
    exists st' tr,
      eeprom_write_string_loop fuel cs_pin start_addr (pre ++ s ++ 0 :: pad) i st
        = Ok tt st' tr
      /\ frames tr = word_frames start_addr (pack s).
Proof.
  induction s as [ | c | c0 c1 r IH] using pair_ind;
    intros fuel i start_addr st pre pad Hs Hi Hlt Hpad Hfuel;
    (destruct fuel as [ | fuel]; [cbn [length] in Hfuel; lia | ]);
    cbn [eeprom_write_string_loop app].
  - exists st, []. split; [ | reflexivity].
    eapply bind_run; [apply load_middle; exact Hi | | reflexivity]. reflexivity.
  - destruct Hpad as [Hpad | [pad' ->]]; [discriminate Hpad | ].
    apply Forall_cons in Hs as [Hc _].
    destruct fuel as [ | fuel]; [cbn [length] in Hfuel; lia | ].
    cbn [length] in Hlt.
    exists (stored start_addr (pack_word c 0) st), (write_events cs_pin start_addr (pack_word c 0)).
    split; [ | reflexivity].
    eapply bind_run; [apply load_middle; exact Hi | | reflexivity].
    rewrite (is_char_nonzero c Hc). cbn [negb].
    eapply bind_run; [apply load_middle2; [exact Hi | lia] | | reflexivity].
    cbn [Z.eqb negb]. fold (pack_word c 0).
    eapply bind_run; [apply eeprom_write_stores | | ].
    + cbn [eeprom_write_string_loop].
      assert (Hend : load (pre ++ c :: 0 :: 0 :: pad') (u32 (i + 2))
                          (stored start_addr (pack_word c 0) st)
                     = Ok 0 (stored start_addr (pack_word c 0) st) []).
      { rewrite u32_small by lia.
        replace (pre ++ c :: 0 :: 0 :: pad') with ((pre ++ [c; 0]) ++ 0 :: pad')
          by (rewrite <- app_assoc; reflexivity).
        apply load_middle. rewrite length_app. cbn [length]. lia. }
      eapply bind_run; [exact Hend | reflexivity | reflexivity].
    + unfold write_events. rewrite !app_nil_r. reflexivity.
  - apply Forall_cons in Hs as [Hc0 Hs]. apply Forall_cons in Hs as [Hc1 Hs].
    cbn [length] in Hlt, Hfuel, Hpad.
    destruct (IH fuel (i + 2) (u16 (start_addr + 1))
                 (stored start_addr (pack_word c0 c1) st) (pre ++ [c0; c1]) pad)
      as (st' & tr & Hrun & Hfr); try assumption; try lia.
    { rewrite length_app. cbn [length]. lia. }
    exists st', (write_events cs_pin start_addr (pack_word c0 c1) ++ tr).
    split.
    + eapply bind_run; [apply load_middle; exact Hi | | reflexivity].
      rewrite (is_char_nonzero c0 Hc0). cbn [negb].
      eapply bind_run; [apply load_middle2; [exact Hi | lia] | | reflexivity].
      rewrite (is_char_nonzero c1 Hc1). cbn [negb]. fold (pack_word c0 c1).
      eapply bind_run; [apply eeprom_write_stores | | reflexivity].
      rewrite u32_small by lia.
      replace (pre ++ c0 :: c1 :: r ++ 0 :: pad)
        with ((pre ++ [c0; c1]) ++ r ++ 0 :: pad)
        by (rewrite <- app_assoc; reflexivity).
      exact Hrun.
    + rewrite frames_app, Hfr. reflexivity.
Qed.

Lemma pack_length_exact s : length (pack s) = Nat.div2 (S (length s)).
Proof. induction s as [ | c | c0 c1 r IH] using pair_ind; cbn in *; lia. Qed.

(** X11. [eeprom_write_string] of a text of non-zero characters, stored with
    its terminating zero byte (and, for odd length, one more zero byte),
    returns and transmits one write frame per pair of characters, first
    character in the high byte, at consecutive addresses from [start_addr];
    a last single character is paired with a zero byte; the terminator is
    no word of its own.  The number of frames is the length of the text
    divided by two, rounded up.  The device then holds those words if it
    has writes enabled, and its former contents if it has not. *)
Theorem write_string_packs_pairs (cs_pin start_addr : Z) (s pad : list Z) (st : state) :
  Forall is_char s ->
  Z.of_nat (length s) + 2 < 2 ^ 32 ->
  Nat.even (length s) = true \/ (exists pad', pad = 0 :: pad') ->
  exists st' tr,
    eeprom_write_string cs_pin start_addr (s ++ 0 :: pad) st = Ok tt st' tr
    /\ frames tr = word_frames start_addr (pack s)
    /\ length (frames tr) = Nat.div2 (S (length s))
    /\ mem st' = (if wen st then store_words (mem st) start_addr (pack s)
                  else mem st).
Proof.
  intros Hs Hlen Hpad.
  destruct (eeprom_write_string_loop_frames cs_pin s (S (length (s ++ 0 :: pad)))
              0 start_addr st [] pad)
    as (st' & tr & Hrun & Hfr); try assumption; try reflexivity; try lia.
  { rewrite length_app. cbn [length]. lia. }
  destruct (eeprom_write_string_loop_run cs_pin s (S (length (s ++ 0 :: pad)))
              0 start_addr st [] pad)
    as (st2 & tr2 & Hrun2 & Hm & _); try assumption; try reflexivity; try lia.
  { rewrite length_app. cbn [length]. lia. }
  cbn [app] in Hrun, Hrun2. rewrite Hrun in Hrun2.
  apply Ok_inj in Hrun2 as (_ & <- & _).
  exists st', tr. split; [exact Hrun | ]. split; [exact Hfr | ].
  split; [ | exact Hm].
  rewrite Hfr. clear. revert start_addr.
  induction s as [ | c | c0 c1 r IH] using pair_ind; intros a; cbn in *;
    [reflexivity | reflexivity | ]. rewrite IH. reflexivity.
Qed.

Lemma write_string_packs_pairs_witness :
  exists st' tr,
    eeprom_write_string 17 0x300 ([72; 105; 32; 78; 67] ++ 0 :: [0]) init_state
      = Ok tt st' tr
    /\ frames tr = word_frames 0x300 (pack [72; 105; 32; 78; 67])
    /\ length (frames tr) = Nat.div2 (S (length [72; 105; 32; 78; 67]))
    /\ mem st' = (if wen init_state
                  then store_words (mem init_state) 0x300 (pack [72; 105; 32; 78; 67])
                  else mem init_state).
Proof.
  apply write_string_packs_pairs.
  - repeat constructor; unfold is_char; lia.
  - simpl. lia.
  - right. exists []. reflexivity.
Defined.

Lemma c_str_terminated (str : list Z) : forall i : nat,
  str !! i = Some 0 -> exists t, c_str str = Some t /\ (length t <= i)%nat.
Proof.
  induction str as [ | c str IH]; intros i Hi; [discriminate Hi | ].
  cbn [c_str]. destruct (Z.eqb_spec c 0) as [-> | Hc].
  - exists []. split; [reflexivity | cbn; lia].
  - destruct i as [ | i]; [cbn in Hi; congruence | ].
    destruct (IH i Hi) as (t & Ht & Hl). exists (c :: t). rewrite Ht.
    split; [reflexivity | cbn [length]; lia].
Qed.

Ltac count_frames :=
  rewrite ?frames_app, ?frames_read_bracket;
  cbn [frames flat_map app length]; rewrite ?length_app;
  cbn [length]; lia.

Section ReadStringReads.
Variables (cs_pin max_len : Z).
Hypothesis Hmax : 1 <= max_len < 2 ^ 32.

Lemma eeprom_read_string_loop_reads : forall fuel i start_addr st str,
  0 <= i <= max_len - 1 ->
  (Z.to_nat max_len <= length str)%nat ->
  (Z.to_nat (max_len - 1 - i) < fuel)%nat ->
  exists str' i' st' tr,
    eeprom_read_string_loop fuel cs_pin start_addr str max_len i st
      = Ok (str', i') st' tr
    /\ 2 * Z.of_nat (length (frames tr)) <= max_len - i
    /\ mem st' = mem st.
Proof.
  induction fuel as [ | fuel IH]; intros i start_addr st str Hi Hlen Hfuel; [lia | ].
  cbn [eeprom_read_string_loop]. rewrite (read_string_bound max_len) by lia.
  destruct (Z.ltb_spec i (max_len - 1)) as [Hlt | Hge].
  2:{ exists str, i, st, []. split; [reflexivity | split; [cbn; lia | reflexivity]]. }
  destruct ((u8 (Z.shiftr (u16 (mem st (Z.land start_addr 0x3FF))) 8) =? 0)
            || (u8 (Z.land (u16 (mem st (Z.land start_addr 0x3FF))) 0xFF) =? 0))
    eqn:Hbrk;
    destruct (Z.ltb_spec (i + 1) (max_len - 1)) as [Hlt1 | Hge1].
  - do 4 eexists. split; [ | split].
    + read_and_store. store_low. rewrite Hbrk. reflexivity.
    + count_frames.
    + reflexivity.
  - do 4 eexists. split; [ | split].
    + read_and_store. skip_low. rewrite Hbrk. reflexivity.
    + count_frames.
    + reflexivity.
  - edestruct (IH (i + 1 + 1) (u16 (start_addr + 1)) (latched start_addr st))
      as (str' & i' & st' & tr & Hrun & Hn & Hm);
      [ | | | exists str', i', st'; eexists; split; [ | split; [ | exact Hm]]].
    4:{ read_and_store. store_low. rewrite Hbrk. exact Hrun. }
    + lia.
    + rewrite !length_insert. exact Hlen.
    + lia.
    + count_frames.
  - edestruct (IH (i + 1) (u16 (start_addr + 1)) (latched start_addr st))
      as (str' & i' & st' & tr & Hrun & Hn & Hm);
      [ | | | exists str', i', st'; eexists; split; [ | split; [ | exact Hm]]].
    4:{ read_and_store. skip_low. rewrite Hbrk. exact Hrun. }
    + lia.
    + rewrite !length_insert. exact Hlen.
    + lia.
    + count_frames.
Qed.
End ReadStringReads.

(** X12. With [1 <= max_len] and a buffer of at least [max_len] characters,
    [eeprom_read_string] returns; the buffer then holds a zero-terminated
    text of fewer than [max_len] characters; at most [max_len / 2] words
    were read from the device, and no stored word changed. *)
Theorem read_string_terminates_text (cs_pin start_addr max_len : Z) (fuel : nat)
    (str : list Z) (st : state) :
  1 <= max_len < 2 ^ 32 ->
  (Z.to_nat max_len <= length str)%nat ->
  (Z.to_nat max_len <= fuel)%nat ->
  exists str' st' tr text,
    eeprom_read_string fuel cs_pin start_addr str max_len st = Ok str' st' tr
    /\ length str' = length str
    /\ c_str str' = Some text
    /\ Z.of_nat (length text) < max_len
    /\ 2 * Z.of_nat (length (frames tr)) <= max_len
    /\ mem st' = mem st.
Proof.
  intros Hmax Hlen Hfuel.
  destruct (eeprom_read_string_in_bounds cs_pin max_len Hmax fuel start_addr st str)
    as (str' & i' & st' & tr & Hrun & Hl & Hi' & Hz); try assumption.
  destruct (eeprom_read_string_loop_reads cs_pin max_len Hmax fuel 0 start_addr st str)
    as (str1 & i1 & st1 & tr1 & Hloop & Hn & Hm); try lia.
  destruct (c_str_terminated str' (Z.to_nat i') Hz) as (text & Ht & Htl).
  exists str', st', tr, text.
  split; [exact Hrun | ]. split; [exact Hl | ]. split; [exact Ht | ].
  split; [lia | ].
  unfold eeprom_read_string in Hrun.
  apply bind_inv in Hrun as ([str2 i2] & s2 & t1 & t2 & Hloop' & Hstore & ->).
  rewrite Hloop in Hloop'. apply Ok_inj in Hloop' as (_ & <- & <-).
  cbv beta iota in Hstore. unfold store in Hstore.
  destruct (bool_decide _); [ | discriminate Hstore].
  apply Ok_inj in Hstore as (_ & <- & <-).
  rewrite app_nil_r. split; [lia | exact Hm].
Qed.

Lemma read_string_terminates_text_witness :
  exists str' st' tr text,
    eeprom_read_string 8 17 0x300 (repeat 0 8) 8 init_state = Ok str' st' tr
    /\ length str' = length (repeat 0 8)
    /\ c_str str' = Some text
    /\ Z.of_nat (length text) < 8
    /\ 2 * Z.of_nat (length (frames tr)) <= 8
    /\ mem st' = mem init_state.
Proof.
  apply read_string_terminates_text.
  - lia.
  - simpl. lia.
  - simpl. lia.
Defined.

(** ** The chip-select protocol *)

Lemma cs_run_app c t1 t2 :
  cs_run c (t1 ++ t2) = match cs_run c t1 with
                        | Some c' => cs_run c' t2
                        | None => None
                        end.
Proof.
  revert c. induction t1 as [ | e t1 IH]; intros c; cbn [cs_run app]; [reflexivity | ].
  destruct (cs_step c e); [apply IH | reflexivity].
Qed.

Lemma well_framed_nil : well_framed [].
Proof. intros c Hc. exists c. split; [reflexivity | exact Hc]. Qed.

Lemma well_framed_app t1 t2 :
  well_framed t1 -> well_framed t2 -> well_framed (t1 ++ t2).
Proof.
  intros H1 H2 c Hc. destruct (H1 c Hc) as (c1 & Hr1 & Hc1).
  destruct (H2 c1 Hc1) as (c2 & Hr2 & Hc2).
  exists c2. rewrite cs_run_app, Hr1. split; assumption.
Qed.

Lemma well_framed_flat_map {A} (f : A -> list event) (l : list A) :
  (forall a, well_framed (f a)) -> well_framed (flat_map f l).
Proof.
  intros H. induction l as [ | a l IH]; [apply well_framed_nil | ].
  cbn [flat_map]. apply well_framed_app; [apply H | exact IH].
Qed.

(** Run a concrete trace from each settled line state. *)
Ltac cs_cases :=
  intros [[ | | | ] [ | ]] Hc; try discriminate Hc;
  eexists; (split; [reflexivity | reflexivity]).

Lemma well_framed_write_events cs_pin addr data :
  well_framed (write_events cs_pin addr data).
Proof. cs_cases. Qed.

Lemma well_framed_cs_select cs_pin : well_framed [GpioPut cs_pin true; Delay250ns].
Proof. cs_cases. Qed.

Lemma well_framed_dump_chunk cs_pin m addr :
  well_framed (cs_toggle cs_pin ++ read_events m addr).
Proof. cs_cases. Qed.

Lemma well_framed_read cs_pin m addr :
  well_framed (cs_toggle cs_pin ++ read_events m addr ++ cs_toggle cs_pin).
Proof. cs_cases. Qed.

Lemma well_framed_erase cs_pin addr :
  well_framed (cs_toggle cs_pin ++
               [SpiWrite (erase_cmdbuf addr); GpioPut cs_pin false; Delay250ns; SleepMs 4]).
Proof. cs_cases. Qed.

Lemma well_framed_enable cs_pin f :
  well_framed (cs_toggle cs_pin ++ [SpiWrite f; GpioPut cs_pin false; Delay250ns]).
Proof. cs_cases. Qed.

(** *** The rules of [cs_triple] *)

Lemma cs_triple_ret {A} (a : A) P : cs_triple P (ret a) P.
Proof.
  intros s a' s' tr c Hf Hc H. inversion H; subst.
  split; [exact Hf | ]. exists c. split; [reflexivity | exact Hc].
Qed.

Lemma cs_triple_raise {A} e P Q : cs_triple P (@raise A e) Q.
Proof. intros s a s' tr c _ _ H. discriminate H. Qed.

Lemma cs_triple_bind {A B} (m : M A) (f : A -> M B) P R Q :
  cs_triple P m R -> (forall a, cs_triple R (f a) Q) -> cs_triple P (m ≫= f) Q.
Proof.
  intros Hm Hf s b s2 tr c Hflag Hc H.
  apply bind_inv in H as (a & s1 & t1 & t2 & H1 & H2 & ->).
  destruct (Hm _ _ _ _ _ Hflag Hc H1) as (Hf1 & c1 & Hr1 & Hc1).
  destruct (Hf a _ _ _ _ _ Hf1 Hc1 H2) as (Hf2 & c2 & Hr2 & Hc2).
  split; [exact Hf2 | ]. exists c2. rewrite cs_run_app, Hr1. split; assumption.
Qed.

Lemma cs_triple_weaken {A} (m : M A) (P P' Q Q' : cs_state -> Prop) :
  cs_triple P' m Q' -> (forall c, P c -> P' c) -> (forall c, Q' c -> Q c) ->
  cs_triple P m Q.
Proof.
  intros Hm HP HQ s a s' tr c Hflag Hc H.
  destruct (Hm _ _ _ _ _ Hflag (HP _ Hc) H) as (Hf & c' & Hr & Hc').
  split; [exact Hf | ]. exists c'. split; [exact Hr | apply HQ, Hc'].
Qed.

(** An action with a known trace and no effect on the flag. *)
Lemma cs_triple_trace {A} (m : M A) (t : state -> list event)
    (P Q : cs_state -> Prop) :
  (forall s a s' tr, m s = Ok a s' tr -> tr = t s /\ dump_flag s' = dump_flag s) ->
  (forall s c, dump_flag s = 0 -> P c -> exists c', cs_run c (t s) = Some c' /\ Q c') ->
  cs_triple P m Q.
Proof.
  intros Hm Ht s a s' tr c Hflag Hc H.
  destruct (Hm _ _ _ _ H) as [-> Hf]. split; [congruence | ]. apply Ht; assumption.
Qed.

Lemma cs_triple_load buf i P : cs_triple P (load buf i) P.
Proof.
  unfold load. destruct (buf !! Z.to_nat i);
    [apply cs_triple_ret | apply cs_triple_raise].
Qed.

Lemma cs_triple_store buf i v P : cs_triple P (store buf i v) P.
Proof.
  unfold store. destruct (bool_decide _);
    [apply cs_triple_ret | apply cs_triple_raise].
Qed.

Lemma cs_triple_well_framed {A} (m : M A) (t : state -> list event) :
  (forall s a s' tr, m s = Ok a s' tr -> tr = t s /\ dump_flag s' = dump_flag s) ->
  (forall s, dump_flag s = 0 -> well_framed (t s)) ->
  cs_triple settled m settled.
Proof.
  intros Hm Ht. apply (cs_triple_trace m t); [exact Hm | ].
  intros s c Hf Hc. apply (Ht s Hf c Hc).
Qed.

Lemma cs_triple_write cs_pin addr data :
  cs_triple settled (eeprom_write cs_pin addr data) settled.
Proof.
  apply (cs_triple_well_framed _ (fun _ => write_events cs_pin addr data)).
  - intros s a s' tr H. rewrite eeprom_write_stores in H.
    apply Ok_inj in H as (_ & <- & <-). split; reflexivity.
  - intros s _. apply well_framed_write_events.
Qed.

Lemma cs_triple_read cs_pin addr :
  cs_triple settled (eeprom_read cs_pin addr) settled.
Proof.
  apply (cs_triple_well_framed _
           (fun s => read_bracket cs_pin s ++ read_events (mem s) addr
                     ++ read_bracket cs_pin s)).
  - intros s a s' tr H. rewrite eeprom_read_run in H.
    apply Ok_inj in H as (_ & <- & <-). split; reflexivity.
  - intros s Hf. unfold read_bracket. rewrite Hf. apply well_framed_read.
Qed.

Lemma cs_triple_erase cs_pin addr :
  cs_triple settled (eeprom_erase cs_pin addr) settled.
Proof.
  apply (cs_triple_well_framed _
           (fun _ => cs_toggle cs_pin ++
                     [SpiWrite (erase_cmdbuf addr); GpioPut cs_pin false;
                      Delay250ns; SleepMs 4])).
  - intros s a s' tr H. rewrite eeprom_erase_erases in H.
    apply Ok_inj in H as (_ & <- & <-). split; reflexivity.
  - intros s _. apply well_framed_erase.
Qed.

Lemma cs_triple_write_enable cs_pin :
  cs_triple settled (eeprom_write_enable cs_pin) settled.
Proof.
  apply (cs_triple_well_framed _
           (fun _ => cs_toggle cs_pin ++
                     [SpiWrite wen_cmdbuf; GpioPut cs_pin false; Delay250ns])).
  - intros s a s' tr H. rewrite eeprom_write_enable_run in H.
    apply Ok_inj in H as (_ & <- & <-). split; [reflexivity | apply dev_rx_flag].
  - intros s _. apply well_framed_enable.
Qed.

Lemma cs_triple_write_disable cs_pin :
  cs_triple settled (eeprom_write_disable cs_pin) settled.
Proof.
  apply (cs_triple_well_framed _
           (fun _ => cs_toggle cs_pin ++
                     [SpiWrite wds_cmdbuf; GpioPut cs_pin false; Delay250ns])).
  - intros s a s' tr H. rewrite eeprom_write_disable_run in H.
    apply Ok_inj in H as (_ & <- & <-). split; [reflexivity | apply dev_rx_flag].
  - intros s _. apply well_framed_enable.
Qed.

Lemma cs_triple_cs_select cs_pin : cs_triple settled (cs_select cs_pin) settled.
Proof.
  apply (cs_triple_well_framed _ (fun _ => [GpioPut cs_pin true; Delay250ns])).
  - intros s a s' tr H. rewrite cs_select_run in H.
    apply Ok_inj in H as (_ & <- & <-). split; reflexivity.
  - intros s _. apply well_framed_cs_select.
Qed.

(** Decompose an action whose parts all keep the assertion [R]. *)
Ltac framed_with mid :=
  repeat first
    [ assumption
    | match goal with H : forall _, _ |- _ => apply H end
    | apply cs_triple_ret | apply cs_triple_raise
    | apply cs_triple_load | apply cs_triple_store
    | apply cs_triple_write | apply cs_triple_read | apply cs_triple_cs_select
    | apply cs_triple_bind with (R := mid); [ | intros ? ]
    | match goal with
      | |- cs_triple _ (if ?c then _ else _) _ => destruct c
      | |- cs_triple _ (let '(_, _) := ?p in _) _ => destruct p
      | |- cs_triple _ (match ?p with (_, _) => _ end) _ => destruct p
      end ].

Lemma cs_triple_write_buf_loop fuel cs_pin start_addr buf len i :
  cs_triple settled (eeprom_write_buf_loop fuel cs_pin start_addr buf len i) settled.
Proof.
  revert i. induction fuel as [ | fuel IH]; intros i; cbn [eeprom_write_buf_loop];
    framed_with settled.
Qed.

Lemma cs_triple_paste_loop fuel cs_pin addr buf :
  cs_triple settled (eeprom_paste_loop fuel cs_pin addr buf) settled.
Proof.
  revert addr. induction fuel as [ | fuel IH]; intros addr; cbn [eeprom_paste_loop];
    framed_with settled.
Qed.

Lemma cs_triple_write_string_loop fuel cs_pin start_addr str i :
  cs_triple settled (eeprom_write_string_loop fuel cs_pin start_addr str i) settled.
Proof.
  revert start_addr i. induction fuel as [ | fuel IH]; intros start_addr i;
    cbn [eeprom_write_string_loop]; framed_with settled.
Qed.

Lemma cs_triple_read_string_loop fuel cs_pin start_addr str max_len i :
  cs_triple settled (eeprom_read_string_loop fuel cs_pin start_addr str max_len i)
            settled.
Proof.
  revert start_addr str i. induction fuel as [ | fuel IH]; intros start_addr str i;
    cbn [eeprom_read_string_loop]; framed_with settled.
Qed.

Lemma cs_triple_read_string fuel cs_pin start_addr str max_len :
  cs_triple settled (eeprom_read_string fuel cs_pin start_addr str max_len) settled.
Proof.
  unfold eeprom_read_string. pose proof cs_triple_read_string_loop.
  framed_with settled.
Qed.

Lemma cs_triple_void {A} (m : M A) P Q : cs_triple P m Q -> cs_triple P (void m) Q.
Proof.
  intros H. unfold void. apply cs_triple_bind with (R := Q); [exact H | ].
  intros a. apply cs_triple_ret.
Qed.

(** The sequential reads: one session, opened before the command and
    closed after the last response byte. *)
Lemma cs_triple_cs_deselect cs_pin :
  cs_triple settled (cs_deselect cs_pin) (at_level CsLow).
Proof.
  apply (cs_triple_trace _ (fun _ => [GpioPut cs_pin false; Delay250ns])).
  - intros s a s' tr H. rewrite cs_deselect_run in H.
    apply Ok_inj in H as (_ & <- & <-). split; reflexivity.
  - intros s [l b] _ Hc. unfold settled in Hc. cbn in Hc. subst b.
    eexists. split; reflexivity.
Qed.

Lemma cs_triple_delay l : cs_triple (at_level l) delay_250ns (at_level l).
Proof.
  apply (cs_triple_trace _ (fun _ => [Delay250ns])).
  - intros s a s' tr H. apply Ok_inj in H as (_ & <- & <-). split; reflexivity.
  - intros s c _ ->. eexists. split; reflexivity.
Qed.

Lemma cs_triple_select_low cs_pin :
  cs_triple (at_level CsLow) (cs_select cs_pin) (at_level CsFresh).
Proof.
  apply (cs_triple_trace _ (fun _ => [GpioPut cs_pin true; Delay250ns])).
  - intros s a s' tr H. rewrite cs_select_run in H.
    apply Ok_inj in H as (_ & <- & <-). split; reflexivity.
  - intros s c _ ->. eexists. split; reflexivity.
Qed.

Lemma cs_triple_spi_write src len :
  cs_triple (at_level CsFresh) (spi_write_blocking src len) (at_level CsUsed).
Proof.
  apply (cs_triple_trace _ (fun _ => [SpiWrite (take (Z.to_nat len) src)])).
  - intros s a s' tr H. unfold spi_write_blocking in H.
    destruct (bool_decide _); [ | discriminate H].
    apply Ok_inj in H as (_ & <- & <-). split; [reflexivity | apply dev_rx_flag].
  - intros s c _ ->. eexists. split; reflexivity.
Qed.

Lemma cs_triple_spi_read tx dst len :
  cs_triple (at_level CsUsed) (spi_read_blocking tx dst len) (at_level CsUsed).
Proof.
  intros s a s' tr c Hf -> H. unfold spi_read_blocking in H.
  destruct (bool_decide _); [ | discriminate H].
  apply Ok_inj in H as (_ & <- & <-). split; [exact Hf | ].
  eexists. split; reflexivity.
Qed.

Lemma cs_triple_sequential_read_length_loop fuel databuf buf length i P :
  cs_triple P (sequential_read_length_loop fuel databuf buf length i) P.
Proof.
  revert buf i. induction fuel as [ | fuel IH]; intros buf i;
    cbn [sequential_read_length_loop]; framed_with P.
Qed.

Lemma cs_triple_sequential_read_range_loop fuel databuf buf length i P :
  cs_triple P (sequential_read_range_loop fuel databuf buf length i) P.
Proof.
  revert buf i. induction fuel as [ | fuel IH]; intros buf i;
    cbn [sequential_read_range_loop]; framed_with P.
Qed.

Lemma at_level_settled l c : at_level l c -> settled c.
Proof. intros ->. reflexivity. Qed.

Lemma cs_triple_deselect_from l cs_pin :
  cs_triple (at_level l) (cs_deselect cs_pin) settled.
Proof.
  apply (cs_triple_weaken _ _ settled _ (at_level CsLow));
    [apply cs_triple_cs_deselect | apply at_level_settled | apply at_level_settled].
Qed.

Lemma cs_triple_sequential_read_length cs_pin start_addr buf length :
  cs_triple settled (eeprom_sequential_read_length cs_pin start_addr buf length)
            settled.
Proof.
  unfold eeprom_sequential_read_length.
  destruct (length =? 0); [apply cs_triple_ret | ].
  eapply cs_triple_bind; [apply cs_triple_cs_deselect | intros _].
  eapply cs_triple_bind; [apply cs_triple_delay | intros _].
  eapply cs_triple_bind; [apply cs_triple_select_low | intros _].
  eapply cs_triple_bind; [apply cs_triple_spi_write | intros _].
  eapply cs_triple_bind; [apply cs_triple_spi_read | intros databuf].
  eapply cs_triple_bind; [apply cs_triple_load | intros d0].
  eapply cs_triple_bind; [apply cs_triple_load | intros d1].
  eapply cs_triple_bind; [apply cs_triple_load | intros d2].
  eapply cs_triple_bind; [apply cs_triple_store | intros buf1].
  eapply cs_triple_bind; [apply cs_triple_sequential_read_length_loop | intros buf2].
  eapply cs_triple_bind; [apply cs_triple_deselect_from | intros _].
  apply cs_triple_ret.
Qed.

Lemma cs_triple_sequential_read_range cs_pin start_addr end_addr buf :
  cs_triple settled (eeprom_sequential_read_range cs_pin start_addr end_addr buf)
            settled.
Proof.
  unfold eeprom_sequential_read_range.
  destruct (start_addr >? end_addr); [apply cs_triple_ret | ].
  eapply cs_triple_bind; [apply cs_triple_cs_deselect | intros _].
  eapply cs_triple_bind; [apply cs_triple_delay | intros _].
  eapply cs_triple_bind; [apply cs_triple_select_low | intros _].
  eapply cs_triple_bind; [apply cs_triple_spi_write | intros _].
  eapply cs_triple_bind; [apply cs_triple_spi_read | intros databuf].
  eapply cs_triple_bind; [apply cs_triple_load | intros d0].
  eapply cs_triple_bind; [apply cs_triple_load | intros d1].
  eapply cs_triple_bind; [apply cs_triple_load | intros d2].
  eapply cs_triple_bind; [apply cs_triple_store | intros buf1].
  eapply cs_triple_bind; [apply cs_triple_sequential_read_range_loop | intros buf2].
  eapply cs_triple_bind; [apply cs_triple_deselect_from | intros _].
  apply cs_triple_ret.
Qed.

Lemma cs_triple_dump cs_pin : cs_triple settled (eeprom_dump cs_pin) settled.
Proof.
  intros s a s' tr c _ Hc H.
  destruct (eeprom_dump_run cs_pin s) as (s2 & Hrun & Hf & _).
  rewrite Hrun in H. apply Ok_inj in H as (_ & <- & <-).
  split; [exact Hf | ].
  apply (well_framed_flat_map _ _ (fun a => well_framed_dump_chunk cs_pin (mem s) a));
    exact Hc.
Qed.

Lemma cs_triple_copy cs_pin buf : cs_triple settled (eeprom_copy cs_pin buf) settled.
Proof.
  intros s a s' tr c _ Hc H.
  destruct (Nat.lt_ge_cases (length buf) 1024) as [Hlt | Hge].
  { rewrite eeprom_copy_overrun in H by exact Hlt. discriminate H. }
  destruct (eeprom_copy_run cs_pin buf s Hge) as (buf' & s2 & Hrun & _ & _ & _ & _ & Hf).
  rewrite Hrun in H. apply Ok_inj in H as (_ & <- & <-).
  split; [exact Hf | ].
  destruct (eeprom_dump_run cs_pin s) as (s3 & Hd & _). rewrite Hd. cbn [trace_of].
  apply (well_framed_flat_map _ _ (fun a => well_framed_dump_chunk cs_pin (mem s) a));
    exact Hc.
Qed.

Lemma cs_triple_call cs_pin op : cs_triple settled (call cs_pin op) settled.
Proof.
  destruct op; cbn [call].
  - apply cs_triple_write_enable.
  - apply cs_triple_write_disable.
  - apply cs_triple_void, cs_triple_read.
  - apply cs_triple_write.
  - apply cs_triple_write_buf_loop.
  - apply cs_triple_erase.
  - apply cs_triple_dump.
  - apply cs_triple_void, cs_triple_copy.
  - apply cs_triple_paste_loop.
  - apply cs_triple_write_string_loop.
  - apply cs_triple_void, cs_triple_read_string.
  - apply cs_triple_void, cs_triple_sequential_read_length.
  - apply cs_triple_void, cs_triple_sequential_read_range.
Qed.

Lemma cs_triple_calls cs_pin ops : cs_triple settled (calls cs_pin ops) settled.
Proof.
  induction ops as [ | op ops IH]; cbn [calls]; [apply cs_triple_ret | ].
  apply cs_triple_bind with (R := settled); [apply cs_triple_call | intros _; exact IH].
Qed.

(** X13. In every sequence of public operations entered with [dump_flag] 0,
    whatever the level of the chip-select line before: each write to the
    line is followed by a delay before the next write or transfer; each
    command frame is sent on a line that was deasserted and asserted again
    since the previous transfer; and each response is clocked in the
    session of its command. *)
Theorem calls_respect_chip_select (cs_pin : Z) (ops : list operation)
    (s s' : state) (tr : list event) :
  dump_flag s = 0 ->
  calls cs_pin ops s = Ok tt s' tr ->
  well_framed tr.
Proof.
  intros Hf H c Hc.
  destruct (cs_triple_calls cs_pin ops s tt s' tr c Hf Hc H) as (_ & c' & Hr & Hc').
  exists c'. split; assumption.
Qed.

Lemma calls_respect_chip_select_witness :
  well_framed
    (trace_of (calls 17 [WriteEnable; Erase 0x10; Write 0x10 0xDEAD; Read 0x10;
                         WriteBuf 0x100 [0xFEED; 0x5731] 2]
                     init_state)).
Proof.
  apply (calls_respect_chip_select 17
           [WriteEnable; Erase 0x10; Write 0x10 0xDEAD; Read 0x10;
            WriteBuf 0x100 [0xFEED; 0x5731] 2]
           init_state
           (state_of init_state
              (calls 17 [WriteEnable; Erase 0x10; Write 0x10 0xDEAD; Read 0x10;
                         WriteBuf 0x100 [0xFEED; 0x5731] 2] init_state))).
  - reflexivity.
  - reflexivity.
Defined.

(** ** The sequential reads *)

Lemma dev_tx_length s n : length (dev_tx s n) = n.
Proof. unfold dev_tx. rewrite length_map. apply length_seq. Qed.

Lemma dev_tx_lookup s n j :
  (j < n)%nat ->
  dev_tx s n !! j = Some (dev_tx_byte (mem s) (raddr s) (Z.of_nat j)).
Proof.
  intros H. unfold dev_tx. rewrite list_lookup_fmap.
  rewrite (lookup_seq_lt 0 n j H). reflexivity.
Qed.

Lemma spi_read_blocking_fresh s n :
  0 <= n ->
  spi_read_blocking 0 (repeat 0 (Z.to_nat n)) n s
  = Ok (dev_tx s (Z.to_nat n)) s [SpiRead (dev_tx s (Z.to_nat n))].
Proof.
  intros Hn. unfold spi_read_blocking.
  rewrite bool_decide_eq_true_2 by (rewrite repeat_length; lia).
  cbv zeta. rewrite drop_ge by (rewrite repeat_length; lia).
  rewrite app_nil_r. reflexivity.
Qed.

Lemma spi_write_read_cmd addr s :
  spi_write_blocking (read_cmdbuf addr) 2 s
  = Ok tt (latched addr s) [SpiWrite (read_cmdbuf addr)].
Proof.
  unfold spi_write_blocking.
  change (take (Z.to_nat 2) (read_cmdbuf addr)) with (read_cmdbuf addr).
  rewrite dev_rx_read. reflexivity.
Qed.

Section SequentialLoops.
Variables (databuf : list Z) (length_ : Z).
Hypothesis Hlength : 1 <= length_ < 2 ^ 31.
Hypothesis Hdatabuf : length databuf = Z.to_nat (2 * length_ + 1).

Lemma sequential_read_length_loop_run : forall n fuel i buf s,
  (n < fuel)%nat -> i = length_ - Z.of_nat n -> 1 <= i ->
  (Z.to_nat length_ <= length buf)%nat ->
  exists buf',
    sequential_read_length_loop fuel databuf buf length_ i s = Ok buf' s []
    /\ length buf' = length buf /\ buf' !! 0%nat = buf !! 0%nat.
Proof.
  induction n as [ | n IH]; intros fuel i buf s Hfuel Hi Hi1 Hbuf;
    (destruct fuel as [ | fuel]; [lia | ]); cbn [sequential_read_length_loop].
  - rewrite (proj2 (Z.ltb_ge i length_)) by lia. exists buf. auto.
  - rewrite (proj2 (Z.ltb_lt i length_)) by lia. cbv zeta.
    rewrite (u32_small (3 + (i - 1) * 2)) by lia.
    rewrite (u32_small (3 + (i - 1) * 2 + 1)) by lia.
    rewrite (u32_small (i + 1)) by lia.
    edestruct (IH fuel (i + 1)) as (buf' & Hrun & Hl & H0); [lia | lia | lia | | ].
    2:{ exists buf'. split; [ | split; [ | ]].
        - eapply bind_run; [apply load_word_run; lia | | reflexivity].
          eapply bind_run; [apply load_word_run; lia | | reflexivity].
          eapply bind_run; [apply store_run; lia | | reflexivity].
          exact Hrun.
        - rewrite Hl. apply length_insert.
        - rewrite H0. apply list_lookup_insert_ne. lia. }
    rewrite length_insert. exact Hbuf.
Qed.

Lemma sequential_read_range_loop_run : forall n fuel i buf s,
  (n < fuel)%nat -> i = length_ - Z.of_nat n -> 1 <= i ->
  (Z.to_nat length_ <= length buf)%nat ->
  exists buf',
    sequential_read_range_loop fuel databuf buf length_ i s = Ok buf' s []
    /\ length buf' = length buf /\ buf' !! 0%nat = buf !! 0%nat.
Proof.
  induction n as [ | n IH]; intros fuel i buf s Hfuel Hi Hi1 Hbuf;
    (destruct fuel as [ | fuel]; [lia | ]); cbn [sequential_read_range_loop].
  - rewrite (proj2 (Z.ltb_ge i length_)) by lia. exists buf. auto.
  - rewrite (proj2 (Z.ltb_lt i length_)) by lia. cbv zeta.
    rewrite (u32_small (3 + (i - 1) * 2)) by lia.
    rewrite (u32_small (3 + (i - 1) * 2 + 1)) by lia.
    rewrite (u32_small (i + 1)) by lia.
    edestruct (IH fuel (i + 1)) as (buf' & Hrun & Hl & H0); [lia | lia | lia | | ].
    2:{ exists buf'. split; [ | split; [ | ]].
        - eapply bind_run; [apply load_word_run; lia | | reflexivity].
          eapply bind_run; [apply load_word_run; lia | | reflexivity].
          eapply bind_run; [apply store_run; lia | | reflexivity].
          exact Hrun.
        - rewrite Hl. apply length_insert.
        - rewrite H0. apply list_lookup_insert_ne. lia. }
    rewrite length_insert. exact Hbuf.
Qed.
End SequentialLoops.

Lemma sequential_first_word (s : state) (addr : Z) (n : nat) :
  (3 <= n)%nat ->
  let rx := dev_tx (latched addr s) n in
  exists d0 d1 d2,
    rx !! 0%nat = Some d0 /\ rx !! 1%nat = Some d1 /\ rx !! 2%nat = Some d2
    /\ read_data d0 d1 d2 = u16 (mem s (Z.land addr 0x3FF)).
Proof.
  intros Hn rx. do 3 eexists.
  split; [apply dev_tx_lookup; lia | ].
  split; [apply dev_tx_lookup; lia | ].
  split; [apply dev_tx_lookup; lia | ].
  cbn [Z.of_nat Pos.of_succ_nat Pos.succ latched latch_address mem raddr].
  rewrite read_data_dev_tx, land_0x3FF_idem. reflexivity.
Qed.

(** X14. [eeprom_sequential_read_length] with [length = 0] returns at once,
    without any bus activity.  With [1 <= length] and a buffer of at least
    [length] words it returns after one chip-select session in which it
    sends the read command of [start_addr] and clocks in [2 * length + 1]
    bytes; the first word of the buffer is then the word stored at
    [start_addr], and no stored word has changed. *)
Theorem sequential_read_length_session (cs_pin start_addr : Z) (buf : list Z)
    (s : state) :
  eeprom_sequential_read_length cs_pin start_addr buf 0 s = Ok buf s []
  /\ forall length_,
       1 <= length_ < 2 ^ 31 ->
       (Z.to_nat length_ <= length buf)%nat ->
       exists buf' rx,
         eeprom_sequential_read_length cs_pin start_addr buf length_ s
           = Ok buf' (latched start_addr s) (sequential_trace cs_pin start_addr rx)
         /\ length rx = Z.to_nat (2 * length_ + 1)
         /\ length buf' = length buf
         /\ buf' !! 0%nat = Some (u16 (mem s (Z.land start_addr 0x3FF))).
Proof.
  split; [reflexivity | ].
  intros length_ Hlen Hbuf. unfold eeprom_sequential_read_length.
  rewrite (proj2 (Z.eqb_neq length_ 0)) by lia. cbv zeta.
  replace (u32 (3 + (length_ - 1) * 2)) with (2 * length_ + 1)
    by (rewrite u32_small; lia).
  set (n := Z.to_nat (2 * length_ + 1)).
  set (rx := dev_tx (latched start_addr s) n).
  destruct (sequential_first_word s start_addr n ltac:(lia))
    as (d0 & d1 & d2 & H0 & H1 & H2 & Hw).
  fold rx in H0, H1, H2.
  destruct (sequential_read_length_loop_run rx length_ Hlen
              ltac:(apply dev_tx_length) (Z.to_nat length_ - 1) (Z.to_nat length_) 1
              (<[0%nat := read_data d0 d1 d2]> buf) (latched start_addr s))
    as (buf' & Hloop & Hl & Hb0); try lia.
  { rewrite length_insert. exact Hbuf. }
  exists buf', rx. split; [ | split; [apply dev_tx_length | split]].
  - eapply bind_run; [apply cs_deselect_run | | reflexivity].
    eapply bind_run; [reflexivity | | reflexivity].
    eapply bind_run; [apply cs_select_run | | reflexivity].
    eapply bind_run; [apply spi_write_read_cmd | | reflexivity].
    eapply bind_run; [apply spi_read_blocking_fresh; lia | | reflexivity].
    fold n. fold rx.
    eapply bind_run; [apply load_run; exact H0 | | reflexivity].
    eapply bind_run; [apply load_run; exact H1 | | reflexivity].
    eapply bind_run; [apply load_run; exact H2 | | reflexivity].
    eapply bind_run; [apply (store_run buf 0); cbn; lia | | reflexivity].
    eapply bind_run; [exact Hloop | | reflexivity].
    eapply bind_run; [apply cs_deselect_run | reflexivity | reflexivity].
  - rewrite Hl. apply length_insert.
  - rewrite Hb0, <- Hw. apply list_lookup_insert_eq. lia.
Qed.

Lemma sequential_read_length_session_witness :
  exists buf' rx,
    eeprom_sequential_read_length 17 0x101 (repeat 0 10) 8 init_state
      = Ok buf' (latched 0x101 init_state) (sequential_trace 17 0x101 rx)
    /\ length rx = Z.to_nat (2 * 8 + 1)
    /\ length buf' = length (repeat 0 10)
    /\ buf' !! 0%nat = Some (u16 (mem init_state (Z.land 0x101 0x3FF))).
Proof.
  apply (proj2 (sequential_read_length_session 17 0x101 (repeat 0 10) init_state)).
  - lia.
  - simpl. lia.
Defined.

(** X15. [eeprom_sequential_read_range] with [start_addr > end_addr] returns
    at once, without any bus activity.  Otherwise, with a buffer of at
    least [end_addr - start_addr + 1] words, it returns after one
    chip-select session in which it sends the read command of [start_addr]
    and clocks in [2 * (end_addr - start_addr + 1) + 1] bytes; the first
    word of the buffer is then the word stored at [start_addr]. *)
Theorem sequential_read_range_session (cs_pin start_addr end_addr : Z)
    (buf : list Z) (s : state) :
  (start_addr > end_addr ->
   eeprom_sequential_read_range cs_pin start_addr end_addr buf s = Ok buf s [])
  /\ (0 <= start_addr <= end_addr -> end_addr < 65536 ->
      (Z.to_nat (end_addr - start_addr + 1) <= length buf)%nat ->
      exists buf' rx,
        eeprom_sequential_read_range cs_pin start_addr end_addr buf s
          = Ok buf' (latched start_addr s) (sequential_trace cs_pin start_addr rx)
        /\ length rx = Z.to_nat (2 * (end_addr - start_addr + 1) + 1)
        /\ length buf' = length buf
        /\ buf' !! 0%nat = Some (u16 (mem s (Z.land start_addr 0x3FF)))).
Proof.
  split.
  - intros Hgt. unfold eeprom_sequential_read_range.
    rewrite (proj2 (Z.gtb_gt start_addr end_addr)) by lia. reflexivity.
  - intros Hse Hend Hbuf. unfold eeprom_sequential_read_range.
    destruct (Z.gtb_spec start_addr end_addr) as [Hgt | _]; [lia | ]. cbv zeta.
    rewrite (u32_small (end_addr - start_addr + 1)) by lia.
    set (length_ := end_addr - start_addr + 1) in *.
    assert (Hlen : 1 <= length_ < 2 ^ 31) by lia.
    replace (u32 (3 + (length_ - 1) * 2)) with (2 * length_ + 1)
      by (rewrite u32_small; lia).
    set (n := Z.to_nat (2 * length_ + 1)).
    set (rx := dev_tx (latched start_addr s) n).
    destruct (sequential_first_word s start_addr n ltac:(lia))
      as (d0 & d1 & d2 & H0 & H1 & H2 & Hw).
    fold rx in H0, H1, H2.
    destruct (sequential_read_range_loop_run rx length_ Hlen
                ltac:(apply dev_tx_length) (Z.to_nat length_ - 1) (Z.to_nat length_) 1
                (<[0%nat := read_data d0 d1 d2]> buf) (latched start_addr s))
      as (buf' & Hloop & Hl & Hb0); try lia.
    { rewrite length_insert. exact Hbuf. }
    exists buf', rx. split; [ | split; [apply dev_tx_length | split]].
    + eapply bind_run; [apply cs_deselect_run | | reflexivity].
      eapply bind_run; [reflexivity | | reflexivity].
      eapply bind_run; [apply cs_select_run | | reflexivity].
      eapply bind_run; [apply spi_write_read_cmd | | reflexivity].
      eapply bind_run; [apply spi_read_blocking_fresh; lia | | reflexivity].
      fold n. fold rx.
      eapply bind_run; [apply load_run; exact H0 | | reflexivity].
      eapply bind_run; [apply load_run; exact H1 | | reflexivity].
      eapply bind_run; [apply load_run; exact H2 | | reflexivity].
      eapply bind_run; [apply (store_run buf 0); cbn; lia | | reflexivity].
      eapply bind_run; [exact Hloop | | reflexivity].
      eapply bind_run; [apply cs_deselect_run | reflexivity | reflexivity].
    + rewrite Hl. apply length_insert.
    + rewrite Hb0, <- Hw. apply list_lookup_insert_eq. lia.
Qed.

Lemma sequential_read_range_session_witness :
  eeprom_sequential_read_range 17 0x10F 0x100 (repeat 0 16) init_state
    = Ok (repeat 0 16) init_state []
  /\ exists buf' rx,
       eeprom_sequential_read_range 17 0x100 0x10F (repeat 0 16) init_state
         = Ok buf' (latched 0x100 init_state) (sequential_trace 17 0x100 rx)
       /\ length rx = Z.to_nat (2 * (0x10F - 0x100 + 1) + 1)
       /\ length buf' = length (repeat 0 16)
       /\ buf' !! 0%nat = Some (u16 (mem init_state (Z.land 0x100 0x3FF))).
Proof.
  split.
  - apply (proj1 (sequential_read_range_session 17 0x10F 0x100 (repeat 0 16) init_state)).
    lia.
  - apply (proj2 (sequential_read_range_session 17 0x100 0x10F (repeat 0 16) init_state)).
    + lia.
    + lia.
    + simpl. lia.
Defined.

(** ** The frames as numbers *)

Lemma split16_value c :
  0 <= c < 65536 -> be_value (split16 c) = c /\ Forall is_byte (split16 c).
Proof.
  intros Hc. unfold split16, be_value, u8. cbn [fold_left].
  rewrite land_0xFF, Z.shiftr_div_pow2 by lia. split.
  - change (2 ^ 8) with 256. Z.div_mod_to_equations. lia.
  - repeat constructor; unfold is_byte; change (2 ^ 8) with 256;
      Z.div_mod_to_equations; lia.
Qed.

Lemma read_cmd_value addr : read_cmd addr = 6144 + addr mod 1024.
Proof.
  unfold read_cmd. rewrite land_0x3FF.
  rewrite Z.or_to_plus; [reflexivity | ].
  change EEPROM_CMD_READ with (6 mod 2 ^ 3). bits.
Qed.

Lemma erase_cmd_value addr : erase_cmd addr = 57344 + 8 * (addr mod 1024).
Proof.
  unfold erase_cmd. rewrite land_0x3FF.
  rewrite Z.or_to_plus.
  - rewrite !Z.shiftl_mul_pow2 by lia. unfold EEPROM_CMD_ERASE.
    change (2 ^ 13) with 8192. change (2 ^ 3) with 8. change (2 ^ 10) with 1024.
    lia.
  - change EEPROM_CMD_ERASE with (7 mod 2 ^ 3). bits.
Qed.

Lemma write_cmd_value addr data :
  write_cmd addr data = 335544320 + 65536 * (addr mod 1024) + data mod 65536.
Proof.
  unfold write_cmd. rewrite land_0x3FF, land_0xFFFF.
  change (u32 EEPROM_CMD_WRITE) with (5 mod 2 ^ 3).
  rewrite Z.or_to_plus; [rewrite Z.or_to_plus | ].
  - rewrite !Z.shiftl_mul_pow2 by lia. change (5 mod 2 ^ 3) with 5.
    change (2 ^ 26) with 67108864. change (2 ^ 16) with 65536.
    change (2 ^ 10) with 1024. lia.
  - bits.
  - bits.
Qed.

Lemma u16_fits c : 0 <= c < 65536 -> u16 c = c.
Proof. apply u16_small. Qed.

(** X16. Read as numbers, most significant byte first, the frames are:
    0x9800 for EnableWrites and 0x8000 for DisableWrites; 0x1800 + a for
    ReadWord, 0xE000 + 8a for EraseWord and 0x14000000 + 0x10000 a + d for
    WriteWord, where a is the address modulo 1024 and d the data modulo
    65536.  Every byte of every frame is in 0..255. *)
Theorem frames_as_numbers (addr data : Z) :
  be_value wen_cmdbuf = 0x9800
  /\ be_value wds_cmdbuf = 0x8000
  /\ be_value (read_cmdbuf addr) = 0x1800 + addr mod 1024
  /\ be_value (erase_cmdbuf addr) = 0xE000 + 8 * (addr mod 1024)
  /\ be_value (write_cmdbuf addr data)
     = 0x14000000 + 0x10000 * (addr mod 1024) + data mod 65536
  /\ Forall is_byte (read_cmdbuf addr)
  /\ Forall is_byte (erase_cmdbuf addr)
  /\ Forall is_byte (write_cmdbuf addr data).
Proof.
  pose proof (Z.mod_pos_bound addr 1024 ltac:(lia)) as Ha.
  pose proof (Z.mod_pos_bound data 65536 ltac:(lia)) as Hd.
  assert (Hr : u16 (read_cmd addr) = 6144 + addr mod 1024)
    by (rewrite read_cmd_value; apply u16_small; lia).
  assert (He : u16 (erase_cmd addr) = 57344 + 8 * (addr mod 1024))
    by (rewrite erase_cmd_value; apply u16_small; lia).
  assert (Hw : u32 (write_cmd addr data)
               = 335544320 + 65536 * (addr mod 1024) + data mod 65536)
    by (rewrite write_cmd_value; apply u32_small; lia).
  split; [reflexivity | ]. split; [reflexivity | ].
  unfold read_cmdbuf, erase_cmdbuf, write_cmdbuf.
  fold (read_cmd addr). fold (erase_cmd addr). fold (write_cmd addr data).
  rewrite Hr, He, Hw.
  destruct (split16_value (6144 + addr mod 1024) ltac:(lia)) as [Hv1 Hb1].
  destruct (split16_value (57344 + 8 * (addr mod 1024)) ltac:(lia)) as [Hv2 Hb2].
  split; [exact Hv1 | ]. split; [exact Hv2 | ].
  split; [ | split; [exact Hb1 | split; [exact Hb2 | ]]].
  - unfold be_value, u8. cbn [fold_left].
    rewrite !land_0xFF, !Z.shiftr_div_pow2 by lia.
    change (2 ^ 8) with 256. change (2 ^ 16) with 65536. change (2 ^ 24) with 16777216.
    Z.div_mod_to_equations. lia.
  - unfold u8. repeat constructor; unfold is_byte;
      apply Z.mod_pos_bound; reflexivity.
Qed.

(** ** Settle time of the bulk writes *)

Lemma sleep_total_app t1 t2 : sleep_total (t1 ++ t2) = sleep_total t1 + sleep_total t2.
Proof.
  induction t1 as [ | e t1 IH]; [reflexivity | ].
  cbn [app sleep_total fold_right]. fold (sleep_total (t1 ++ t2)). fold (sleep_total t1).
  rewrite IH. destruct e; lia.
Qed.

Lemma sleep_total_flat_map {A} (f : A -> list event) (l : list A) (ms : Z) :
  (forall a, sleep_total (f a) = ms) ->
  sleep_total (flat_map f l) = ms * Z.of_nat (length l).
Proof.
  intros H. induction l as [ | a l IH]; [cbn; lia | ].
  cbn [flat_map length]. rewrite sleep_total_app, H, IH. lia.
Qed.

(** X17. The settle time the bulk operations spend in [sleep_ms]:
    [eeprom_write_buf] of [len] words sleeps 7 ms per word, [eeprom_paste]
    7168 ms in all, and [eeprom_dump] does not sleep. *)
Theorem bulk_settle_time (cs_pin : Z) (s : state) :
  (forall start_addr buf len,
     0 <= len < 2 ^ 32 -> (Z.to_nat len <= length buf)%nat ->
     exists s' tr,
       eeprom_write_buf cs_pin start_addr buf len s = Ok tt s' tr
       /\ sleep_total tr = 7 * len)
  /\ (forall buf,
        (1024 <= length buf)%nat ->
        exists s' tr,
          eeprom_paste cs_pin buf s = Ok tt s' tr /\ sleep_total tr = 7168)
  /\ sleep_total (trace_of (eeprom_dump cs_pin s)) = 0.
Proof.
  split; [ | split].
  - intros start_addr buf len Hlen Hbuf.
    destruct (eeprom_write_buf_loop_run cs_pin start_addr buf len (Z.to_nat len)
                (S (Z.to_nat len)) 0 s) as (s' & Hrun); try lia.
    do 2 eexists. split; [exact Hrun | ].
    rewrite (sleep_total_flat_map _ _ 7) by reflexivity.
    rewrite addrs_length. lia.
  - intros buf Hbuf.
    destruct (eeprom_paste_loop_run cs_pin buf 1024 1025 0 s)
      as (s' & Hrun & _); try lia.
    do 2 eexists. split; [exact Hrun | ].
    rewrite (sleep_total_flat_map _ _ 7) by reflexivity.
    rewrite addrs_length. reflexivity.
  - destruct (eeprom_dump_run cs_pin s) as (s' & Hrun & _). rewrite Hrun. cbn [trace_of].
    rewrite (sleep_total_flat_map _ _ 0) by reflexivity. lia.
Qed.

Lemma bulk_settle_time_witness :
  exists s' tr,
    eeprom_write_buf 17 0x100 [0xFEED; 0x5731; 0xDEAD; 0xBEEF] 4 init_state = Ok tt s' tr
    /\ sleep_total tr = 7 * 4.
Proof.
  apply (proj1 (bulk_settle_time 17 init_state)).
  - lia.
  - simpl. lia.
Defined.

(** ** The write-enable latch *)

Lemma guarded_refl s : guarded s s.
Proof. split; [reflexivity | intros _; reflexivity]. Qed.

Lemma guarded_trans s1 s2 s3 : guarded s1 s2 -> guarded s2 s3 -> guarded s1 s3.
Proof.
  intros [Hw1 Hm1] [Hw2 Hm2]. split; [congruence | ].
  intros H. rewrite Hm2, Hm1; [reflexivity | exact H | congruence].
Qed.

Lemma keeps_latch_ret {A} (a : A) : keeps_latch (ret a).
Proof. intros s a' s' tr H. inversion H; subst. apply guarded_refl. Qed.

Lemma keeps_latch_raise {A} e : keeps_latch (@raise A e).
Proof. intros s a s' tr H. discriminate H. Qed.

Lemma keeps_latch_bind {A B} (m : M A) (f : A -> M B) :
  keeps_latch m -> (forall a, keeps_latch (f a)) -> keeps_latch (m ≫= f).
Proof.
  intros Hm Hf s b s2 tr H.
  apply bind_inv in H as (a & s1 & t1 & t2 & H1 & H2 & _).
  exact (guarded_trans _ _ _ (Hm _ _ _ _ H1) (Hf _ _ _ _ _ H2)).
Qed.

Lemma keeps_latch_emit e : keeps_latch (emit e).
Proof. intros s a s' tr H. inversion H; subst. apply guarded_refl. Qed.

Lemma keeps_latch_get : keeps_latch get_dump_flag.
Proof. intros s a s' tr H. inversion H; subst. apply guarded_refl. Qed.

Lemma keeps_latch_put v : keeps_latch (put_dump_flag v).
Proof.
  intros s a s' tr H. inversion H; subst.
  split; [reflexivity | intros _; reflexivity].
Qed.

Lemma keeps_latch_load a i : keeps_latch (load a i).
Proof.
  unfold load. destruct (a !! Z.to_nat i);
    [apply keeps_latch_ret | apply keeps_latch_raise].
Qed.

Lemma keeps_latch_store a i v : keeps_latch (store a i v).
Proof.
  unfold store. destruct (bool_decide _);
    [apply keeps_latch_ret | apply keeps_latch_raise].
Qed.

Lemma keeps_latch_spi_read tx dst len : keeps_latch (spi_read_blocking tx dst len).
Proof.
  intros s a s' tr H. unfold spi_read_blocking in H.
  destruct (bool_decide _); inversion H; subst. apply guarded_refl.
Qed.

(** A read command frame latches its address and nothing else. *)
Lemma keeps_latch_spi_write_read_cmd addr :
  keeps_latch (spi_write_blocking (read_cmdbuf addr) 2).
Proof.
  intros s a s' tr H. rewrite spi_write_read_cmd in H. inversion H; subst.
  split; [reflexivity | intros _; reflexivity].
Qed.

Lemma keeps_latch_read cs_pin addr : keeps_latch (eeprom_read cs_pin addr).
Proof.
  intros s a s' tr H. rewrite eeprom_read_run in H. inversion H; subst.
  split; [reflexivity | intros _; reflexivity].
Qed.

Lemma keeps_latch_write cs_pin addr data : keeps_latch (eeprom_write cs_pin addr data).
Proof.
  intros s a s' tr H. rewrite eeprom_write_stores in H. inversion H; subst.
  split; [reflexivity | ]. intros Hw. rewrite mem_stored, Hw. reflexivity.
Qed.

Lemma keeps_latch_erase cs_pin addr : keeps_latch (eeprom_erase cs_pin addr).
Proof.
  intros s a s' tr H. rewrite eeprom_erase_erases in H. inversion H; subst.
  split; [reflexivity | ]. intros Hw. rewrite mem_wiped, Hw. reflexivity.
Qed.

Ltac latch_step :=
  lazymatch goal with
  | |- keeps_latch (ret _) => apply keeps_latch_ret
  | |- keeps_latch (raise _) => apply keeps_latch_raise
  | |- keeps_latch (emit _) => apply keeps_latch_emit
  | |- keeps_latch (gpio_put _ _) => apply keeps_latch_emit
  | |- keeps_latch delay_250ns => apply keeps_latch_emit
  | |- keeps_latch (sleep_ms _) => apply keeps_latch_emit
  | |- keeps_latch get_dump_flag => apply keeps_latch_get
  | |- keeps_latch (put_dump_flag _) => apply keeps_latch_put
  | |- keeps_latch (load _ _) => apply keeps_latch_load
  | |- keeps_latch (store _ _ _) => apply keeps_latch_store
  | |- keeps_latch (spi_read_blocking _ _ _) => apply keeps_latch_spi_read
  | |- keeps_latch (spi_write_blocking (read_cmdbuf _) 2) =>
      apply keeps_latch_spi_write_read_cmd
  | |- keeps_latch (eeprom_read _ _) => apply keeps_latch_read
  | |- keeps_latch (eeprom_write _ _ _) => apply keeps_latch_write
  | |- keeps_latch (eeprom_erase _ _) => apply keeps_latch_erase
  | |- keeps_latch (_ ≫= _) => apply keeps_latch_bind; [ | intros ? ]
  | |- keeps_latch (if ?c then _ else _) => destruct c
  | |- keeps_latch (match ?p with (_, _) => _ end) => destruct p
  | |- keeps_latch _ =>
      first [ assumption | match goal with H : forall _, _ |- _ => apply H end ]
  end.

Ltac latch := repeat latch_step.

Lemma keeps_latch_cs_select cs_pin : keeps_latch (cs_select cs_pin).
Proof. unfold cs_select, gpio_put, delay_250ns. latch. Qed.

Lemma keeps_latch_cs_deselect cs_pin : keeps_latch (cs_deselect cs_pin).
Proof. unfold cs_deselect, gpio_put, delay_250ns. latch. Qed.

Lemma keeps_latch_write_buf_loop fuel cs_pin start_addr buf len i :
  keeps_latch (eeprom_write_buf_loop fuel cs_pin start_addr buf len i).
Proof.
  revert i. induction fuel as [ | fuel IH]; intros i; cbn [eeprom_write_buf_loop].
  - latch.
  - pose proof (keeps_latch_cs_select cs_pin). latch.
Qed.

Lemma keeps_latch_paste_loop fuel cs_pin addr buf :
  keeps_latch (eeprom_paste_loop fuel cs_pin addr buf).
Proof.
  revert addr. induction fuel as [ | fuel IH]; intros addr; cbn [eeprom_paste_loop];
    latch.
Qed.

Lemma keeps_latch_dump_loop fuel cs_pin addr :
  keeps_latch (eeprom_dump_loop fuel cs_pin addr).
Proof.
  revert addr. induction fuel as [ | fuel IH]; intros addr; cbn [eeprom_dump_loop].
  - latch.
  - pose proof (keeps_latch_cs_select cs_pin).
    pose proof (keeps_latch_cs_deselect cs_pin). latch.
Qed.

Lemma keeps_latch_copy_loop fuel cs_pin addr buf :
  keeps_latch (eeprom_copy_loop fuel cs_pin addr buf).
Proof.
  revert addr buf. induction fuel as [ | fuel IH]; intros addr buf;
    cbn [eeprom_copy_loop].
  - latch.
  - pose proof (keeps_latch_cs_select cs_pin).
    pose proof (keeps_latch_cs_deselect cs_pin). latch.
Qed.

Lemma keeps_latch_write_string_loop fuel cs_pin start_addr str i :
  keeps_latch (eeprom_write_string_loop fuel cs_pin start_addr str i).
Proof.
  revert start_addr i. induction fuel as [ | fuel IH]; intros start_addr i;
    cbn [eeprom_write_string_loop]; latch.
Qed.

Lemma keeps_latch_read_string_loop fuel cs_pin start_addr str max_len i :
  keeps_latch (eeprom_read_string_loop fuel cs_pin start_addr str max_len i).
Proof.
  revert start_addr str i. induction fuel as [ | fuel IH]; intros start_addr str i;
    cbn [eeprom_read_string_loop]; latch.
Qed.

Lemma keeps_latch_sequential_read_length_loop fuel databuf buf length i :
  keeps_latch (sequential_read_length_loop fuel databuf buf length i).
Proof.
  revert buf i. induction fuel as [ | fuel IH]; intros buf i;
    cbn [sequential_read_length_loop]; latch.
Qed.

Lemma keeps_latch_sequential_read_range_loop fuel databuf buf length i :
  keeps_latch (sequential_read_range_loop fuel databuf buf length i).
Proof.
  revert buf i. induction fuel as [ | fuel IH]; intros buf i;
    cbn [sequential_read_range_loop]; latch.
Qed.

Lemma keeps_latch_void {A} (m : M A) : keeps_latch m -> keeps_latch (void m).
Proof. intros H. unfold void. latch. Qed.

Lemma call_keeps_latch cs_pin op :
  is_enable op = false -> is_disable op = false -> keeps_latch (call cs_pin op).
Proof.
  pose proof (keeps_latch_cs_select cs_pin).
  pose proof (keeps_latch_cs_deselect cs_pin).
  pose proof keeps_latch_sequential_read_length_loop.
  pose proof keeps_latch_sequential_read_range_loop.
  destruct op; cbn [is_enable is_disable call]; intros He Hd;
    try discriminate He; try discriminate Hd.
  - apply keeps_latch_void, keeps_latch_read.
  - apply keeps_latch_write.
  - apply keeps_latch_write_buf_loop.
  - apply keeps_latch_erase.
  - unfold eeprom_dump. pose proof keeps_latch_dump_loop. latch.
  - apply keeps_latch_void. unfold eeprom_copy. pose proof keeps_latch_copy_loop. latch.
  - apply keeps_latch_paste_loop.
  - apply keeps_latch_write_string_loop.
  - apply keeps_latch_void. unfold eeprom_read_string.
    pose proof keeps_latch_read_string_loop. latch.
  - apply keeps_latch_void. unfold eeprom_sequential_read_length, delay_250ns. latch.
  - apply keeps_latch_void. unfold eeprom_sequential_read_range, delay_250ns. latch.
Qed.

Lemma eeprom_write_enable_sets cs_pin s :
  eeprom_write_enable cs_pin s =
  Ok tt (set_latch true s)
     (cs_toggle cs_pin ++ [SpiWrite wen_cmdbuf; GpioPut cs_pin false; Delay250ns]).
Proof. reflexivity. Qed.

Lemma eeprom_write_disable_clears cs_pin s :
  eeprom_write_disable cs_pin s =
  Ok tt (set_latch false s)
     (cs_toggle cs_pin ++ [SpiWrite wds_cmdbuf; GpioPut cs_pin false; Delay250ns]).
Proof. reflexivity. Qed.

Lemma calls_latch_stays_set cs_pin ops : forall s a s' tr,
  wen s = true -> existsb is_disable ops = false ->
  calls cs_pin ops s = Ok a s' tr -> wen s' = true.
Proof.
  induction ops as [ | op ops IH]; intros s a s' tr Hw Hops H; cbn [calls] in H.
  - inversion H; subst. exact Hw.
  - cbn [existsb] in Hops. apply orb_false_elim in Hops as [Hop Hops].
    apply bind_inv in H as (? & s1 & ? & ? & H1 & H2 & _).
    eapply IH; [ | exact Hops | exact H2].
    destruct (is_enable op) eqn:He.
    + destruct op; try discriminate He. cbn [call] in H1.
      rewrite eeprom_write_enable_sets in H1. inversion H1; subst. reflexivity.
    + destruct (call_keeps_latch cs_pin op He Hop _ _ _ _ H1) as [Hw1 _].
      rewrite Hw1. exact Hw.
Qed.

Lemma calls_write_protected cs_pin ops : forall s a s' tr,
  wen s = false -> existsb is_enable ops = false ->
  calls cs_pin ops s = Ok a s' tr -> mem s' = mem s /\ wen s' = false.
Proof.
  induction ops as [ | op ops IH]; intros s a s' tr Hw Hops H; cbn [calls] in H.
  - inversion H; subst. split; [reflexivity | exact Hw].
  - cbn [existsb] in Hops. apply orb_false_elim in Hops as [Hop Hops].
    apply bind_inv in H as (? & s1 & ? & ? & H1 & H2 & _).
    assert (H1' : mem s1 = mem s /\ wen s1 = false).
    { destruct (is_disable op) eqn:Hd.
      - destruct op; try discriminate Hd. cbn [call] in H1.
        rewrite eeprom_write_disable_clears in H1. inversion H1; subst.
        split; reflexivity.
      - destruct (call_keeps_latch cs_pin op Hop Hd _ _ _ _ H1) as [Hw1 Hm1].
        split; [apply Hm1; exact Hw | rewrite Hw1; exact Hw]. }
    destruct H1' as [Hm1 Hw1].
    destruct (IH _ _ _ _ Hw1 Hops H2) as [Hm2 Hw2].
    split; [rewrite Hm2; exact Hm1 | exact Hw2].
Qed.

(** X18. The write-enable latch across the public operations:
    [eeprom_write_enable] returns from every state and leaves the latch set,
    [eeprom_write_disable] returns and leaves it clear; every other
    operation leaves the latch as it found it; so after a sequence of
    operations without [eeprom_write_disable], entered with writes enabled,
    writes are still enabled. *)
Theorem write_enable_latch (cs_pin : Z) :
  (forall s, exists tr,
     eeprom_write_enable cs_pin s = Ok tt (set_latch true s) tr)
  /\ (forall s, exists tr,
        eeprom_write_disable cs_pin s = Ok tt (set_latch false s) tr)
  /\ (forall op s a s' tr,
        is_enable op = false -> is_disable op = false ->
        call cs_pin op s = Ok a s' tr -> wen s' = wen s)
  /\ (forall ops s a s' tr,
        wen s = true -> existsb is_disable ops = false ->
        calls cs_pin ops s = Ok a s' tr -> wen s' = true).
Proof.
  split; [intros s; eexists; apply eeprom_write_enable_sets | ].
  split; [intros s; eexists; apply eeprom_write_disable_clears | ].
  split.
  - intros op s a s' tr He Hd H.
    exact (proj1 (call_keeps_latch cs_pin op He Hd _ _ _ _ H)).
  - intros ops s a s' tr Hw Hops H.
    exact (calls_latch_stays_set cs_pin ops s a s' tr Hw Hops H).
Qed.

Lemma write_enable_latch_witness :
  wen (state_of init_state
         (calls 17 [Write 0x10 0xDEAD; Erase 0x11; Read 0x10] init_state)) = true.
Proof.
  destruct (write_enable_latch 17) as (_ & _ & _ & H).
  apply (H [Write 0x10 0xDEAD; Erase 0x11; Read 0x10] init_state tt
           (state_of init_state
              (calls 17 [Write 0x10 0xDEAD; Erase 0x11; Read 0x10] init_state))
           (trace_of (calls 17 [Write 0x10 0xDEAD; Erase 0x11; Read 0x10] init_state)));
    reflexivity.
Defined.

(** X19. Write protection: from a state in which the device has writes
    disabled, a sequence of operations without [eeprom_write_enable]
    changes no stored word, whatever it writes or erases, and leaves writes
    disabled. *)
Theorem write_protection (cs_pin : Z) (ops : list operation) (s s' : state)
    (tr : list event) :
  wen s = false ->
  existsb is_enable ops = false ->
  calls cs_pin ops s = Ok tt s' tr ->
  mem s' = mem s /\ wen s' = false.
Proof. apply calls_write_protected. Qed.

Lemma write_protection_witness :
  mem (state_of power_on_state
         (calls 17 [Write 0x10 0xDEAD; Erase 0x11; WriteBuf 0 [1; 2] 2; Read 0x10]
                power_on_state))
    = mem power_on_state
  /\ wen (state_of power_on_state
         (calls 17 [Write 0x10 0xDEAD; Erase 0x11; WriteBuf 0 [1; 2] 2; Read 0x10]
                power_on_state)) = false.
Proof.
  apply (write_protection 17
           [Write 0x10 0xDEAD; Erase 0x11; WriteBuf 0 [1; 2] 2; Read 0x10]
           power_on_state
           (state_of power_on_state
              (calls 17 [Write 0x10 0xDEAD; Erase 0x11; WriteBuf 0 [1; 2] 2; Read 0x10]
                     power_on_state))
           (trace_of (calls 17 [Write 0x10 0xDEAD; Erase 0x11; WriteBuf 0 [1; 2] 2;
                                Read 0x10] power_on_state)));
    reflexivity.
Defined.

(** ** The string round trip *)

(** X20. Where the string round trip holds.  On a device with writes
    enabled, for a text [s] of at most 2048 non-zero characters stored with
    its terminating zero byte and [max_len] greater than its length:
    [eeprom_write_string] followed by [eeprom_read_string] at the same
    address returns and recovers exactly [s], if [s] has odd length and a
    further zero byte follows its terminator, or if [s] has even length and
    [max_len] is its length plus one. *)
Theorem string_round_trip (cs_pin start_addr : Z) (s pad buf : list Z)
    (max_len : Z) (fuel : nat) (st : state) :
  wen st = true ->
  Forall is_char s ->
  (length s <= 2048)%nat ->
  Z.of_nat (length s) < max_len < 2 ^ 32 ->
  (Z.to_nat max_len <= length buf)%nat ->
  (Z.to_nat max_len <= fuel)%nat ->
  (Nat.even (length s) = false /\ (exists pad', pad = 0 :: pad'))
  \/ (Nat.even (length s) = true /\ max_len = Z.of_nat (length s) + 1) ->
  recovered_text
    (write_then_read cs_pin start_addr (s ++ 0 :: pad) buf max_len fuel st)
  = Some s.
Proof. exact (write_then_read_string_run cs_pin start_addr s pad buf max_len fuel st). Qed.

Lemma string_round_trip_witness :
  recovered_text
    (write_then_read 17 0x3FF ([72; 105; 33] ++ 0 :: [0]) (repeat 0 8) 8 8 init_state)
  = Some [72; 105; 33].
Proof.
  apply string_round_trip.
  - reflexivity.
  - repeat constructor; unfold is_char; lia.
  - simpl. lia.
  - simpl. lia.
  - simpl. lia.
  - simpl. lia.
  - left. split; [reflexivity | ]. exists []. reflexivity.
Defined.
